(* ===== verification/_CoqProject ===== *)
-Q . S2P
Prelude.v
Transitions.v
JsText.v
JsArray.v
JsNumber.v
JsSort.v
Articles.v
Keywords.v
Matching.v
Scoring.v
Json.v
JsonText.v
JsonRead.v
Ranking.v
Search.v
Endpoints.v
Utf8.v
Url.v
Analyze.v
BodyStream.v
Router.v
Lifecycle.v
