(* ===== verification/Prelude.v ===== *)
(** * A verification development of the HDAssist knowledge-base server

    The repository is one Node.js script, [src/quick-start.js]: an HTTP
    server over a fixed, read-only array of three knowledge-base articles
    ([mockArticles], lines 6-49).  Its parts, and how they interact:

    - text helpers built on JavaScript built-ins: [String.prototype]
      [toLowerCase], [replace(/[^\w\s]/g, ' ')], [split(/\s+/)],
      [includes], [Array.prototype] [includes], [join], [slice], [new Set],
      [parseInt], [Math.min], [Math.max], [Math.round];
    - the tokenizers: [extractKeywords] (lines 52-60, used by analyze) and
      the inline search-term tokenizer of the search route (lines 193-196);
    - the candidate filters: two inline [reduce] loops computing a weighted
      match count with a fixed table of variant credits, and the two
      thresholds (lines 198-224 for search, 314-341 for analyze);
    - the two scoring functions [calculateSearchScore] (lines 77-106) and
      [calculateRelevanceScore] (lines 62-75);
    - [Array.prototype.sort] with the comparators [scoreB - scoreA]
      (lines 225-230, 261, 342-346, 354);
    - the request line read by [url.parse(req.url, true)] (line 124):
      the pathname and the query object of [querystring.parse];
    - the route handlers of the request listener (lines 123-378): banner,
      health, docs, search (with category filter and pagination), popular,
      categories, article by id, analyze (body accumulated from chunks,
      parsed, validated, ranked, re-sorted by relevance), and 404;
    - the response helpers [sendResponse] / [sendError] (lines 108-120),
      which write the value with [JSON.stringify(data, null, 2)];
    - the two listeners of the analyze route on the request stream
      ([data] appends the decoded chunk, [end] parses and answers,
      lines 297-370);
    - the process around the listener (lines 380-409 and the log line
      128): [PORT], [server.listen] with its start-up banner, one log line
      per request, the [SIGTERM] / [SIGINT] handlers that call
      [server.close], its callback [process.exit(0)], and the exit with
      code 1 on an exception the listener throws.

    Files, in dependency order (each opens with what it holds):
    - [Prelude]: this header, the [kb_scope] notations, the [kb] hint
      database, shared tactics and generic lemmas on lists, booleans and
      rationals.
    - [Transitions]: event-driven components in general: a reaction
      [next : S -> E -> option S], its runs [run_from] and the reachable
      states [reaches], an inductive relation for rule induction.
    - [JsText]: the JavaScript string built-ins on Latin-1 code units.
    - [JsArray]: [Array.prototype.slice], [includes] and the
      insertion-ordered [Set] deduplication.
    - [JsNumber]: [parseInt] (sign, radix prefix, digits), the [|| d]
      idiom, query values, and [Number::toString] on integers.
    - [JsSort]: [Array.prototype.sort] with a consistent comparator, as a
      stable insertion sort, with its specification (permutation, sorted,
      stable) and the uniqueness theorem that any list meeting the
      specification is the model's output.
    - [Articles]: the [article] record and [mockArticles].
    - [Keywords]: [extractKeywords] and the search-term tokenizer.
    - [Matching]: the article text, the variant-credit table, the match
      counts and the two inclusion thresholds.
    - [Scoring]: [calculateSearchScore] and [calculateRelevanceScore].
    - [Json]: response values, [sendResponse] / [sendError], the request
      [outcome] (a response or an uncaught exception), and truthiness and
      string conversion of parsed JSON values; well-formed values
      ([wf_json]: distinct keys in every object, as JavaScript objects
      have) and the lemmas that assignment and property reads keep them.
    - [JsonText]: [JSON.stringify(data, null, 2)], the text a response
      sends: [QuoteJSONString] escapes and the two-space layout.
    - [JsonRead]: [JSON.parse], a recursive-descent reader on code units
      with fuel, its termination bound, its well-formed results, and the
      round trip with [JsonText].
    - [Ranking]: the [Ranker] interface (tokenizer, filter, score and
      their laws) between the routes and the engine, the shared pipeline
      [rank], and its two instances.
    - [Search]: the search route [handle_search].
    - [Endpoints]: the popular, categories and article-by-id routes.
    - [Utf8]: [chunk.toString()], the UTF-8 decoder applied to each body
      chunk, and the accumulation of the body.
    - [Url]: [url.parse(req.url, true)] on its fast path and
      [querystring.parse]: trimming, backslashes, [simplePathPattern],
      the 1000-piece limit, [+] and percent-decoding with
      [decodeURIComponent] and its [unescapeBuffer] fallback (which reuses
      the decoder of [Utf8]), and repeated keys as arrays.
    - [Analyze]: the analyze route, from the body chunks to the response.
    - [BodyStream]: the [data] and [end] listeners as a reaction to the
      request's events ([Transitions]), refined by
      [handle_analyze_request].
    - [Router]: the request listener: the request read from the method
      and the request target ([request_of]), preflight, the switch on the
      pathname, the default branch and 404.
    - [Lifecycle]: the process as a record (run state, log lines,
      responses sent) reacting to the events [listening], request, signal
      and [close], through the listener of [Router].

    Theorem groups (the claims are about [src/quick-start.js]).
    Refinement: the search route returns a page of the stably sorted
    candidates ([handle_search_spec]), the popular route a prefix of the
    popularity sort, the analyze route the top five re-sorted by
    relevance.  Routing, end to end: unknown paths get 404, an article
    path reaches the article route with the id the regular expression
    extracts, unknown ids get 404, the method is ignored except for
    [OPTIONS] and analyze.  Safety and errors: only the search route can
    crash the process, and exactly on repeated parameters, also from the
    request line; the analyze route always answers 200 or 400, with the
    400 cases ([Invalid JSON], [issue_description is required])
    characterised; every response carries the CORS headers.  Bounds:
    match counts, scores, the relevance score (never above 7), page sizes,
    and the negative limits that escape the caps of 20 and 50; a [q] after
    the first 1000 query pieces is never read.  Tokenizers: keywords are
    distinct lower-case tokens without stop words, while the search terms
    keep every stop word of three letters or more.  Body decoding:
    chunks on character boundaries accumulate to the whole decoding, and
    every two-byte character split between chunks becomes two U+FFFD.
    Invariant and liveness of the request stream: by rule induction on
    the events, the route answers exactly once, right after [end], on the
    decoding of all the chunks, and every stream of chunks and [end] gets
    that answer.  The process, by rule induction on its events: the log
    is the lines of the events in order; every request accepted is
    answered exactly once or ends the process with code 1, after which
    nothing is served; the exit code is 0 only on the close event after a
    signal and 1 only right after a request that threw; and from every
    running state a signal and the close event end the process with
    code 0.

    Checks of the models of the built-ins (lemmas, not claims about the
    program): [Array.prototype.sort]'s specification has exactly one
    solution ([sort_spec_unique]); [parseInt] reads back what
    [Number::toString] prints; [JSON.parse] reads back what
    [JSON.stringify] writes ([parse_json_stringify]), builds only
    well-formed objects ([parse_json_wf]) and never runs out of fuel at
    the bound ([read_value_terminates]); the client reads from every
    response the value the handler built ([handle_request_reads_back]);
    [querystring.parse] reads parameters encoded with
    [encodeURIComponent] back ([qs_parse_encode]), stops at 1000 pieces
    ([qs_parse_maxKeys]), and its two decoding branches agree on ASCII
    ([qs_unescape_ascii]).

    Bounds and fuel.  [digits_from] prints an integer with [log2 |z| + 1]
    digits of fuel, proved enough for every integer.  The JSON reader
    [read_value] of [JsonRead] is mutually recursive over values, arrays
    and objects and takes fuel; [3 n + 1] units are enough for a text of
    [n] code units, because every value consumes at least one code unit
    and each nesting level or element uses at most three units of fuel
    per code unit consumed; [parse_json] passes that bound, and more fuel
    never changes a result ([read_value_terminates]).  No other
    definition needs fuel: the loops of the code are folds over finite
    lists.

    Not modelled.  The slow path of [url.parse], taken by a request
    target with a [#], an [@] before its query, white space inside it,
    or no leading slash (or three), which an HTTP request line rarely
    has: [url_parse] is [None] there, as it is when a decoded parameter
    has a code point above U+00FF.  In [Lifecycle]: the socket itself
    ([listen] binding [PORT], which Node.js reads as a pipe name when it
    is not a number, and the errors of binding), the stack trace an
    uncaught exception writes to stderr, and the timing of events: the
    process is modelled by the order in which Node.js delivers its
    events, and a request's body is given whole to the listener (its
    stream is [BodyStream]).  The clock reading of the log line and of
    the health route are inputs of the event.  The
    routes are parametric in the body parser; [JsonRead] gives the
    reference [JSON.parse] used for the end-to-end theorems, which reads
    integers only (a fraction or exponent is rejected) and string code
    units below 256, and orders an object's keys by first insertion
    (JavaScript lists integer-like keys first).

    Numbers.  JavaScript numbers are IEEE doubles.  Integer-valued
    quantities (view counts, scores of [calculateRelevanceScore], page
    arithmetic) are modelled as [Z]; they stay far below 2^53 where
    doubles are exact.  The match count (credits 1, 0.5, 0.3) and the
    search score (an integer plus [(views + helpful) / 1000]) are modelled
    as exact rationals [Q]: the model is the real-number semantics of the
    code, which the doubles approximate.

    Strings.  A Rocq [string] is read as a sequence of UTF-16 code units
    below 256 (Latin-1); the model of [toLowerCase] and of the regular
    expression classes [\w] and [\s] is exact on that range.  The body
    decoder works on bytes and code points.
*)

From Stdlib Require Export String Ascii List Bool ZArith QArith Qminmax
  Qround Lia Lqa Permutation Sorted.
Export ListNotations.

Declare Scope kb_scope.
Delimit Scope kb_scope with kb.

(** JavaScript comparisons on numbers modelled as rationals. *)
Notation "a >=? b" := (Qle_bool b a) (at level 70, no associativity) : kb_scope.
Notation "a >? b" := (negb (Qle_bool a b)) (at level 70, no associativity) : kb_scope.

Create HintDb kb discriminated.
Create Rewrite HintDb kb_rw.

(** ** Booleans and rationals *)

Lemma Qle_bool_spec (x y : Q) : reflect (x <= y) (Qle_bool x y).
Proof.
  destruct (Qle_bool x y) eqn:E; constructor.
  - now apply Qle_bool_iff.
  - intro H. apply Qle_bool_iff in H. congruence.
Qed.

Lemma Qeq_bool_spec (x y : Q) : reflect (x == y) (Qeq_bool x y).
Proof.
  destruct (Qeq_bool x y) eqn:E; constructor.
  - now apply Qeq_bool_iff.
  - intro H. apply Qeq_bool_iff in H. congruence.
Qed.

Lemma inject_Z_nonneg (z : Z) : (0 <= z)%Z -> 0 <= inject_Z z.
Proof. intros H. change 0 with (inject_Z 0). now rewrite <- Zle_Qle. Qed.

Lemma inject_Z_pos (z : Z) : (0 < z)%Z -> 0 < inject_Z z.
Proof. intros H. change 0 with (inject_Z 0). now rewrite <- Zlt_Qlt. Qed.

Lemma inject_Z_of_nat_S (n : nat) :
  inject_Z (Z.of_nat (S n)) == inject_Z (Z.of_nat n) + 1.
Proof. rewrite Nat2Z.inj_succ, <- Z.add_1_r, inject_Z_plus. reflexivity. Qed.

(** Folding a sum of rational increments from [a] equals [a] plus the fold
    from [0]: the accumulator of a JavaScript [reduce] can be shifted out. *)
Lemma fold_left_Qplus_shift {A} (f : A -> Q) (l : list A) (a : Q) :
  fold_left (fun c x => c + f x) l a == a + fold_left (fun c x => c + f x) l 0.
Proof.
  revert a. induction l as [|x l IH]; intro a; simpl.
  - ring.
  - rewrite (IH (a + f x)), (IH (0 + f x)). ring.
Qed.

Lemma fold_left_Qplus_nonneg {A} (f : A -> Q) (l : list A) (a : Q) :
  (forall x, In x l -> 0 <= f x) -> 0 <= a ->
  0 <= fold_left (fun c x => c + f x) l a.
Proof.
  revert a. induction l as [|x l IH]; intros a Hf Ha; simpl; [exact Ha|].
  apply IH; [intros y Hy; apply Hf; now right|].
  pose proof (Hf x (or_introl eq_refl)). lra.
Qed.

(** A fold of increments each at most [m] from [a] stays below
    [a + m * length l]. *)
Lemma fold_left_Qplus_le {A} (f : A -> Q) (m : Q) (l : list A) (a : Q) :
  (forall x, In x l -> f x <= m) ->
  fold_left (fun c x => c + f x) l a <= a + m * inject_Z (Z.of_nat (length l)).
Proof.
  revert a. induction l as [|x l IH]; intros a Hf.
  - cbn [fold_left length]. change (inject_Z (Z.of_nat 0)) with 0. lra.
  - cbn [fold_left length]. rewrite inject_Z_of_nat_S.
    pose proof (Hf x (or_introl eq_refl)).
    specialize (IH (a + f x) (fun y Hy => Hf y (or_intror Hy))). lra.
Qed.

(** The same two facts for integer folds. *)
Lemma fold_left_Zplus_shift {A} (f : A -> Z) (l : list A) (a : Z) :
  fold_left (fun c x => (c + f x)%Z) l a = (a + fold_left (fun c x => (c + f x)%Z) l 0)%Z.
Proof.
  revert a. induction l as [|x l IH]; intro a; cbn [fold_left]; [lia|].
  rewrite (IH (a + f x)%Z), (IH (0 + f x)%Z). lia.
Qed.

Lemma fold_left_Zplus_bounds {A} (f : A -> Z) (lo hi : Z) (l : list A) :
  (forall x, In x l -> lo <= f x <= hi)%Z ->
  (lo * Z.of_nat (length l) <= fold_left (fun c x => (c + f x)%Z) l 0
   <= hi * Z.of_nat (length l))%Z.
Proof.
  induction l as [|x l IH]; intros Hf; cbn [fold_left length]; [lia|].
  rewrite fold_left_Zplus_shift.
  specialize (IH (fun y Hy => Hf y (or_intror Hy))).
  pose proof (Hf x (or_introl eq_refl)). lia.
Qed.

(** The sum of increments does not depend on their order. *)
Lemma fold_left_Zplus_perm {A} (f : A -> Z) (l l' : list A) (a : Z) :
  Permutation l l' ->
  fold_left (fun c x => (c + f x)%Z) l a = fold_left (fun c x => (c + f x)%Z) l' a.
Proof.
  intros P. revert a. induction P as [|x l l' P IH|x y l|l l' l'' P1 IH1 P2 IH2];
    intros a; cbn [fold_left]; try reflexivity.
  - apply IH.
  - f_equal. lia.
  - now rewrite IH1, IH2.
Qed.

(** ** Lists *)

(** Decide a [Forall] of a boolean test by computing [forallb]. *)
Lemma Forall_forallb {A} (f : A -> bool) (l : list A) :
  forallb f l = true -> Forall (fun x => f x = true) l.
Proof. rewrite forallb_forall, Forall_forall. auto. Qed.

Lemma existsb_In_iff {A} (f : A -> bool) (l : list A) :
  existsb f l = true <-> exists x, In x l /\ f x = true.
Proof. apply existsb_exists. Qed.

Lemma filter_length_le {A} (f : A -> bool) (l : list A) :
  (length (filter f l) <= length l)%nat.
Proof.
  induction l as [|x l IH]; simpl; [lia|]. destruct (f x); simpl; lia.
Qed.

Lemma filter_ext_In {A} (f g : A -> bool) (l : list A) :
  (forall x, In x l -> f x = g x) -> filter f l = filter g l.
Proof.
  induction l as [|x l IH]; intros H; simpl; [reflexivity|].
  rewrite (H x (or_introl eq_refl)), IH by (intros; apply H; now right).
  reflexivity.
Qed.

Lemma firstn_incl {A} (n : nat) (l : list A) x : In x (firstn n l) -> In x l.
Proof.
  revert l. induction n as [|n IH]; intros [|y l]; simpl; try tauto.
  intros [<-|H]; [now left|right; now apply IH].
Qed.

Lemma filter_filter_andb {A} (f g : A -> bool) (l : list A) :
  filter f (filter g l) = filter (fun x => g x && f x) l.
Proof.
  induction l as [|x l IH]; simpl; [reflexivity|].
  destruct (g x); simpl; [destruct (f x); simpl; congruence|exact IH].
Qed.

Lemma NoDup_firstn {A} (n : nat) (l : list A) : NoDup l -> NoDup (firstn n l).
Proof.
  revert l. induction n as [|n IH]; intros [|x l] H; simpl; try constructor.
  - inversion H as [|? ? Hx Hl]; subst. intros Hin. apply Hx. now apply firstn_incl in Hin.
  - apply IH. now inversion H.
Qed.

Lemma Forall_firstn {A} (P : A -> Prop) (n : nat) (l : list A) :
  Forall P l -> Forall P (firstn n l).
Proof.
  rewrite !Forall_forall. intros H x Hx. apply H. now apply firstn_incl in Hx.
Qed.

Lemma filter_all_true {A} (f : A -> bool) (l : list A) :
  (forall x, In x l -> f x = true) -> filter f l = l.
Proof.
  induction l as [|x l IH]; intros H; simpl; [reflexivity|].
  rewrite (H x (or_introl eq_refl)), IH by (intros; apply H; now right). reflexivity.
Qed.

Lemma Permutation_filter {A} (f : A -> bool) (l l' : list A) :
  Permutation l l' -> Permutation (filter f l) (filter f l').
Proof.
  intros P. induction P as [|x l l' P IH|x y l|l l' l'' P1 IH1 P2 IH2]; simpl.
  - constructor.
  - destruct (f x); [now constructor|exact IH].
  - destruct (f x), (f y); try constructor; reflexivity.
  - now rewrite IH1.
Qed.

Lemma StronglySorted_filter {A} (R : A -> A -> Prop) (f : A -> bool) (l : list A) :
  StronglySorted R l -> StronglySorted R (filter f l).
Proof.
  induction l as [|x l IH]; intros H; simpl; [constructor|].
  apply StronglySorted_inv in H as [H Hall]. destruct (f x); [|now apply IH].
  constructor; [now apply IH|]. rewrite Forall_forall in *. intros y Hy.
  apply filter_In in Hy as [Hy _]. now apply Hall.
Qed.

(** A filtered sorted list is sorted (for a transitive order). *)
Lemma Sorted_filter {A} (R : A -> A -> Prop) (f : A -> bool) (l : list A) :
  Relations_1.Transitive R -> Sorted R l -> Sorted R (filter f l).
Proof.
  intros T H. apply StronglySorted_Sorted, StronglySorted_filter, Sorted_StronglySorted; assumption.
Qed.

(** A prefix of a sorted list is sorted. *)
Lemma Sorted_firstn {A} (R : A -> A -> Prop) (n : nat) (l : list A) :
  Sorted R l -> Sorted R (firstn n l).
Proof.
  revert l. induction n as [|n IH]; intros [|x l] H; simpl; [constructor..|].
  apply Sorted_inv in H as [H1 H2]. constructor; [now apply IH|].
  destruct n, l; simpl; constructor. now inversion H2.
Qed.

#[export] Hint Resolve filter_length_le firstn_incl NoDup_firstn Forall_firstn Sorted_firstn : kb.

(** ** Tactics *)

(** Turn boolean connectives in hypotheses and goal into propositions. *)
Ltac bool_props :=
  repeat first
    [ rewrite andb_true_iff in *
    | rewrite orb_true_iff in *
    | rewrite negb_true_iff in *
    | rewrite andb_false_iff in *
    | rewrite orb_false_iff in *
    | rewrite negb_false_iff in * ].

(** Case on the first [if] of the goal, keeping the equation. *)
Ltac case_if :=
  match goal with
  | |- context [if ?b then _ else _] => let E := fresh "E" in destruct b eqn:E
  end.
