(* ===== verification/Transitions.v ===== *)
(** * Event-driven code: runs and reachable states

    Node.js code reacts to events: a request stream emits [data] and
    [end], the process receives the [listen] callback, signals and the
    [close] callback.  A component that reacts to events is given by its
    reaction [next : S -> E -> option S], [None] when the event cannot
    happen in that state.  [run_from] plays a sequence of events, and
    [reaches next s0 es s] is the inductive relation of the states [s]
    reachable from [s0] by the events [es], on which invariants are
    proved by rule induction ([BodyStream], [Lifecycle]).

    Lemmas: [run_from] over concatenated sequences; [reaches] and
    [run_from] agree; a run from a reachable state reaches its end. *)

From S2P Require Import Prelude.

Section Transitions.
Context {S E : Type} (next : S -> E -> option S).

(** The events played one after the other. *)
Fixpoint run_from (s : S) (es : list E) : option S :=
  match es with
  | [] => Some s
  | e :: rest => match next s e with Some s' => run_from s' rest | None => None end
  end.

(** The states reachable from [s0], with the events that lead there. *)
Inductive reaches (s0 : S) : list E -> S -> Prop :=
| reaches_nil : reaches s0 [] s0
| reaches_snoc (es : list E) (s : S) (e : E) (s' : S) :
    reaches s0 es s -> next s e = Some s' -> reaches s0 (es ++ [e]) s'.

Lemma run_from_app (s : S) (es1 es2 : list E) :
  run_from s (es1 ++ es2) = match run_from s es1 with Some s1 => run_from s1 es2 | None => None end.
Proof.
  revert s. induction es1 as [|e es1 IH]; intros s; [reflexivity|]. cbn [app run_from].
  destruct (next s e); [apply IH|reflexivity].
Qed.

Lemma reaches_run (s0 : S) (es : list E) (s : S) : reaches s0 es s <-> run_from s0 es = Some s.
Proof.
  split.
  - induction 1 as [|es s e s' _ IH Hs]; [reflexivity|].
    rewrite run_from_app, IH. cbn [run_from]. now rewrite Hs.
  - revert s. induction es as [|e es IH] using rev_ind; intros s.
    + injection 1 as <-. constructor.
    + rewrite run_from_app. destruct (run_from s0 es) as [s1|] eqn:E1; [|discriminate].
      cbn [run_from]. destruct (next s1 e) as [s2|] eqn:E2; [|discriminate].
      injection 1 as <-. econstructor; [now apply IH|exact E2].
Qed.

(** A reachable state followed by a run is reachable. *)
Lemma reaches_app (s0 : S) (es : list E) (s : S) (es' : list E) (s' : S) :
  reaches s0 es s -> run_from s es' = Some s' -> reaches s0 (es ++ es') s'.
Proof. rewrite !reaches_run, run_from_app. now intros ->. Qed.

End Transitions.
