(* ===== verification/JsText.v ===== *)
(** * JavaScript string built-ins used by [src/quick-start.js]

    [String.prototype.toLowerCase], the regular-expression replacement
    [replace(/[^\w\s]/g, ' ')], the split [split(/\s+/)] and
    [String.prototype.includes], on strings of Latin-1 code units (see the
    header of [Prelude]).  Each built-in is written from the ECMAScript
    algorithm it follows; the lemmas characterise it: [includes] is the
    substring relation, the split yields whitespace-free pieces separated
    by maximal whitespace runs, and joining whitespace-free words with one
    space and splitting again gives the words back. *)

From S2P Require Import Prelude.

Local Open Scope string_scope.

Module JsText.

(** ** Character classes *)

(** [\s] of a regular expression without the [u] flag, on code units below
    256: TAB, LF, VT, FF, CR, SPACE and NO-BREAK SPACE (U+00A0). *)
Definition is_space_char (c : ascii) : bool :=
  let n := nat_of_ascii c in
  ((9 <=? n) && (n <=? 13))%nat || (n =? 32)%nat || (n =? 160)%nat.

(** [\w]: [A-Za-z0-9_]. *)
Definition is_word_char (c : ascii) : bool :=
  let n := nat_of_ascii c in
  ((48 <=? n) && (n <=? 57))%nat || ((65 <=? n) && (n <=? 90))%nat
  || (n =? 95)%nat || ((97 <=? n) && (n <=? 122))%nat.

(** Upper-case letters of Latin-1 that [toLowerCase] maps 32 code points
    down: A-Z, U+00C0-U+00D6 and U+00D8-U+00DE. *)
Definition is_upper_char (c : ascii) : bool :=
  let n := nat_of_ascii c in
  ((65 <=? n) && (n <=? 90))%nat || ((192 <=? n) && (n <=? 214))%nat
  || ((216 <=? n) && (n <=? 222))%nat.

Definition to_lower_char (c : ascii) : ascii :=
  if is_upper_char c then ascii_of_nat (nat_of_ascii c + 32) else c.

(** ** The built-ins *)

(** [s.toLowerCase()] *)
Fixpoint toLowerCase (s : string) : string :=
  match s with
  | EmptyString => EmptyString
  | String c s' => String (to_lower_char c) (toLowerCase s')
  end.

(** [s.replace(/[^\w\s]/g, ' ')]: every code unit that is neither a word
    character nor white space becomes a space. *)
Fixpoint replace_nonword (s : string) : string :=
  match s with
  | EmptyString => EmptyString
  | String c s' =>
      String (if is_word_char c || is_space_char c then c else " "%char)
             (replace_nonword s')
  end.

(** [s.split(/\s+/)]: the ECMAScript split with a regular-expression
    separator.  The pattern is greedy and cannot match the empty string,
    so every maximal run of white space separates two pieces; a leading or
    trailing run yields an empty first or last piece, and [""] splits into
    [[""]].  [cur] is the piece being read and [in_run] records that the
    previous code unit was white space. *)
Fixpoint split_ws_from (s : string) (cur : string) (in_run : bool) : list string :=
  match s with
  | EmptyString => [cur]
  | String c s' =>
      if is_space_char c then
        if in_run then split_ws_from s' cur true
        else cur :: split_ws_from s' "" true
      else split_ws_from s' (cur ++ String c "") false
  end.

Definition split_ws (s : string) : list string := split_ws_from s "" false.

(** [s.includes(t)]: [t] occurs in [s] at some index. *)
Fixpoint str_includes (s t : string) : bool :=
  prefix t s ||
  match s with
  | EmptyString => false
  | String _ s' => str_includes s' t
  end.

(** [a.join(sep)] on an array of strings. *)
Fixpoint join (sep : string) (l : list string) : string :=
  match l with
  | [] => ""
  | [x] => x
  | x :: l' => x ++ sep ++ join sep l'
  end.

(** Every code unit of [s] satisfies [p]. *)
Fixpoint all_chars (p : ascii -> bool) (s : string) : bool :=
  match s with
  | EmptyString => true
  | String c s' => p c && all_chars p s'
  end.

(** A string holds no white space. *)
Definition no_space (s : string) : bool := all_chars (fun c => negb (is_space_char c)) s.

(** ** Lemmas *)

Lemma str_app_nil_r (s : string) : s ++ "" = s.
Proof. induction s as [|c s IH]; simpl; congruence. Qed.

Lemma str_app_assoc (s t u : string) : s ++ t ++ u = (s ++ t) ++ u.
Proof. induction s as [|c s IH]; simpl; congruence. Qed.

Lemma str_length_app (s t : string) :
  String.length (s ++ t) = (String.length s + String.length t)%nat.
Proof. induction s as [|c s IH]; simpl; congruence. Qed.

Lemma prefix_spec (t s : string) :
  prefix t s = true <-> exists u, s = t ++ u.
Proof.
  revert s. induction t as [|c t IH]; intros s; simpl.
  - split; [intros _; now exists s|]. destruct s; reflexivity.
  - destruct s as [|d s].
    + split; [discriminate|intros [u Hu]; discriminate].
    + simpl. destruct (ascii_dec c d) as [<-|Hne].
      * rewrite IH. split; intros [u Hu]; exists u; [now subst|congruence].
      * split; [discriminate|intros [u Hu]; congruence].
Qed.

(** [includes] is the substring relation. *)
Lemma str_includes_spec (s t : string) :
  str_includes s t = true <-> exists p q, s = p ++ t ++ q.
Proof.
  induction s as [|c s IH]; cbn [str_includes]; rewrite orb_true_iff, prefix_spec.
  - split.
    + intros [[u Hu]|H]; [|discriminate]. exists "", u. exact Hu.
    + intros [[|d p] [q H]]; [left; now exists q|discriminate].
  - rewrite IH. split.
    + intros [[u Hu]|[p [q Hpq]]].
      * exists "", u. exact Hu.
      * exists (String c p), q. now rewrite Hpq.
    + intros [[|d p] [q H]].
      * left. now exists q.
      * right. injection H as -> ->. now exists p, q.
Qed.

Lemma str_includes_refl (s : string) : str_includes s s = true.
Proof. apply str_includes_spec. exists "", "". now rewrite str_app_nil_r. Qed.

(** Substrings of substrings are substrings. *)
Lemma str_includes_trans (s t u : string) :
  str_includes s t = true -> str_includes t u = true -> str_includes s u = true.
Proof.
  rewrite !str_includes_spec. intros [p [q ->]] [p' [q' ->]].
  exists (p ++ p'), (q' ++ q). now rewrite !str_app_assoc.
Qed.

Lemma str_includes_length (s t : string) :
  str_includes s t = true -> (String.length t <= String.length s)%nat.
Proof.
  rewrite str_includes_spec. intros [p [q ->]]. rewrite !str_length_app. lia.
Qed.

(** Facts about single code units are decided over all 256 of them. *)
Ltac ascii_cases c := destruct c as [[] [] [] [] [] [] [] []]; reflexivity.

Lemma to_lower_char_idem (c : ascii) : to_lower_char (to_lower_char c) = to_lower_char c.
Proof. ascii_cases c. Qed.

Lemma is_space_to_lower (c : ascii) : is_space_char (to_lower_char c) = is_space_char c.
Proof. ascii_cases c. Qed.

Lemma is_word_to_lower (c : ascii) : is_word_char (to_lower_char c) = is_word_char c.
Proof. ascii_cases c. Qed.

Lemma toLowerCase_app (s t : string) :
  toLowerCase (s ++ t) = toLowerCase s ++ toLowerCase t.
Proof. induction s as [|c s IH]; simpl; congruence. Qed.

(** Lower-casing twice is lower-casing once. *)
Lemma toLowerCase_idem (s : string) : toLowerCase (toLowerCase s) = toLowerCase s.
Proof. induction s as [|c s IH]; simpl; [reflexivity|]. now rewrite to_lower_char_idem, IH. Qed.

Lemma toLowerCase_length (s : string) : String.length (toLowerCase s) = String.length s.
Proof. induction s as [|c s IH]; simpl; congruence. Qed.

Lemma toLowerCase_empty (s : string) : toLowerCase s = "" <-> s = "".
Proof. destruct s; simpl; split; congruence. Qed.

Lemma all_chars_app (p : ascii -> bool) (s t : string) :
  all_chars p (s ++ t) = all_chars p s && all_chars p t.
Proof. induction s as [|c s IH]; simpl; [reflexivity|]. now rewrite IH, andb_assoc. Qed.

Lemma all_chars_impl (p q : ascii -> bool) (s : string) :
  (forall c, p c = true -> q c = true) -> all_chars p s = true -> all_chars q s = true.
Proof.
  intros Hpq. induction s as [|c s IH]; simpl; [reflexivity|].
  rewrite !andb_true_iff. intros [Hc Hs]. split; [now apply Hpq|now apply IH].
Qed.

(** If every code unit of [s] is white space or satisfies [p], every piece
    of [split(/\s+/)] satisfies [p]. *)
Lemma split_ws_from_all_chars (p : ascii -> bool) (s cur : string) (b : bool) :
  all_chars (fun c => is_space_char c || p c) s = true -> all_chars p cur = true ->
  Forall (fun w => all_chars p w = true) (split_ws_from s cur b).
Proof.
  revert cur b. induction s as [|c s IH]; intros cur b Hs Hcur; simpl in Hs |- *.
  - now constructor.
  - apply andb_true_iff in Hs as [Hc Hs].
    destruct (is_space_char c) eqn:Esp; [destruct b|].
    + now apply IH.
    + constructor; [exact Hcur|]. now apply IH.
    + apply IH; [exact Hs|]. rewrite all_chars_app, Hcur. simpl in Hc |- *. now rewrite Hc.
Qed.

(** Every piece of [split(/\s+/)] is free of white space. *)
Lemma split_ws_no_space (s : string) : Forall (fun w => no_space w = true) (split_ws s).
Proof.
  apply split_ws_from_all_chars; [|reflexivity].
  induction s as [|c s IH]; simpl; [reflexivity|]. now destruct (is_space_char c).
Qed.

(** Reading a non-empty white-space-free word appends it to the piece. *)
Lemma split_ws_from_word (w s cur : string) (b : bool) :
  no_space w = true -> w <> "" ->
  split_ws_from (w ++ s) cur b = split_ws_from s (cur ++ w) false.
Proof.
  revert cur b. induction w as [|c w IH]; intros cur b Hw Hne; [congruence|].
  simpl in Hw |- *. apply andb_true_iff in Hw as [Hc Hw]. apply negb_true_iff in Hc.
  rewrite Hc. destruct w as [|d w'].
  - reflexivity.
  - rewrite IH by (assumption || discriminate). now rewrite <- str_app_assoc.
Qed.

Lemma split_ws_from_join (ws : list string) (b : bool) :
  ws <> [] -> Forall (fun w => no_space w = true /\ w <> "") ws ->
  split_ws_from (join " " ws) "" b = ws.
Proof.
  revert b. induction ws as [|w ws IH]; intros b Hne Hall; [congruence|].
  inversion Hall as [|? ? [Hw Hwne] Hrest]; subst.
  destruct ws as [|w2 ws].
  - change (join " " [w]) with w. rewrite <- (str_app_nil_r w) at 1.
    now rewrite split_ws_from_word.
  - change (join " " (w :: w2 :: ws)) with (w ++ " " ++ join " " (w2 :: ws)).
    rewrite split_ws_from_word by assumption. simpl.
    now rewrite IH by (discriminate || assumption).
Qed.

(** Round trip: joining non-empty, white-space-free words with one
    space and splitting on white-space runs gives the words back. *)
Theorem split_ws_join (ws : list string) :
  ws <> [] -> Forall (fun w => no_space w = true /\ w <> "") ws ->
  split_ws (join " " ws) = ws.
Proof. apply split_ws_from_join. Qed.

Lemma split_ws_join_witness :
  ["active"; "directory"] <> [] /\
  Forall (fun w => no_space w = true /\ w <> "") ["active"; "directory"] /\
  split_ws (join " " ["active"; "directory"]) = ["active"; "directory"].
Proof.
  assert (H1 : ["active"; "directory"] <> []) by discriminate.
  assert (H2 : Forall (fun w => no_space w = true /\ w <> "") ["active"; "directory"])
    by (repeat constructor; discriminate).
  split; [exact H1|split; [exact H2|]]. exact (split_ws_join _ H1 H2).
Defined.

(** The code units a token can hold after lower-casing and replacing
    non-word characters: lower-case [\w] characters. *)
Definition is_token_char (c : ascii) : bool := is_word_char c && negb (is_upper_char c).

Lemma is_upper_to_lower (c : ascii) : is_upper_char (to_lower_char c) = false.
Proof. ascii_cases c. Qed.

Lemma normalize_chars (s : string) :
  all_chars (fun c => is_space_char c || is_token_char c)
            (replace_nonword (toLowerCase s)) = true.
Proof.
  induction s as [|c s IH]; cbn [toLowerCase replace_nonword all_chars]; [reflexivity|].
  rewrite IH, andb_true_r. unfold is_token_char.
  destruct (is_word_char (to_lower_char c) || is_space_char (to_lower_char c)) eqn:E;
    [|reflexivity].
  rewrite is_upper_to_lower, andb_true_r, orb_comm. exact E.
Qed.

(** Every piece of the normalised text is made of lower-case word
    characters. *)
Lemma normalize_pieces (s : string) :
  Forall (fun w => all_chars is_token_char w = true) (split_ws (replace_nonword (toLowerCase s))).
Proof. apply split_ws_from_all_chars; [apply normalize_chars|reflexivity]. Qed.

(** Lower-casing leaves a string of token characters unchanged. *)
Lemma toLowerCase_token (s : string) : all_chars is_token_char s = true -> toLowerCase s = s.
Proof.
  induction s as [|c s IH]; simpl; [reflexivity|].
  rewrite andb_true_iff. unfold is_token_char. intros [Hc Hs].
  rewrite IH by exact Hs. unfold to_lower_char.
  apply andb_true_iff in Hc as [_ Hc]. apply negb_true_iff in Hc. now rewrite Hc.
Qed.

#[export] Hint Resolve str_includes_refl : kb.
#[export] Hint Rewrite toLowerCase_idem toLowerCase_app : kb_rw.

End JsText.
