(* ===== verification/JsArray.v ===== *)
(** * JavaScript array built-ins used by [src/quick-start.js]

    [Array.prototype.includes] on strings, [Array.prototype.slice] with the
    ECMAScript treatment of negative and out-of-range indices, and the
    deduplication [[...new Set(xs)]], which keeps the first occurrence of
    each value in insertion order.  The lemmas give [slice] on
    non-negative indices as [skipn]/[firstn], its length, and for the
    deduplication: no duplicates, the same members, a duplicate-free list
    unchanged, and that it only drops elements of its input. *)

From S2P Require Import Prelude.

Module JsArray.

(** [a.includes(x)] for an array of strings: SameValueZero on strings is
    equality of the code-unit sequences. *)
Definition arr_includes (l : list string) (x : string) : bool :=
  existsb (String.eqb x) l.

(** [[...new Set(l)]]: a [Set] keeps its values in insertion order and
    ignores a value it already holds. *)
Definition set_dedup (l : list string) : list string :=
  fold_left (fun acc x => if arr_includes acc x then acc else acc ++ [x]) l [].

(** The relative index of [slice]: a negative index counts from the end,
    and the result is clamped to [[0, len]]. *)
Definition relative_index (i len : Z) : Z :=
  if (i <? 0)%Z then Z.max (len + i) 0 else Z.min i len.

(** [a.slice(start, end)] with integer arguments. *)
Definition js_slice {A} (l : list A) (start end_ : Z) : list A :=
  let len := Z.of_nat (length l) in
  let k := relative_index start len in
  let final := relative_index end_ len in
  firstn (Z.to_nat (final - k)) (skipn (Z.to_nat k) l).

(** ** Lemmas *)

Lemma arr_includes_In (l : list string) (x : string) :
  arr_includes l x = true <-> In x l.
Proof.
  unfold arr_includes. rewrite existsb_exists. split.
  - intros [y [Hy E]]. apply String.eqb_eq in E. now subst.
  - intros H. exists x. split; [exact H|apply String.eqb_refl].
Qed.

Lemma arr_includes_app (l1 l2 : list string) (x : string) :
  arr_includes (l1 ++ l2) x = arr_includes l1 x || arr_includes l2 x.
Proof. apply existsb_app. Qed.

Lemma set_dedup_acc_NoDup (l acc : list string) :
  NoDup acc ->
  NoDup (fold_left (fun acc x => if arr_includes acc x then acc else acc ++ [x]) l acc).
Proof.
  revert acc. induction l as [|x l IH]; intros acc Hacc; simpl; [exact Hacc|].
  apply IH. destruct (arr_includes acc x) eqn:E; [exact Hacc|].
  apply NoDup_app; [exact Hacc|constructor; [intros []|constructor]|].
  intros y Hy [Hxy|[]]. subst y. apply arr_includes_In in Hy. congruence.
Qed.

Lemma set_dedup_acc_In (l acc : list string) (y : string) :
  In y (fold_left (fun acc x => if arr_includes acc x then acc else acc ++ [x]) l acc)
  <-> In y acc \/ In y l.
Proof.
  revert acc. induction l as [|x l IH]; intros acc; simpl; [tauto|].
  rewrite IH. destruct (arr_includes acc x) eqn:E.
  - apply arr_includes_In in E. split; [tauto|].
    intros [H|[<-|H]]; auto.
  - rewrite in_app_iff. simpl. tauto.
Qed.

(** The deduplicated array has no duplicates ... *)
Lemma set_dedup_NoDup (l : list string) : NoDup (set_dedup l).
Proof. apply set_dedup_acc_NoDup. constructor. Qed.

(** ... and the same members as its input. *)
Lemma set_dedup_In (l : list string) (y : string) : In y (set_dedup l) <-> In y l.
Proof. unfold set_dedup. rewrite set_dedup_acc_In. simpl. tauto. Qed.

(** A duplicate-free array is left unchanged. *)
Lemma set_dedup_acc_NoDup_id (l acc : list string) :
  NoDup (acc ++ l) ->
  fold_left (fun acc x => if arr_includes acc x then acc else acc ++ [x]) l acc = acc ++ l.
Proof.
  revert acc. induction l as [|x l IH]; intros acc Hnd; simpl; [now rewrite app_nil_r|].
  destruct (arr_includes acc x) eqn:E.
  - apply arr_includes_In in E. apply NoDup_remove_2 in Hnd.
    exfalso. apply Hnd. apply in_or_app. now left.
  - rewrite IH; [now rewrite <- app_assoc|now rewrite <- app_assoc].
Qed.

(** [[...new Set(l)]] of a duplicate-free array is the array itself,
    in the same order. *)
Theorem set_dedup_NoDup_id (l : list string) : NoDup l -> set_dedup l = l.
Proof. intros H. now apply set_dedup_acc_NoDup_id. Qed.

Local Open Scope string_scope.

Lemma set_dedup_NoDup_id_witness :
  NoDup ["Authentication"; "Network"; "Email"] /\
  set_dedup ["Authentication"; "Network"; "Email"] = ["Authentication"; "Network"; "Email"].
Proof.
  assert (H : NoDup ["Authentication"; "Network"; "Email"]).
  { repeat constructor; simpl; intuition discriminate. }
  split; [exact H|]. exact (set_dedup_NoDup_id _ H).
Defined.

Lemma js_slice_nonneg {A} (l : list A) (s e : Z) :
  (0 <= s)%Z -> (s <= e)%Z ->
  js_slice l s e = firstn (Z.to_nat e - Z.to_nat s) (skipn (Z.to_nat s) l).
Proof.
  intros Hs Hse. unfold js_slice, relative_index.
  destruct (Z.ltb_spec s 0); [lia|]. destruct (Z.ltb_spec e 0); [lia|].
  set (len := Z.of_nat (length l)).
  destruct (Z.le_ge_cases s len); destruct (Z.le_ge_cases e len).
  - rewrite Z.min_l, Z.min_l by lia. f_equal. lia.
  - rewrite (Z.min_l s len), (Z.min_r e len) by lia.
    rewrite !firstn_all2; [reflexivity| |];
      rewrite length_skipn; unfold len in *; lia.
  - replace s with len by lia. replace e with len by lia.
    rewrite Z.min_r, Z.sub_diag, Nat.sub_diag by lia. reflexivity.
  - rewrite Z.min_r, Z.min_r by lia.
    rewrite !skipn_all2 by (unfold len in *; lia). now rewrite !firstn_nil.
Qed.

(** [a.slice(0, -k)] drops the last [k] elements. *)
Lemma js_slice_neg_end {A} (l : list A) (k : Z) :
  (0 < k)%Z -> js_slice l 0 (- k) = firstn (length l - Z.to_nat k) l.
Proof.
  intros Hk. unfold js_slice, relative_index. change (0 <? 0)%Z with false. cbv iota.
  destruct (Z.ltb_spec (- k) 0); [|lia]. rewrite Z.min_l by lia. simpl skipn.
  f_equal. lia.
Qed.

(** A slice holds at most [end - start] elements. *)
Lemma js_slice_length {A} (l : list A) (s e : Z) :
  (Z.of_nat (length (js_slice l s e)) <= Z.max 0 (e - s))%Z \/ (s < 0)%Z \/ (e < 0)%Z.
Proof.
  unfold js_slice, relative_index.
  destruct (Z.ltb_spec s 0); [now right; left|]. destruct (Z.ltb_spec e 0); [now right; right|].
  left. rewrite length_firstn. lia.
Qed.

(** Every element of a slice is an element of the array. *)
Lemma js_slice_incl {A} (l : list A) (s e : Z) x : In x (js_slice l s e) -> In x l.
Proof.
  unfold js_slice. intros H. apply firstn_incl in H.
  revert H. generalize (Z.to_nat (relative_index s (Z.of_nat (length l)))).
  induction l as [|y l IH]; intros [|n] H; simpl in *; [tauto|tauto|exact H|right; exact (IH n H)].
Qed.

End JsArray.
