(* ===== verification/JsNumber.v ===== *)
(** * JavaScript number built-ins used by [src/quick-start.js]

    [parseInt(string)] without a radix, following the ECMAScript algorithm:
    leading white space is skipped, one sign is read, a [0x]/[0X] prefix
    selects radix 16 (otherwise radix 10), and the longest prefix of
    digits of the radix is read; no digit gives [NaN], modelled as [None].
    [or_default] is the idiom [parseInt(...) || d] of lines 180, 181 and
    259: [NaN] and [0] are falsy.  [to_js_string] is the [ToString] of a
    query value: an absent parameter reads as ["undefined"], an array
    (repeated parameter) as its elements joined with commas.

    Integers are exact; the code's doubles agree on the values below 2^53
    that the routes use (page numbers and limits).

    [number_to_string] is [Number::toString] on integers (the decimal
    digits after an optional [-]), used where the code concatenates a
    number into a string.

    Lemmas: [parseInt] on the inputs the routes meet; [or_default] never
    yields 0 when its default is not 0; [parseInt] reads back every
    integer [number_to_string] prints (the round trip), with enough
    fuel ([log2 |z| + 1] digits) for every integer. *)

From S2P Require Import Prelude JsText.

Local Open Scope string_scope.

Module JsNumber.
Import JsText.

(** TrimString(s, start): drop leading white space and line terminators. *)
Fixpoint trim_start (s : string) : string :=
  match s with
  | EmptyString => EmptyString
  | String c s' => if is_space_char c then trim_start s' else s
  end.

(** The value of a digit of radix up to 36. *)
Definition digit_value (c : ascii) : option Z :=
  let n := Z.of_nat (nat_of_ascii c) in
  if ((48 <=? n) && (n <=? 57))%Z then Some (n - 48)%Z
  else if ((97 <=? n) && (n <=? 122))%Z then Some (n - 87)%Z
  else if ((65 <=? n) && (n <=? 90))%Z then Some (n - 55)%Z
  else None.

(** Read the longest prefix of digits of [radix]; [acc] is the value read
    so far, [None] before the first digit. *)
Fixpoint read_digits (radix : Z) (s : string) (acc : option Z) : option Z :=
  match s with
  | EmptyString => acc
  | String c s' =>
      match digit_value c with
      | Some d =>
          if (d <? radix)%Z
          then read_digits radix s' (Some (match acc with Some v => v | None => 0 end * radix + d)%Z)
          else acc
      | None => acc
      end
  end.

Definition drop_two (s : string) : string :=
  match s with
  | String _ (String _ r) => r
  | _ => EmptyString
  end.

(** The optional sign of [parseInt]: [-1] after a [-], [1] otherwise. *)
Definition read_sign (s : string) : Z * string :=
  match s with
  | String "-" r => ((-1)%Z, r)
  | String "+" r => (1%Z, r)
  | _ => (1%Z, s)
  end.

(** Without a radix argument, a [0x] or [0X] prefix selects radix 16. *)
Definition read_radix (s : string) : Z * string :=
  if prefix "0x" s || prefix "0X" s then (16%Z, drop_two s) else (10%Z, s).

(** [parseInt(input)] *)
Definition parseInt (input : string) : option Z :=
  let '(sign, s) := read_sign (trim_start input) in
  let '(radix, s) := read_radix s in
  option_map (Z.mul sign) (read_digits radix s None).

(** [n || d] for a number [n]: [NaN] and [0] are falsy. *)
Definition or_default (n : option Z) (d : Z) : Z :=
  match n with
  | Some z => if (z =? 0)%Z then d else z
  | None => d
  end.

(** [Number::toString] of an integer: its decimal digits, most
    significant first, after a [-] when it is negative (exact below
    10^21, where JavaScript switches to exponent notation).  [fuel]
    bounds the number of digits; [Z.log2 n + 1] of them is enough, since
    each digit divides [n] by at least 8. *)
Definition digit_char (k : Z) : ascii := ascii_of_nat (48 + Z.to_nat k).

Fixpoint digits_from (fuel : nat) (n : Z) : string :=
  match fuel with
  | O => EmptyString
  | S f =>
      let d := String (digit_char (n mod 10)) EmptyString in
      if (n <? 10)%Z then d else digits_from f (n / 10) ++ d
  end.

Definition number_to_string (z : Z) : string :=
  let d := digits_from (S (Z.to_nat (Z.log2 (Z.abs z)))) (Z.abs z) in
  if (z <? 0)%Z then String "-" d else d.

(** A query-string value: one string, or an array when the parameter is
    repeated ([?q=a&q=b]). *)
Inductive qvalue :=
| QStr (s : string)
| QArr (l : list string).

(** [ToString] of a query value read from the parsed query object;
    [None] is [undefined]. *)
Definition to_js_string (v : option qvalue) : string :=
  match v with
  | None => "undefined"
  | Some (QStr s) => s
  | Some (QArr l) => join "," l
  end.

(** The truthiness of a query value: [undefined] and [""] are falsy; an
    array is an object, always truthy. *)
Definition qvalue_truthy (v : option qvalue) : bool :=
  match v with
  | None => false
  | Some (QStr s) => negb (String.eqb s "")
  | Some (QArr _) => true
  end.

(** ** Properties *)

(** [parseInt] on the examples the routes meet: digits, a sign, trailing
    garbage, a hexadecimal prefix, an exponent or a fraction (read up to
    the first non-digit) and text with no digit. *)
Lemma parseInt_examples :
  parseInt "10" = Some 10%Z /\ parseInt "  -3x" = Some (-3)%Z /\
  parseInt "0x1A" = Some 26%Z /\ parseInt "1e3" = Some 1%Z /\
  parseInt "3.7" = Some 3%Z /\ parseInt "abc" = None /\ parseInt "" = None /\
  parseInt "undefined" = None /\ parseInt "0x" = None.
Proof. repeat split; reflexivity. Qed.

(** [x || d] is never 0 when [d] is not. *)
Lemma or_default_nonzero (n : option Z) (d : Z) : d <> 0%Z -> or_default n d <> 0%Z.
Proof.
  intros Hd. destruct n as [z|]; simpl; [|exact Hd].
  destruct (Z.eqb_spec z 0); [exact Hd|assumption].
Qed.

(** ** Printing integers and reading them back *)

(** A decimal digit. *)
Definition is_dec_digit (c : ascii) : bool :=
  match digit_value c with Some d => (d <? 10)%Z | None => false end.

Lemma digit_char_value (k : Z) : (0 <= k < 10)%Z -> digit_value (digit_char k) = Some k.
Proof.
  intros Hk.
  assert (k = 0 \/ k = 1 \/ k = 2 \/ k = 3 \/ k = 4 \/ k = 5 \/ k = 6 \/ k = 7 \/ k = 8 \/ k = 9)%Z
    as Hc by lia.
  repeat destruct Hc as [->|Hc]; [reflexivity..|subst k; reflexivity].
Qed.

Lemma digit_char_dec (k : Z) : (0 <= k < 10)%Z -> is_dec_digit (digit_char k) = true.
Proof. intros Hk. unfold is_dec_digit. rewrite digit_char_value by exact Hk. lia. Qed.

Lemma is_dec_digit_not_space (c : ascii) (r : string) :
  is_dec_digit c = true -> trim_start (String c r) = String c r /\ read_sign (String c r) = (1%Z, String c r).
Proof. intros H. destruct c as [[] [] [] [] [] [] [] []]; try discriminate H; split; reflexivity. Qed.

Lemma read_radix_digits (s : string) : all_chars is_dec_digit s = true -> read_radix s = (10%Z, s).
Proof.
  intros H. unfold read_radix. destruct s as [|c1 [|c2 r]]; [reflexivity| |].
  - cbn [prefix]. destruct (ascii_dec "0" c1); reflexivity.
  - cbn [all_chars] in H. apply andb_true_iff in H as [_ H]. apply andb_true_iff in H as [H _].
    cbn [prefix]. destruct (ascii_dec "0" c1); [|reflexivity].
    destruct (ascii_dec "x" c2) as [<-|_]; [discriminate H|].
    destruct (ascii_dec "X" c2) as [<-|_]; [discriminate H|reflexivity].
Qed.

(** Reading a digit string and then the rest is reading their
    concatenation. *)
Lemma read_digits_app (s1 s2 : string) (acc : option Z) :
  all_chars is_dec_digit s1 = true ->
  read_digits 10 (s1 ++ s2) acc = read_digits 10 s2 (read_digits 10 s1 acc).
Proof.
  revert acc. induction s1 as [|c s1 IH]; intros acc H; [reflexivity|].
  simpl in H. apply andb_true_iff in H as [Hc H]. unfold is_dec_digit in Hc. simpl.
  destruct (digit_value c) as [d|]; [|discriminate]. rewrite Hc. now apply IH.
Qed.

Lemma digits_from_dec (f : nat) (n : Z) :
  (0 <= n)%Z -> all_chars is_dec_digit (digits_from f n) = true.
Proof.
  revert n. induction f as [|f IH]; intros n Hn; [reflexivity|]. cbn [digits_from].
  assert (Hd : all_chars is_dec_digit (String (digit_char (n mod 10)) EmptyString) = true)
    by (cbn [all_chars]; rewrite digit_char_dec by (apply Z.mod_pos_bound; lia); reflexivity).
  destruct (n <? 10)%Z; [exact Hd|]. rewrite all_chars_app, Hd, IH by (apply Z.div_pos; lia).
  reflexivity.
Qed.

Lemma digits_from_S (f : nat) (n : Z) :
  digits_from (S f) n
  = if (n <? 10)%Z then String (digit_char (n mod 10)) EmptyString
    else digits_from f (n / 10) ++ String (digit_char (n mod 10)) EmptyString.
Proof. reflexivity. Qed.

Lemma read_digit_char (k : Z) (s : string) (acc : option Z) :
  (0 <= k < 10)%Z ->
  read_digits 10 (String (digit_char k) s) acc
  = read_digits 10 s (Some (match acc with Some v => v | None => 0 end * 10 + k)%Z).
Proof.
  intros Hk. cbn [read_digits]. rewrite digit_char_value by exact Hk.
  replace (k <? 10)%Z with true by (symmetry; apply Z.ltb_lt; lia). reflexivity.
Qed.

(** With [n < 2^(f + 1)], [f + 1] digits are enough to print [n]. *)
Lemma read_digits_from (f : nat) (n : Z) :
  (0 <= n < 2 ^ Z.of_nat (S f))%Z -> read_digits 10 (digits_from (S f) n) None = Some n.
Proof.
  revert n. induction f as [|f IH]; intros n Hn; rewrite digits_from_S;
    pose proof (Z.mod_pos_bound n 10 ltac:(lia)) as Hm.
  - destruct (Z.ltb_spec n 10); [|simpl in Hn; lia].
    rewrite read_digit_char by exact Hm. cbn [read_digits]. f_equal. rewrite Z.mod_small; lia.
  - destruct (Z.ltb_spec n 10).
    + rewrite read_digit_char by exact Hm. cbn [read_digits]. f_equal. rewrite Z.mod_small; lia.
    + rewrite read_digits_app by (apply digits_from_dec, Z.div_pos; lia).
      rewrite IH.
      * rewrite read_digit_char by exact Hm. cbn [read_digits]. f_equal.
        rewrite Z.mul_comm. symmetry. apply Z.div_mod. lia.
      * replace (Z.of_nat (S (S f))) with (Z.of_nat f + 2)%Z in Hn by lia.
        replace (Z.of_nat (S f)) with (Z.of_nat f + 1)%Z by lia.
        rewrite Z.pow_add_r in Hn |- * by lia. change (2 ^ 2)%Z with 4%Z in Hn. change (2 ^ 1)%Z with 2%Z.
        pose proof (Z.pow_nonneg 2 (Z.of_nat f) ltac:(lia)).
        pose proof (Z.div_mod n 10 ltac:(lia)). split; [apply Z.div_pos|]; lia.
Qed.

Lemma digits_from_cons (f : nat) (n : Z) :
  (0 <= n)%Z -> exists c r, digits_from (S f) n = String c r /\ is_dec_digit c = true.
Proof.
  revert n. induction f as [|f IH]; intros n Hn; rewrite digits_from_S;
    assert (Hd : is_dec_digit (digit_char (n mod 10)) = true)
      by (apply digit_char_dec, Z.mod_pos_bound; lia).
  - exists (digit_char (n mod 10)), EmptyString. destruct (n <? 10)%Z; split; reflexivity || exact Hd.
  - destruct (n <? 10)%Z.
    + exists (digit_char (n mod 10)), EmptyString. split; [reflexivity|exact Hd].
    + destruct (IH (n / 10)%Z) as [c [r [-> Hc]]]; [apply Z.div_pos; lia|].
      now exists c, (r ++ String (digit_char (n mod 10)) EmptyString).
Qed.

Lemma digit_char_code (k : Z) :
  (0 <= k < 10)%Z -> Z.of_nat (nat_of_ascii (digit_char k)) = (48 + k)%Z.
Proof.
  intros Hk.
  assert (k = 0 \/ k = 1 \/ k = 2 \/ k = 3 \/ k = 4 \/ k = 5 \/ k = 6 \/ k = 7 \/ k = 8 \/ k = 9)%Z
    as Hc by lia.
  repeat destruct Hc as [->|Hc]; [reflexivity..|subst k; reflexivity].
Qed.

(** The leading digit of a positive number is not [0]. *)
Lemma digits_from_head (f : nat) (n : Z) :
  (1 <= n < 2 ^ Z.of_nat (S f))%Z ->
  exists c r, digits_from (S f) n = String c r /\ is_dec_digit c = true /\
              Z.of_nat (nat_of_ascii c) <> 48%Z.
Proof.
  revert n. induction f as [|f IH]; intros n Hn; rewrite digits_from_S;
    pose proof (Z.mod_pos_bound n 10 ltac:(lia)) as Hm.
  - destruct (Z.ltb_spec n 10); [|simpl in Hn; lia].
    exists (digit_char (n mod 10)), EmptyString. split; [reflexivity|split].
    + now apply digit_char_dec.
    + rewrite digit_char_code by exact Hm. rewrite Z.mod_small; lia.
  - destruct (Z.ltb_spec n 10).
    + exists (digit_char (n mod 10)), EmptyString. split; [reflexivity|split].
      * now apply digit_char_dec.
      * rewrite digit_char_code by exact Hm. rewrite Z.mod_small; lia.
    + destruct (IH (n / 10)%Z) as [c [r [-> Hc]]].
      * replace (Z.of_nat (S (S f))) with (Z.of_nat f + 2)%Z in Hn by lia.
        replace (Z.of_nat (S f)) with (Z.of_nat f + 1)%Z by lia.
        rewrite Z.pow_add_r in Hn |- * by lia. change (2 ^ 2)%Z with 4%Z in Hn.
        change (2 ^ 1)%Z with 2%Z. pose proof (Z.pow_nonneg 2 (Z.of_nat f) ltac:(lia)).
        pose proof (Z.div_mod n 10 ltac:(lia)). lia.
      * now exists c, (r ++ String (digit_char (n mod 10)) EmptyString).
Qed.

Lemma digits_fuel_enough (z : Z) : (Z.abs z < 2 ^ Z.of_nat (S (Z.to_nat (Z.log2 (Z.abs z)))))%Z.
Proof.
  rewrite Nat2Z.inj_succ, Z2Nat.id by apply Z.log2_nonneg.
  destruct (Z.eq_dec (Z.abs z) 0) as [->|Hz]; [reflexivity|].
  apply Z.log2_spec. lia.
Qed.

(** The digits printed for [|z|]: read back as [|z|], decimal digits
    only, and starting with a digit. *)
Lemma abs_digits (z : Z) :
  let d := digits_from (S (Z.to_nat (Z.log2 (Z.abs z)))) (Z.abs z) in
  read_digits 10 d None = Some (Z.abs z) /\ all_chars is_dec_digit d = true /\
  exists c r, d = String c r /\ is_dec_digit c = true.
Proof.
  cbv zeta. split; [|split].
  - apply read_digits_from. split; [lia|apply digits_fuel_enough].
  - apply digits_from_dec. lia.
  - apply digits_from_cons. lia.
Qed.

(** [parseInt(String(z))] gives [z] back for every integer. *)
Theorem parseInt_number_to_string (z : Z) : parseInt (number_to_string z) = Some z.
Proof.
  unfold number_to_string. destruct (abs_digits z) as [Hr [Hd [c [r [Hcr Hc]]]]].
  set (d := digits_from _ _) in *. unfold parseInt. destruct (Z.ltb_spec z 0).
  - change (read_sign (trim_start (String "-" d))) with ((-1)%Z, d). cbv beta iota.
    rewrite read_radix_digits by exact Hd.
    cbv beta iota. rewrite Hr. cbn [option_map]. f_equal. lia.
  - destruct (is_dec_digit_not_space c r Hc) as [Ht Hs]. rewrite Hcr, Ht, Hs.
    cbv beta iota. rewrite <- Hcr, read_radix_digits by exact Hd. cbv beta iota.
    rewrite Hr. cbn [option_map]. f_equal. lia.
Qed.

End JsNumber.
