(* ===== verification/JsSort.v ===== *)
(** * [Array.prototype.sort] with the comparators of [src/quick-start.js]

    Every sort of the program passes a comparator [(a, b) => key(b) - key(a)]
    (lines 225-230, 261, 342-346, 354): the array is ordered by a numeric
    key, largest first.  ECMAScript (since 2019) requires [sort] to be
    stable, and for a consistent comparator the result is then determined:
    [sort_spec] states it (a permutation of the input, sorted by
    decreasing key, and for every key value the elements with that key in
    their input order).  [js_sort] models the built-in as a stable
    insertion sort; [js_sort_spec] shows that it meets [sort_spec] and
    [sort_spec_unique] that [sort_spec] has exactly one solution, so any
    stable implementation the engine uses computes [js_sort]. *)

From S2P Require Import Prelude.

Module JsSort.

Section Sort.
Context {A : Type}.

(** [cmp y x > 0] means that [y] must come after [x]. *)
Fixpoint insert (cmp : A -> A -> Q) (x : A) (l : list A) : list A :=
  match l with
  | [] => [x]
  | y :: l' => if (cmp y x >? 0)%kb then x :: l else y :: insert cmp x l'
  end.

(** [arr.sort(cmp)]: the elements are inserted one by one, left to right;
    each goes after every element it does not precede, which keeps equal
    elements in input order. *)
Definition js_sort (cmp : A -> A -> Q) (l : list A) : list A :=
  fold_left (fun acc x => insert cmp x acc) l [].

(** The comparator [(a, b) => key(b) - key(a)]. *)
Definition by_key_desc (key : A -> Q) (a b : A) : Q := key b - key a.

(** Ordered by decreasing key. *)
Definition desc (key : A -> Q) (a b : A) : Prop := key b <= key a.

(** The elements whose key equals [k], in order. *)
Definition key_class (key : A -> Q) (k : Q) (l : list A) : list A :=
  filter (fun x => Qeq_bool (key x) k) l.

(** What a stable sort by decreasing key returns. *)
Definition sort_spec (key : A -> Q) (l out : list A) : Prop :=
  Permutation out l /\ Sorted (desc key) out /\
  forall k, key_class key k out = key_class key k l.

Lemma insert_perm (cmp : A -> A -> Q) (x : A) (l : list A) :
  Permutation (insert cmp x l) (x :: l).
Proof.
  induction l as [|y l IH]; simpl; [reflexivity|].
  destruct (_ >? _)%kb; [reflexivity|].
  rewrite IH. apply perm_swap.
Qed.

Lemma js_sort_acc_perm (cmp : A -> A -> Q) (l acc : list A) :
  Permutation (fold_left (fun acc x => insert cmp x acc) l acc) (l ++ acc).
Proof.
  revert acc. induction l as [|x l IH]; intros acc; simpl; [reflexivity|].
  rewrite IH, insert_perm. symmetry. apply Permutation_middle.
Qed.

(** The sort returns a permutation of its input, whatever the comparator. *)
Lemma js_sort_perm (cmp : A -> A -> Q) (l : list A) : Permutation (js_sort cmp l) l.
Proof. unfold js_sort. rewrite js_sort_acc_perm. now rewrite app_nil_r. Qed.

(** Comparators that agree on the elements of the array give the same
    sort. *)
Lemma insert_ext (cmp1 cmp2 : A -> A -> Q) (P : A -> Prop) (x : A) (l : list A) :
  (forall u v, P u -> P v -> cmp1 u v = cmp2 u v) -> P x -> Forall P l ->
  insert cmp1 x l = insert cmp2 x l.
Proof.
  intros Hc Hx Hl. induction Hl as [|y l Hy Hl IH]; cbn [insert]; [reflexivity|].
  rewrite (Hc y x Hy Hx), IH. reflexivity.
Qed.

Lemma js_sort_acc_ext (cmp1 cmp2 : A -> A -> Q) (P : A -> Prop) (l acc : list A) :
  (forall u v, P u -> P v -> cmp1 u v = cmp2 u v) -> Forall P l -> Forall P acc ->
  fold_left (fun acc x => insert cmp1 x acc) l acc
  = fold_left (fun acc x => insert cmp2 x acc) l acc.
Proof.
  intros Hc Hl. revert acc. induction Hl as [|x l Hx Hl IH]; intros acc Ha; [reflexivity|].
  cbn [fold_left]. rewrite (insert_ext cmp1 cmp2 P x acc Hc Hx Ha). apply IH.
  apply Forall_forall. intros z Hz. apply (Permutation_in _ (insert_perm cmp2 x acc)) in Hz.
  destruct Hz as [<-|Hz]; [exact Hx|]. exact (proj1 (Forall_forall _ _) Ha z Hz).
Qed.

Lemma js_sort_ext (cmp1 cmp2 : A -> A -> Q) (P : A -> Prop) (l : list A) :
  (forall u v, P u -> P v -> cmp1 u v = cmp2 u v) -> Forall P l ->
  js_sort cmp1 l = js_sort cmp2 l.
Proof. intros Hc Hl. apply (js_sort_acc_ext cmp1 cmp2 P); [exact Hc|exact Hl|constructor]. Qed.

Section ByKey.
Variable key : A -> Q.

Lemma by_key_desc_after (x y : A) :
  (by_key_desc key y x >? 0)%kb = negb (Qle_bool (key x) (key y)).
Proof.
  unfold by_key_desc. f_equal.
  destruct (Qle_bool_spec (key x - key y) 0), (Qle_bool_spec (key x) (key y));
    reflexivity || lra.
Qed.

Lemma desc_trans : Relations_1.Transitive (desc key).
Proof. unfold desc. intros a b c H1 H2. lra. Qed.

Lemma sorted_strongly (l : list A) : Sorted (desc key) l -> StronglySorted (desc key) l.
Proof. apply Sorted_StronglySorted, desc_trans. Qed.

Lemma key_class_In (k : Q) (m : list A) (z : A) :
  In z (key_class key k m) <-> In z m /\ key z == k.
Proof. unfold key_class. rewrite filter_In, Qeq_bool_iff. reflexivity. Qed.

Lemma key_class_cons (k : Q) (x : A) (m : list A) :
  key_class key k (x :: m) = (if Qeq_bool (key x) k then [x] else []) ++ key_class key k m.
Proof. unfold key_class. simpl. now destruct (Qeq_bool (key x) k). Qed.

Lemma key_class_app (k : Q) (m1 m2 : list A) :
  key_class key k (m1 ++ m2) = key_class key k m1 ++ key_class key k m2.
Proof. apply filter_app. Qed.

(** No element of [m] has key [k]: its class is empty. *)
Lemma key_class_nil (k : Q) (m : list A) :
  (forall z, In z m -> ~ key z == k) -> key_class key k m = [].
Proof.
  intros H. destruct (key_class key k m) as [|z r] eqn:E; [reflexivity|].
  assert (Hz : In z (key_class key k m)) by (rewrite E; now left).
  apply key_class_In in Hz as [Hz Hk]. now destruct (H z Hz).
Qed.

Lemma insert_hd (a x : A) (l : list A) :
  desc key a x -> HdRel (desc key) a l -> HdRel (desc key) a (insert (by_key_desc key) x l).
Proof.
  intros Hax Hl. destruct l as [|y l]; simpl; [now constructor|].
  rewrite by_key_desc_after. destruct (Qle_bool _ _); simpl; constructor;
    [now inversion Hl|exact Hax].
Qed.

Lemma insert_sorted (x : A) (l : list A) :
  Sorted (desc key) l -> Sorted (desc key) (insert (by_key_desc key) x l).
Proof.
  induction l as [|y l IH]; intros Hs; simpl; [now repeat constructor|].
  rewrite by_key_desc_after. destruct (Qle_bool_spec (key x) (key y)) as [Hle|Hgt]; simpl.
  - apply Sorted_inv in Hs as [Hs Hhd]. constructor; [now apply IH|].
    now apply insert_hd.
  - constructor; [exact Hs|]. constructor. unfold desc. apply Qlt_le_weak.
    now apply Qnot_le_lt.
Qed.

(** In a list sorted by decreasing key whose head key is below [key x],
    every key is below [key x]. *)
Lemma sorted_all_below (x y : A) (l : list A) :
  Sorted (desc key) (y :: l) -> key y < key x -> forall z, In z (y :: l) -> key z < key x.
Proof.
  intros Hs Hyx z [<-|Hz]; [exact Hyx|].
  apply sorted_strongly, StronglySorted_inv in Hs as [_ Hall].
  rewrite Forall_forall in Hall. specialize (Hall z Hz). unfold desc in Hall. lra.
Qed.

(** Inserting into a sorted list puts the new element after every element
    of its own key class. *)
Lemma insert_class (k : Q) (x : A) (l : list A) :
  Sorted (desc key) l ->
  key_class key k (insert (by_key_desc key) x l)
  = key_class key k l ++ (if Qeq_bool (key x) k then [x] else []).
Proof.
  induction l as [|y l IH]; intros Hs; cbn [insert].
  - rewrite key_class_cons. simpl. now rewrite app_nil_r.
  - rewrite by_key_desc_after. destruct (Qle_bool_spec (key x) (key y)) as [Hle|Hgt]; simpl negb.
    + cbv iota. rewrite !key_class_cons, <- app_assoc. apply Sorted_inv in Hs as [Hs' _].
      now rewrite IH.
    + cbv iota. apply Qnot_le_lt in Hgt.
      rewrite key_class_cons. destruct (Qeq_bool_spec (key x) k) as [Ex|Ex].
      * rewrite key_class_nil; [reflexivity|].
        intros z Hz. pose proof (sorted_all_below x y l Hs Hgt z Hz). lra.
      * now rewrite app_nil_r.
Qed.

Lemma js_sort_acc_sorted (l acc : list A) :
  Sorted (desc key) acc ->
  Sorted (desc key) (fold_left (fun acc x => insert (by_key_desc key) x acc) l acc).
Proof.
  revert acc. induction l as [|x l IH]; intros acc Hs; simpl; [exact Hs|].
  apply IH, insert_sorted, Hs.
Qed.

Lemma js_sort_acc_class (k : Q) (l acc : list A) :
  Sorted (desc key) acc ->
  key_class key k (fold_left (fun acc x => insert (by_key_desc key) x acc) l acc)
  = key_class key k acc ++ key_class key k l.
Proof.
  revert acc. induction l as [|x l IH]; intros acc Hs; cbn [fold_left].
  { unfold key_class at 3. simpl. now rewrite app_nil_r. }
  rewrite IH by (now apply insert_sorted). rewrite insert_class by exact Hs.
  rewrite key_class_cons. now rewrite app_assoc.
Qed.

(** Refinement: the model of [sort] meets the specification of a stable
    sort by decreasing key. *)
Theorem js_sort_spec (l : list A) : sort_spec key l (js_sort (by_key_desc key) l).
Proof.
  split; [apply js_sort_perm|split].
  - apply js_sort_acc_sorted. constructor.
  - intros k. unfold js_sort. rewrite js_sort_acc_class by constructor. reflexivity.
Qed.

(** The head of a list sorted by decreasing key has the largest key. *)
Lemma sorted_head_max (x z : A) (r : list A) :
  Sorted (desc key) (x :: r) -> In z (x :: r) -> key z <= key x.
Proof.
  intros Hs [<-|Hz]; [apply Qle_refl|].
  apply sorted_strongly, StronglySorted_inv in Hs as [_ Hall].
  rewrite Forall_forall in Hall. exact (Hall z Hz).
Qed.

(** Lists with the same key classes have the same members. *)
Lemma classes_In (o1 o2 : list A) (z : A) :
  (forall k, key_class key k o1 = key_class key k o2) -> In z o2 -> In z o1.
Proof.
  intros Hc Hz. assert (H : In z (key_class key (key z) o2))
    by (apply key_class_In; split; [exact Hz|apply Qeq_refl]).
  rewrite <- Hc in H. now apply key_class_In in H.
Qed.

(** Two lists sorted by decreasing key with the same key classes are equal. *)
Lemma sorted_classes_eq (o1 o2 : list A) :
  Sorted (desc key) o1 -> Sorted (desc key) o2 ->
  (forall k, key_class key k o1 = key_class key k o2) -> o1 = o2.
Proof.
  revert o2. induction o1 as [|x r1 IH]; intros o2 H1 H2 Hc.
  - destruct o2 as [|y r2]; [reflexivity|].
    destruct (classes_In [] (y :: r2) y Hc (or_introl eq_refl)).
  - destruct o2 as [|y r2].
    { destruct (classes_In [] (x :: r1) x (fun k => eq_sym (Hc k)) (or_introl eq_refl)). }
    assert (Hyx := sorted_head_max x y r1 H1 (classes_In _ _ y Hc (or_introl eq_refl))).
    assert (Hxy := sorted_head_max y x r2 H2
                     (classes_In _ _ x (fun k => eq_sym (Hc k)) (or_introl eq_refl))).
    assert (Exy : x = y).
    { specialize (Hc (key x)). rewrite !key_class_cons, Qeq_bool_refl in Hc.
      destruct (Qeq_bool_spec (key y) (key x)) as [_|Hne]; [now injection Hc|lra]. }
    subst y. f_equal. apply Sorted_inv in H1 as [H1 _]. apply Sorted_inv in H2 as [H2 _].
    apply IH; [exact H1|exact H2|]. intros k. specialize (Hc k).
    rewrite !key_class_cons in Hc. now apply app_inv_head in Hc.
Qed.

(** The specification of a stable sort by decreasing key has one
    solution, the model's: whatever stable algorithm the engine runs,
    [arr.sort((a, b) => key(b) - key(a))] returns [js_sort]. *)
Theorem sort_spec_unique (l out : list A) :
  sort_spec key l out -> out = js_sort (by_key_desc key) l.
Proof.
  intros [_ [Hs Hc]]. destruct (js_sort_spec l) as [_ [Hs' Hc']].
  apply sorted_classes_eq; [exact Hs|exact Hs'|]. intros k. now rewrite Hc, Hc'.
Qed.

End ByKey.
End Sort.

End JsSort.
