(* ===== verification/Articles.v ===== *)
(** * The knowledge-base articles of [src/quick-start.js]

    The [article] record has the fields of the objects of [mockArticles]
    (lines 6-49), and [mockArticles] is that array, character for
    character: line breaks [\n] and double quotes are written with [nl] and
    [dq].  The collection is read-only: no operation of the server changes
    it, so every handler of this development takes it as an argument and
    returns only a response.  [kb_wf] is the well-formedness the handlers
    rely on (unique ids, non-negative counters); [mockArticles_wf] checks
    it of the fixture. *)

From S2P Require Import Prelude JsText.

Local Open Scope string_scope.

Module Articles.

Record article := mkArticle {
  id : string;
  kb_number : string;
  title : string;
  content : string;
  category : string;
  tags : list string;
  priority : string;
  department : string;
  view_count : Z;
  helpful_count : Z;
  created_at : string;
  updated_at : string
}.

Definition nl : string := String (ascii_of_nat 10) "".
Definition dq : string := String (ascii_of_nat 34) "".

(** A double-quoted word, as it appears inside the article texts. *)
Definition quoted (s : string) : string := dq ++ s ++ dq.

(** Lines joined with [\n]. *)
Definition lines (l : list string) : string := JsText.join nl l.

Definition content_1 : string := lines [
  "Step-by-step guide to reset user passwords in Active Directory:"; "";
  "1. Open Active Directory Users and Computers";
  "2. Navigate to the user account";
  "3. Right-click and select " ++ quoted "Reset Password";
  "4. Enter new password and confirm";
  "5. Check " ++ quoted "User must change password at next logon" ++ " if needed";
  "6. Click OK to save changes"; "";
  "Note: Ensure you have appropriate permissions to reset passwords."].

Definition content_2 : string := lines [
  "Common VPN connection problems and solutions:"; "";
  "1. Check internet connectivity";
  "2. Verify VPN server address and credentials";
  "3. Ensure VPN client is up to date";
  "4. Check firewall settings";
  "5. Try different VPN protocols (OpenVPN, IKEv2, etc.)";
  "6. Restart network adapters";
  "7. Contact IT support if issues persist"; "";
  "Common error codes:";
  "- Error 800: Unable to establish connection";
  "- Error 619: Connection failed";
  "- Error 809: Network connection interrupted"].

Definition content_3 : string := lines [
  "How to configure Outlook for corporate email:"; "";
  "1. Open Outlook and click " ++ quoted "File" ++ " > " ++ quoted "Add Account";
  "2. Select " ++ quoted "Manual setup or additional server types";
  "3. Choose " ++ quoted "POP or IMAP";
  "4. Enter the following settings:";
  "   - Server: mail.company.com";
  "   - Port: 993 (IMAP) or 995 (POP3)";
  "   - Encryption: SSL/TLS";
  "5. Enter your email address and password";
  "6. Click " ++ quoted "Test Account Settings";
  "7. Click " ++ quoted "Next" ++ " and " ++ quoted "Finish"; "";
  "If you encounter issues, check with IT for specific server settings."].

Definition article_1 : article :=
  {| id := "1"; kb_number := "KB0012345";
     title := "How to Reset User Password in Active Directory";
     content := content_1; category := "Authentication";
     tags := ["password"; "reset"; "AD"; "active directory"; "user account"];
     priority := "medium"; department := "IT";
     view_count := 1250; helpful_count := 98;
     created_at := "2024-01-15T10:30:00Z"; updated_at := "2024-01-20T14:45:00Z" |}.

Definition article_2 : article :=
  {| id := "2"; kb_number := "KB0067891";
     title := "Troubleshooting VPN Connection Issues";
     content := content_2; category := "Network";
     tags := ["vpn"; "connection"; "troubleshooting"; "remote access"];
     priority := "high"; department := "IT";
     view_count := 2100; helpful_count := 156;
     created_at := "2024-01-10T09:15:00Z"; updated_at := "2024-01-25T11:20:00Z" |}.

Definition article_3 : article :=
  {| id := "3"; kb_number := "KB0034567";
     title := "Email Configuration Setup for Outlook";
     content := content_3; category := "Email";
     tags := ["email"; "configuration"; "outlook"; "IMAP"; "POP3"];
     priority := "medium"; department := "IT";
     view_count := 890; helpful_count := 72;
     created_at := "2024-01-08T16:30:00Z"; updated_at := "2024-01-22T10:15:00Z" |}.

(** [const mockArticles = [...]] (lines 6-49). *)
Definition mockArticles : list article := [article_1; article_2; article_3].

(** Popularity, the key of the popular route and the boost of the search
    score: [view_count + helpful_count]. *)
Definition popularity (a : article) : Z := view_count a + helpful_count a.

(** The display string attached to listed articles:
    [`${article.kb_number} - ${article.title}`]. *)
Definition display_info (a : article) : string := kb_number a ++ " - " ++ title a.

(** ** Well-formedness of a collection *)

Definition ids_unique (arts : list article) : bool :=
  let ids := map id arts in
  forallb (fun i => Nat.eqb (count_occ string_dec ids i) 1) ids.

Definition counts_nonneg (arts : list article) : bool :=
  forallb (fun a => (0 <=? view_count a)%Z && (0 <=? helpful_count a)%Z) arts.

Definition kb_wf (arts : list article) : Prop :=
  ids_unique arts = true /\ counts_nonneg arts = true.

Lemma counts_nonneg_popularity (arts : list article) (a : article) :
  counts_nonneg arts = true -> In a arts -> (0 <= popularity a)%Z.
Proof.
  unfold counts_nonneg, popularity. rewrite forallb_forall. intros H Ha.
  specialize (H a Ha). apply andb_true_iff in H as [H1 H2].
  apply Z.leb_le in H1. apply Z.leb_le in H2. lia.
Qed.

(** Unique ids make [find] by id unambiguous. *)
Lemma ids_unique_NoDup (arts : list article) :
  ids_unique arts = true -> NoDup (map id arts).
Proof.
  unfold ids_unique. rewrite forallb_forall. intros H.
  apply (NoDup_count_occ string_dec). intros x.
  destruct (in_dec string_dec x (map id arts)) as [Hin|Hout].
  - specialize (H x Hin). apply Nat.eqb_eq in H. lia.
  - apply (count_occ_not_In string_dec) in Hout. lia.
Qed.

(** The fixture collection is well formed: unique ids and
    non-negative counters. *)
Theorem mockArticles_wf : kb_wf mockArticles.
Proof. split; vm_compute; reflexivity. Qed.

End Articles.
