(* ===== verification/Keywords.v ===== *)
(** * The two tokenizers of [src/quick-start.js]

    [extractKeywords] (lines 52-60), used by the analyze route, and the
    inline search-term tokenizer of the search route (lines 193-196).
    Both lower-case the text, replace every character that is neither a
    word character nor white space by a space, split on white-space runs
    and keep the pieces longer than two code units; [extractKeywords] also
    drops the seventeen stop words, deduplicates in first-occurrence order
    and keeps at most ten.  The search tokenizer drops no stop word and
    keeps duplicates.

    Theorems: the keywords are at most ten, distinct, longer than two
    code units, no stop word, and made of lower-case word characters; the
    example of the specification; and, for every text, a stop word of
    three letters or more is a search term and never a keyword. *)

From S2P Require Import Prelude JsText JsArray.

Local Open Scope string_scope.

Module Keywords.
Import JsText JsArray.

(** [const stopWords = ['the', 'is', ...]] (line 53). *)
Definition stopWords : list string :=
  ["the"; "is"; "at"; "which"; "on"; "a"; "an"; "and"; "or"; "but"; "in";
   "with"; "to"; "for"; "of"; "as"; "by"].

(** [text.toLowerCase().replace(/[^\w\s]/g, ' ').split(/\s+/)] *)
Definition normalized_words (text : string) : list string :=
  split_ws (replace_nonword (toLowerCase text)).

(** [.filter(word => word.length > 2 && !stopWords.includes(word))] *)
Definition keep_keyword (word : string) : bool :=
  (2 <? String.length word)%nat && negb (arr_includes stopWords word).

(** [extractKeywords(text)]: [[...new Set(words)].slice(0, 10)]. *)
Definition extractKeywords (text : string) : list string :=
  firstn 10 (set_dedup (filter keep_keyword (normalized_words text))).

(** [.filter(term => term.length > 2)] *)
Definition keep_term (term : string) : bool := (2 <? String.length term)%nat.

(** [searchTerms] of the search route. *)
Definition searchTerms (query : string) : list string :=
  filter keep_term (normalized_words query).

(** A token: longer than two code units, made of lower-case word
    characters. *)
Definition is_token (w : string) : bool :=
  (2 <? String.length w)%nat && all_chars is_token_char w.

(** ** Properties *)

Lemma normalized_words_token_chars (text : string) (w : string) :
  In w (normalized_words text) -> all_chars is_token_char w = true.
Proof.
  intros H. pose proof (normalize_pieces text) as Hall.
  rewrite Forall_forall in Hall. exact (Hall w H).
Qed.

(** Every search term is a token. *)
Lemma searchTerms_tokens (query : string) :
  Forall (fun t => is_token t = true) (searchTerms query).
Proof.
  apply Forall_forall. intros t Ht. unfold searchTerms in Ht.
  apply filter_In in Ht as [Hin Hkeep]. unfold is_token.
  rewrite andb_true_iff. split; [exact Hkeep|].
  exact (normalized_words_token_chars query t Hin).
Qed.

(** A keyword is a normalised word that passes the keyword filter. *)
Lemma extractKeywords_In (text k : string) :
  In k (extractKeywords text) -> keep_keyword k = true /\ In k (normalized_words text).
Proof.
  intros Hk. apply firstn_incl, set_dedup_In, filter_In in Hk as [Hin Hkeep]. now split.
Qed.

Lemma extractKeywords_token (text k : string) :
  In k (extractKeywords text) -> is_token k = true.
Proof.
  intros Hk. apply extractKeywords_In in Hk as [Hkeep Hin].
  unfold keep_keyword in Hkeep. apply andb_true_iff in Hkeep as [Hlen _].
  unfold is_token. rewrite Hlen. exact (normalized_words_token_chars text k Hin).
Qed.

(** Keywords are lower-case: lower-casing a keyword changes nothing. *)
Lemma extractKeywords_lower (text : string) :
  Forall (fun k => toLowerCase k = k) (extractKeywords text).
Proof.
  apply Forall_forall. intros k Hk. apply extractKeywords_token in Hk.
  apply toLowerCase_token. unfold is_token in Hk. now apply andb_true_iff in Hk.
Qed.

(** C12: [extractKeywords] returns at most ten distinct tokens (lower-case
    words longer than two code units), none of them a stop word. *)
Theorem extractKeywords_wf (text : string) :
  let ks := extractKeywords text in
  (length ks <= 10)%nat /\ NoDup ks /\
  Forall (fun k => is_token k = true /\ ~ In k stopWords) ks.
Proof.
  cbv zeta. split; [apply firstn_le_length|split].
  - apply NoDup_firstn, set_dedup_NoDup.
  - apply Forall_forall. intros k Hk. split; [now apply extractKeywords_token in Hk|].
    apply extractKeywords_In in Hk as [Hkeep _]. unfold keep_keyword in Hkeep.
    apply andb_true_iff in Hkeep as [_ Hstop].
    intros Hst. apply arr_includes_In in Hst. apply negb_true_iff in Hstop. congruence.
Qed.

(** The tokenizer example of the specification: punctuation, case,
    short words and stop words are removed. *)
Example extractKeywords_spec_example :
  extractKeywords "VPN connection issue!! at the office" = ["vpn"; "connection"; "issue"; "office"].
Proof. vm_compute. reflexivity. Qed.

(** C20: the two tokenizers disagree on stop words: a stop word of three
    or more code units that occurs in a text ([the], [which], [with],
    [for], [and], [but]) is a search term of that text, while
    [extractKeywords] never returns it. *)
Theorem searchTerms_keep_stopwords (text w : string) :
  In w (normalized_words text) -> In w stopWords -> (2 < String.length w)%nat ->
  In w (searchTerms text) /\ ~ In w (extractKeywords text).
Proof.
  intros Hin Hstop Hlen. split.
  - unfold searchTerms. apply filter_In. split; [exact Hin|]. now apply Nat.ltb_lt.
  - intros Hk. apply extractKeywords_In in Hk as [Hkeep _]. unfold keep_keyword in Hkeep.
    apply andb_true_iff in Hkeep as [_ Hn]. apply negb_true_iff in Hn.
    apply arr_includes_In in Hstop. congruence.
Qed.

Lemma searchTerms_keep_stopwords_witness :
  (In "the" (normalized_words "at the office") /\ In "the" stopWords /\ (2 < String.length "the")%nat) /\
  (In "the" (searchTerms "at the office") /\ ~ In "the" (extractKeywords "at the office")).
Proof.
  assert (H1 : In "the" (normalized_words "at the office")) by (vm_compute; auto).
  assert (H2 : In "the" stopWords) by (cbn; auto).
  assert (H3 : (2 < String.length "the")%nat) by (cbn; lia).
  split; [auto|]. exact (searchTerms_keep_stopwords _ _ H1 H2 H3).
Defined.

End Keywords.
