(* ===== verification/Matching.v ===== *)
(** * The candidate filters of the search and analyze routes

    Both routes keep an article when a weighted count of the query tokens
    it matches reaches a threshold (search: lines 198-224, analyze: lines
    314-341).  The count is a [reduce] over the tokens: a token found in
    the article text (title, content and tags, lower-cased) counts 1;
    otherwise a fixed table gives partial credit to four (search) or five
    (analyze) terms when a variant occurs; otherwise 0.  Search keeps an
    article when [matchCount >= terms.length * 0.3], analyze when
    [matchCount >= Math.max(1, keywords.length * 0.2)].

    Numbers: the credits and thresholds are the rationals 1, 1/2, 3/10,
    3/10 n and max(1, n/5).  The code compares IEEE doubles; both sides are
    sums or products of at most a few dozen of these constants, so a
    rounding error (below 1e-15) can change a comparison only where the
    rational values are equal, which the model decides exactly.

    Theorems: every token earns a credit in [[0, 1]], so the match count
    lies in [[0, n]]; an article containing every token passes both
    filters (analyze needs a token); an empty token list passes every
    article through the search filter and none through the analyze
    filter; the analyze filter needs a count of at least 1, so partial
    credits alone never suffice for a single keyword. *)

From S2P Require Import Prelude JsText JsArray Articles.

Local Open Scope string_scope.

Module Matching.
Import JsText JsArray Articles.

(** [`${article.title} ${article.content} ${article.tags.join(' ')}`.toLowerCase()] *)
Definition articleText (a : article) : string :=
  toLowerCase (title a ++ " " ++ content a ++ " " ++ join " " (tags a)).

(** The partial-credit table (lines 207-218 and 322-336), consulted when
    the token itself does not occur; the [email] row exists only in the
    analyze route ([with_email]). *)
Definition variant_credit (with_email : bool) (articleText term : string) : Q :=
  if (term =? "password") && (str_includes articleText "pwd" || str_includes articleText "pass")
  then 1 # 2
  else if (term =? "reset") && str_includes articleText "change" then 1 # 2
  else if (term =? "issue")
          && (str_includes articleText "problem" || str_includes articleText "troubleshoot")
  then 1 # 2
  else if (term =? "vpn") && str_includes articleText "connection" then 3 # 10
  else if with_email && (term =? "email")
          && (str_includes articleText "mail" || str_includes articleText "outlook")
  then 1 # 2
  else 0.

(** One step of the search [reduce]: [count + 1] on a literal occurrence,
    [count + credit] on a variant, [count] otherwise. *)
Definition search_credit (articleText term : string) : Q :=
  if str_includes articleText term then 1 else variant_credit false articleText term.

(** The analyze [reduce] tests [articleText.includes(keyword.toLowerCase())]. *)
Definition analyze_credit (articleText keyword : string) : Q :=
  if str_includes articleText (toLowerCase keyword) then 1
  else variant_credit true articleText keyword.

Definition matchCount (credit : string -> string -> Q) (terms : list string) (a : article) : Q :=
  let text := articleText a in
  fold_left (fun count term => count + credit text term) terms 0.

Definition len_q (terms : list string) : Q := inject_Z (Z.of_nat (length terms)).

(** [matchCount >= (searchTerms.length * 0.3)] *)
Definition search_match (terms : list string) (a : article) : bool :=
  (matchCount search_credit terms a >=? len_q terms * (3 # 10))%kb.

(** [matchCount >= Math.max(1, keywords.length * 0.2)] *)
Definition analyze_match (keywords : list string) (a : article) : bool :=
  (matchCount analyze_credit keywords a >=? Qmax 1 (len_q keywords * (2 # 10)))%kb.

(** ** Credits and counts *)

Lemma variant_credit_bounds (e : bool) (text term : string) :
  0 <= variant_credit e text term <= 1 # 2.
Proof.
  unfold variant_credit.
  repeat match goal with |- context [if ?b then _ else _] => destruct b end;
    unfold Qle; simpl; lia.
Qed.

Lemma search_credit_bounds (text term : string) : 0 <= search_credit text term <= 1.
Proof.
  unfold search_credit. destruct (str_includes text term); [lra|].
  pose proof (variant_credit_bounds false text term). lra.
Qed.

Lemma analyze_credit_bounds (text term : string) : 0 <= analyze_credit text term <= 1.
Proof.
  unfold analyze_credit. destruct (str_includes text (toLowerCase term)); [lra|].
  pose proof (variant_credit_bounds true text term). lra.
Qed.

(** A credit function of the table gives at most 1 per token. *)
Definition unit_credit (credit : string -> string -> Q) : Prop :=
  forall text term, 0 <= credit text term <= 1.

Lemma len_q_nonneg (terms : list string) : 0 <= len_q terms.
Proof. unfold len_q. apply inject_Z_nonneg. lia. Qed.

Lemma len_q_pos (terms : list string) : terms <> [] -> 1 <= len_q terms.
Proof.
  unfold len_q. intros H. change 1 with (inject_Z 1). rewrite <- Zle_Qle.
  destruct terms; [congruence|simpl; lia].
Qed.

Lemma search_credit_unit : unit_credit search_credit.
Proof. exact search_credit_bounds. Qed.

Lemma analyze_credit_unit : unit_credit analyze_credit.
Proof. exact analyze_credit_bounds. Qed.

#[export] Hint Resolve search_credit_unit analyze_credit_unit : kb.

Section Counts.
Variable credit : string -> string -> Q.
Hypothesis Hunit : unit_credit credit.

(** The match count lies between 0 and the number of tokens. *)
Lemma matchCount_bounds (terms : list string) (a : article) :
  0 <= matchCount credit terms a <= len_q terms.
Proof.
  unfold matchCount, len_q. split.
  - apply fold_left_Qplus_nonneg; [|lra]. intros x _. apply Hunit.
  - eapply Qle_trans; [apply (fold_left_Qplus_le _ 1)|]; [intros x _; apply Hunit|lra].
Qed.

(** Tokens that all earn full credit give a count equal to their number. *)
Lemma matchCount_full (terms : list string) (a : article) :
  (forall t, In t terms -> credit (articleText a) t == 1) ->
  matchCount credit terms a == len_q terms.
Proof.
  unfold matchCount, len_q. intros H.
  induction terms as [|t terms IH]; [reflexivity|].
  cbn [fold_left length]. rewrite fold_left_Qplus_shift, inject_Z_of_nat_S.
  rewrite (H t (or_introl eq_refl)), IH by (intros; apply H; now right). ring.
Qed.

(** An article in whose text every token occurs literally has a full
    count. *)
Definition literal_credit : Prop :=
  forall text term, str_includes text term = true -> credit text term == 1.

End Counts.

Lemma search_credit_literal : literal_credit search_credit.
Proof. intros text term H. unfold search_credit. now rewrite H. Qed.

Lemma analyze_credit_literal (text term : string) :
  toLowerCase term = term -> str_includes text term = true -> analyze_credit text term == 1.
Proof. intros Hl H. unfold analyze_credit. now rewrite Hl, H. Qed.

(** ** The two filters *)

(** An article whose text contains every search term passes the search
    filter. *)
Theorem search_match_all_literal (terms : list string) (a : article) :
  Forall (fun t => str_includes (articleText a) t = true) terms ->
  search_match terms a = true.
Proof.
  intros H. unfold search_match. apply Qle_bool_iff.
  rewrite (matchCount_full search_credit).
  - pose proof (len_q_nonneg terms). lra.
  - intros t Ht. apply search_credit_literal. rewrite Forall_forall in H. now apply H.
Qed.

(** C5: an empty token list passes every article through the search
    filter ([0 >= 0 * 0.3]) and none through the analyze filter
    ([0 >= Math.max(1, 0)] fails): the two thresholds differ on it. *)
Theorem empty_tokens_filters (a : article) :
  search_match [] a = true /\ analyze_match [] a = false.
Proof. split; reflexivity. Qed.

(** The search match count of an article lies between 0 and the
    number of search terms. *)
Theorem search_matchCount_bounds (terms : list string) (a : article) :
  0 <= matchCount search_credit terms a <= len_q terms.
Proof. apply matchCount_bounds, search_credit_unit. Qed.

(** The analyze filter needs a match count of at least 1. *)
Lemma analyze_match_needs_one (ks : list string) (a : article) :
  analyze_match ks a = true -> 1 <= matchCount analyze_credit ks a.
Proof.
  unfold analyze_match. rewrite Qle_bool_iff. intros H.
  eapply Qle_trans; [apply Q.le_max_l|exact H].
Qed.

(** With a single keyword, partial credits never suffice: the analyze
    filter keeps exactly the articles whose text contains the keyword. *)
Theorem analyze_match_single (k : string) (a : article) :
  analyze_match [k] a = true <-> str_includes (articleText a) (toLowerCase k) = true.
Proof.
  unfold analyze_match, matchCount, len_q. cbn [fold_left length].
  rewrite Qle_bool_iff. unfold analyze_credit.
  destruct (str_includes (articleText a) (toLowerCase k)).
  - split; [reflexivity|]. intros _. unfold Qmax, GenericMinMax.gmax. simpl. lra.
  - split; [|discriminate]. intros H. exfalso.
    pose proof (variant_credit_bounds true (articleText a) k).
    pose proof (Q.le_max_l 1 (inject_Z (Z.of_nat 1) * (2 # 10))). lra.
Qed.

(** A non-empty keyword list all of whose keywords occur in the article
    passes the analyze filter. *)
Theorem analyze_match_all_literal (ks : list string) (a : article) :
  ks <> [] ->
  Forall (fun k => toLowerCase k = k /\ str_includes (articleText a) k = true) ks ->
  analyze_match ks a = true.
Proof.
  intros Hne H. rewrite Forall_forall in H. unfold analyze_match. apply Qle_bool_iff.
  rewrite (matchCount_full analyze_credit).
  - pose proof (len_q_pos ks Hne). apply Q.max_lub; lra.
  - intros t Ht. destruct (H t Ht). now apply analyze_credit_literal.
Qed.

End Matching.
