(* ===== verification/Scoring.v ===== *)
(** * The two scoring functions of [src/quick-start.js]

    [calculateSearchScore] (lines 77-106) orders candidates in both the
    search and the analyze routes: per token, 5 points when a title word
    contains it, 3 when a tag contains it, 1 when one of the first 100
    content words contains it, 2 more when it is a whole title word and 1
    more when it is a whole tag; then the popularity boost
    [(view_count + helpful_count) / 1000].  [calculateRelevanceScore]
    (lines 62-75) is the display score of the analyze route: per keyword 3
    points for a whole title word, 2 for a whole content word among the
    first 100, 2 for a whole tag; the sum is divided by the number of
    keywords, rounded with [Math.round] and capped at 10.

    Numbers: the point sums are integers ([Z]); the search score is the
    rational [points + popularity / 1000].  [Math.round(x)] is
    [floor(x + 1/2)]; for [x = s / n] with integers [0 <= s] and
    [0 < n <= 10] the double quotient rounds to the same integer, since a
    half-integer [s / n] is exact and any other quotient lies at least
    [1/20] from the next half-integer.  An empty keyword list makes the
    division [0 / 0], i.e. [NaN]: [calculateRelevanceScore] returns
    [None] there.

    Theorems: each token adds between 0 and 12 points; the relevance
    score of a non-empty keyword list is an integer between 0 and 7, so
    the cap at 10 never applies; a whole title word outranks tag and
    content matches by a margin the popularity boost cannot close below
    2000 views; the order of the tokens does not change the search
    score. *)

From S2P Require Import Prelude JsText JsArray Articles.

Local Open Scope string_scope.

Module Scoring.
Import JsText JsArray Articles.

(** [article.title.toLowerCase().split(/\s+/)] *)
Definition titleWords (a : article) : list string := split_ws (toLowerCase (title a)).

(** [article.content.toLowerCase().split(/\s+/).slice(0, 100)] *)
Definition contentWords (a : article) : list string :=
  js_slice (split_ws (toLowerCase (content a))) 0 100.

(** [article.tags.map(tag => tag.toLowerCase())] *)
Definition tagWords (a : article) : list string := map toLowerCase (tags a).

(** [words.some(word => word.includes(term))] *)
Definition some_includes (words : list string) (term : string) : bool :=
  existsb (fun w => str_includes w term) words.

(** The body of [searchTerms.forEach] in [calculateSearchScore]. *)
Definition term_points (a : article) (term : string) : Z :=
  (if some_includes (titleWords a) term then 5 else 0)
  + (if some_includes (tagWords a) term then 3 else 0)
  + (if some_includes (contentWords a) term then 1 else 0)
  + (if arr_includes (titleWords a) term then 2 else 0)
  + (if arr_includes (tagWords a) term then 1 else 0).

Definition points (f : string -> Z) (terms : list string) : Z :=
  fold_left (fun score term => (score + f term)%Z) terms 0%Z.

(** [calculateSearchScore(searchTerms, article)] *)
Definition calculateSearchScore (terms : list string) (a : article) : Q :=
  inject_Z (points (term_points a) terms)
  + inject_Z (view_count a + helpful_count a) / inject_Z 1000.

(** The body of [keywords.forEach] in [calculateRelevanceScore]. *)
Definition keyword_points (a : article) (keyword : string) : Z :=
  (if arr_includes (titleWords a) keyword then 3 else 0)
  + (if arr_includes (contentWords a) keyword then 2 else 0)
  + (if arr_includes (tagWords a) keyword then 2 else 0).

(** [Math.round(x)]: the nearest integer, halves rounded up. *)
Definition js_round (x : Q) : Z := Qfloor (x + (1 # 2)).

(** [calculateRelevanceScore(keywords, article)]; [None] is [NaN]. *)
Definition calculateRelevanceScore (keywords : list string) (a : article) : option Z :=
  let score := points (keyword_points a) keywords in
  match length keywords with
  | O => None
  | n => Some (Z.min (js_round (inject_Z score / inject_Z (Z.of_nat n))) 10)
  end.

(** ** Properties *)

Lemma term_points_bounds (a : article) (t : string) : (0 <= term_points a t <= 12)%Z.
Proof.
  unfold term_points.
  repeat match goal with |- context [if ?b then _ else _] => destruct b end; lia.
Qed.

Lemma keyword_points_bounds (a : article) (k : string) : (0 <= keyword_points a k <= 7)%Z.
Proof.
  unfold keyword_points.
  repeat match goal with |- context [if ?b then _ else _] => destruct b end; lia.
Qed.

Lemma points_bounds (f : string -> Z) (lo hi : Z) (terms : list string) :
  (forall t, lo <= f t <= hi)%Z ->
  (lo * Z.of_nat (length terms) <= points f terms <= hi * Z.of_nat (length terms))%Z.
Proof. intros H. apply fold_left_Zplus_bounds. intros t _. apply H. Qed.

(** The search score is the popularity boost plus between 0 and 12
    points per token. *)
Theorem calculateSearchScore_bounds (terms : list string) (a : article) :
  let boost := inject_Z (popularity a) / inject_Z 1000 in
  boost <= calculateSearchScore terms a <= boost + inject_Z (12 * Z.of_nat (length terms)).
Proof.
  cbv zeta. unfold calculateSearchScore, popularity.
  pose proof (points_bounds (term_points a) 0 12 terms (term_points_bounds a)) as [Hlo Hhi].
  assert (H0 : 0 <= inject_Z (points (term_points a) terms)) by (apply inject_Z_nonneg; lia).
  assert (H12 : inject_Z (points (term_points a) terms) <= inject_Z (12 * Z.of_nat (length terms)))
    by (rewrite <- Zle_Qle; lia).
  split; lra.
Qed.

(** [Math.round] of a number between two integers stays between them. *)
Lemma js_round_bounds (x : Q) (lo hi : Z) :
  inject_Z lo <= x <= inject_Z hi -> (lo <= js_round x <= hi)%Z.
Proof.
  intros [Hlo Hhi]. unfold js_round.
  pose proof (Qfloor_le (x + (1 # 2))) as H1. pose proof (Qlt_floor (x + (1 # 2))) as H2.
  set (f := Qfloor (x + (1 # 2))) in *. split.
  - assert (inject_Z lo < inject_Z (f + 1)) by lra.
    rewrite <- Zlt_Qlt in H. lia.
  - assert (inject_Z f < inject_Z (hi + 1)) by (rewrite inject_Z_plus; change (inject_Z 1) with 1; lra).
    rewrite <- Zlt_Qlt in H. lia.
Qed.

(** A non-empty keyword list gives a relevance score, between 0 and 7. *)
Lemma relevance_score_range (ks : list string) (a : article) :
  ks <> [] -> exists r, calculateRelevanceScore ks a = Some r /\ (0 <= r <= 7)%Z.
Proof.
  intros Hne. unfold calculateRelevanceScore.
  pose proof (points_bounds (keyword_points a) 0 7 ks (keyword_points_bounds a)) as [Hlo Hhi].
  destruct (length ks) as [|n] eqn:Hlen; [destruct ks; [congruence|discriminate]|].
  set (s := points (keyword_points a) ks) in *.
  assert (Hn : 0 < inject_Z (Z.of_nat (S n))) by (apply inject_Z_pos; lia).
  assert (Hr : (0 <= js_round (inject_Z s / inject_Z (Z.of_nat (S n))) <= 7)%Z).
  { apply js_round_bounds. split.
    - apply Qle_shift_div_l; [exact Hn|]. rewrite Qmult_0_l. apply inject_Z_nonneg. lia.
    - apply Qle_shift_div_r; [exact Hn|]. rewrite <- inject_Z_mult, <- Zle_Qle. lia. }
  eexists; split; [reflexivity|]. lia.
Qed.

(** C6: the relevance score of a non-empty keyword list is a number (not
    [NaN]) between 0 and 7: the cap at 10 is never reached. *)
Theorem calculateRelevanceScore_bounds (ks : list string) (a : article) :
  ks <> [] -> exists r, calculateRelevanceScore ks a = Some r /\ (0 <= r <= 7)%Z.
Proof. apply relevance_score_range. Qed.

Lemma calculateRelevanceScore_bounds_witness :
  ["forgot"; "password"] <> [] /\
  exists r, calculateRelevanceScore ["forgot"; "password"] article_1 = Some r /\ (0 <= r <= 7)%Z.
Proof.
  split; [discriminate|]. apply calculateRelevanceScore_bounds. discriminate.
Defined.

(** An empty keyword list gives [NaN] ([0 / 0]). *)
Lemma calculateRelevanceScore_nil (a : article) : calculateRelevanceScore [] a = None.
Proof. reflexivity. Qed.

(** The points of a token that is a whole title word: at least 7. *)
Lemma term_points_title_word (a : article) (t : string) :
  In t (titleWords a) -> (7 <= term_points a t)%Z.
Proof.
  intros H. unfold term_points.
  assert (E1 : some_includes (titleWords a) t = true)
    by (apply existsb_exists; exists t; split; [exact H|apply str_includes_refl]).
  assert (E2 : arr_includes (titleWords a) t = true) by (now apply arr_includes_In).
  rewrite E1, E2.
  repeat match goal with |- context [if ?b then _ else _] => destruct b end; lia.
Qed.

(** The points of a token no title word contains: at most 5. *)
Lemma term_points_no_title (a : article) (t : string) :
  some_includes (titleWords a) t = false -> (term_points a t <= 5)%Z.
Proof.
  intros H. unfold term_points. rewrite H.
  assert (E : arr_includes (titleWords a) t = false).
  { destruct (arr_includes (titleWords a) t) eqn:E; [|reflexivity].
    apply arr_includes_In in E. rewrite <- H. symmetry.
    apply existsb_exists. exists t. split; [exact E|apply str_includes_refl]. }
  rewrite E.
  repeat match goal with |- context [if ?b then _ else _] => destruct b end; lia.
Qed.

(** C11: for a one-token query, an article with the token as a whole title word
    ranks above any article none of whose title words contains it, unless
    the other article is at least 2000 views-plus-votes more popular. *)
Theorem title_word_outranks (t : string) (a b : article) :
  In t (titleWords a) -> some_includes (titleWords b) t = false ->
  (popularity b < popularity a + 2000)%Z ->
  calculateSearchScore [t] b < calculateSearchScore [t] a.
Proof.
  intros Ha Hb Hpop. unfold calculateSearchScore, points. cbn [fold_left].
  pose proof (term_points_title_word a t Ha). pose proof (term_points_no_title b t Hb).
  unfold popularity in Hpop.
  assert (A1 : inject_Z 7 <= inject_Z (0 + term_points a t)) by (rewrite <- Zle_Qle; lia).
  assert (B1 : inject_Z (0 + term_points b t) <= inject_Z 5) by (rewrite <- Zle_Qle; lia).
  assert (P : inject_Z (view_count b + helpful_count b)
              < inject_Z (view_count a + helpful_count a) + inject_Z 2000)
    by (rewrite <- inject_Z_plus, <- Zlt_Qlt; lia).
  unfold Qdiv. change (/ inject_Z 1000) with (1 # 1000).
  change (inject_Z 7) with (7 # 1) in A1. change (inject_Z 5) with (5 # 1) in B1.
  change (inject_Z 2000) with (2000 # 1) in P. lra.
Qed.

Lemma title_word_outranks_witness :
  In "password" (titleWords article_1) /\ some_includes (titleWords article_2) "password" = false /\
  (popularity article_2 < popularity article_1 + 2000)%Z /\
  calculateSearchScore ["password"] article_2 < calculateSearchScore ["password"] article_1.
Proof.
  assert (H1 : In "password" (titleWords article_1)) by (vm_compute; tauto).
  assert (H2 : some_includes (titleWords article_2) "password" = false) by (vm_compute; reflexivity).
  assert (H3 : (popularity article_2 < popularity article_1 + 2000)%Z) by (vm_compute; reflexivity).
  split; [exact H1|split; [exact H2|split; [exact H3|]]].
  exact (title_word_outranks "password" article_1 article_2 H1 H2 H3).
Defined.

(** The order of the tokens does not change the search score. *)
Theorem calculateSearchScore_perm (terms terms' : list string) (a : article) :
  Permutation terms terms' -> calculateSearchScore terms a = calculateSearchScore terms' a.
Proof.
  intros P. unfold calculateSearchScore, points. now rewrite (fold_left_Zplus_perm _ _ _ _ P).
Qed.

Lemma calculateSearchScore_perm_witness :
  Permutation ["vpn"; "issue"] ["issue"; "vpn"] /\
  calculateSearchScore ["vpn"; "issue"] article_2 = calculateSearchScore ["issue"; "vpn"] article_2.
Proof.
  assert (P : Permutation ["vpn"; "issue"] ["issue"; "vpn"]) by apply perm_swap.
  split; [exact P|]. exact (calculateSearchScore_perm _ _ article_2 P).
Defined.

(** The relevance score counts a content match only for a whole
    content word: the keyword ["logon"] occurs in the first 100 content
    words of article [KB0012345], inside a word that ends with a double
    quote, and earns no points. *)
Theorem relevance_content_exact_word :
  keyword_points article_1 "logon" = 0%Z /\ some_includes (contentWords article_1) "logon" = true.
Proof. split; vm_compute; reflexivity. Qed.

End Scoring.
