(* ===== verification/Json.v ===== *)
(** * Responses of [src/quick-start.js]

    The values the handlers pass to [sendResponse] (lines 108-116) are
    JavaScript objects that [JSON.stringify] serialises; [json] is their
    structure (integers for the numbers the server emits).  [obj_set]
    models a property assignment on an object literal: an existing key
    keeps its position and gets the new value, a new key is appended; with
    it the spread [{...article, kb_number, display_info}] of the listing
    routes is [listed_article].  A [response] records the status, the
    headers and the body ([None] for the empty body of the CORS
    preflight); [sendResponse] and [sendError] build them, and an
    [outcome] is either a response or an uncaught exception that ends the
    process ([Crash]).

    [wf_json] says that every object of a value has distinct keys, as
    every JavaScript object has; [response_wf] says it of a response
    body.

    Lemmas: [listed_article] is the article's fields followed by
    [display_info], and its [display_info] is [kb_number - title];
    assignment ([obj_set]) and property reads ([obj_get]) keep values
    well formed. *)

From S2P Require Import Prelude JsText JsNumber Articles.

Local Open Scope string_scope.

Module Json.
Import JsText JsNumber Articles.

#[warnings="-register-all"]
Inductive json :=
| JNull
| JBool (b : bool)
| JNum (n : Z)
| JStr (s : string)
| JArr (l : list json)
| JObj (fields : list (string * json)).

(** [obj[k] = v] on an object given by its fields in order. *)
Fixpoint obj_set (fields : list (string * json)) (k : string) (v : json)
  : list (string * json) :=
  match fields with
  | [] => [(k, v)]
  | (k', v') :: rest =>
      if String.eqb k k' then (k, v) :: rest else (k', v') :: obj_set rest k v
  end.

(** The value of a property, the last binding of the key. *)
Definition obj_get (fields : list (string * json)) (k : string) : option json :=
  fold_left (fun acc kv => if String.eqb (fst kv) k then Some (snd kv) else acc) fields None.

(** An article object of [mockArticles], its keys in source order. *)
Definition article_fields (a : article) : list (string * json) :=
  [("id", JStr (id a)); ("kb_number", JStr (kb_number a)); ("title", JStr (title a));
   ("content", JStr (content a)); ("category", JStr (category a));
   ("tags", JArr (map JStr (tags a))); ("priority", JStr (priority a));
   ("department", JStr (department a)); ("view_count", JNum (view_count a));
   ("helpful_count", JNum (helpful_count a)); ("created_at", JStr (created_at a));
   ("updated_at", JStr (updated_at a))].

Definition article_json (a : article) : json := JObj (article_fields a).

(** [{...article, kb_number: article.kb_number,
      display_info: `${article.kb_number} - ${article.title}`}] *)
Definition listed_fields (a : article) : list (string * json) :=
  obj_set (obj_set (article_fields a) "kb_number" (JStr (kb_number a)))
          "display_info" (JStr (kb_number a ++ " - " ++ title a)).

Definition listed_article (a : article) : json := JObj (listed_fields a).

(** The headers of [sendResponse] (lines 109-114) and of the preflight
    answer (lines 132-136). *)
Definition cors_headers : list (string * string) :=
  [("Access-Control-Allow-Origin", "*");
   ("Access-Control-Allow-Methods", "GET, POST, PUT, DELETE, OPTIONS");
   ("Access-Control-Allow-Headers", "Content-Type, Authorization, X-Requested-With")].

Record response := mkResponse {
  status : Z;
  headers : list (string * string);
  body : option json
}.

(** [sendResponse(res, data, statusCode)] *)
Definition sendResponse (data : json) (statusCode : Z) : response :=
  {| status := statusCode;
     headers := ("Content-Type", "application/json") :: cors_headers;
     body := Some data |}.

(** [sendError(res, error, statusCode)]: [{ error }]. *)
Definition sendError (error : string) (statusCode : Z) : response :=
  sendResponse (JObj [("error", JStr error)]) statusCode.

(** What a request leads to: a response, or an exception no handler
    catches, which terminates the Node.js process. *)
Inductive outcome :=
| Reply (r : response)
| Crash (reason : string).

(** ** Values of [JSON.parse] in JavaScript expressions *)

(** Truthiness of a property read; [None] is [undefined]. *)
Definition js_truthy (v : option json) : bool :=
  match v with
  | None | Some JNull => false
  | Some (JBool b) => b
  | Some (JNum n) => negb (n =? 0)%Z
  | Some (JStr s) => negb (String.eqb s "")
  | Some (JArr _) | Some (JObj _) => true
  end.

(** Does an object have an own property [k]? *)
Definition has_key (fields : list (string * json)) (k : string) : bool :=
  existsb (fun kv => String.eqb (fst kv) k) fields.

(** [ToString(ToPrimitive(v))], the conversion of [v + ' '];
    [None] is the [TypeError] it throws.  An object parsed from JSON
    inherits [Object.prototype.valueOf] (which returns the object) and
    [toString] (which gives ["[object Object]"]); an own [toString]
    property is not callable, so the conversion throws.  An array
    converts with [join(',')], [null] elements giving the empty
    string. *)
Fixpoint js_to_string (v : json) : option string :=
  match v with
  | JNull => Some "null"
  | JBool b => Some (if b then "true" else "false")
  | JNum n => Some (number_to_string n)
  | JStr s => Some s
  | JArr l =>
      option_map (join ",")
        ((fix elems (l : list json) : option (list string) :=
            match l with
            | [] => Some []
            | x :: r =>
                match (match x with JNull => Some "" | _ => js_to_string x end), elems r with
                | Some sx, Some sr => Some (sx :: sr)
                | _, _ => None
                end
            end) l)
  | JObj fields => if has_key fields "toString" then None else Some "[object Object]"
  end.

(** Induction on [json] with hypotheses on the elements of arrays and
    the values of objects. *)
Section JsonInd.
Variable P : json -> Prop.
Hypothesis Hnull : P JNull.
Hypothesis Hbool : forall b, P (JBool b).
Hypothesis Hnum : forall n, P (JNum n).
Hypothesis Hstr : forall s, P (JStr s).
Hypothesis Harr : forall l, Forall P l -> P (JArr l).
Hypothesis Hobj : forall fields, Forall (fun kv => P (snd kv)) fields -> P (JObj fields).

Fixpoint json_ind' (v : json) : P v :=
  match v with
  | JNull => Hnull
  | JBool b => Hbool b
  | JNum n => Hnum n
  | JStr s => Hstr s
  | JArr l =>
      Harr l ((fix go (l : list json) : Forall P l :=
                 match l with
                 | [] => Forall_nil _
                 | x :: r => Forall_cons _ (json_ind' x) (go r)
                 end) l)
  | JObj fields =>
      Hobj fields ((fix go (fs : list (string * json)) : Forall (fun kv => P (snd kv)) fs :=
                      match fs with
                      | [] => Forall_nil _
                      | (k, x) :: r => Forall_cons (P := fun kv => P (snd kv)) (k, x) (json_ind' x) (go r)
                      end) fields)
  end.
End JsonInd.

(** ** Well-formed values

    A JavaScript object has at most one property of each name; a [json]
    value is well formed when every object in it has distinct keys, as
    every value a JavaScript program holds has. *)

Fixpoint distinct (ks : list string) : bool :=
  match ks with
  | [] => true
  | k :: r => negb (existsb (String.eqb k) r) && distinct r
  end.

Fixpoint wf_json (v : json) : bool :=
  match v with
  | JArr l => forallb wf_json l
  | JObj fields => distinct (map fst fields) && forallb (fun kv => wf_json (snd kv)) fields
  | _ => true
  end.

(** The body a response sends is well formed. *)
Definition response_wf (r : response) : bool :=
  match body r with Some d => wf_json d | None => true end.

(** ** Lemmas *)

Lemma listed_fields_eq (a : article) :
  listed_fields a = (article_fields a ++ [("display_info", JStr (display_info a))])%list.
Proof. reflexivity. Qed.

(** Every listed article carries its own [kb_number] and
    [display_info = kb_number - title], so the two are consistent. *)
Theorem listed_article_display (a : article) :
  obj_get (listed_fields a) "kb_number" = Some (JStr (kb_number a)) /\
  obj_get (listed_fields a) "display_info" = Some (JStr (kb_number a ++ " - " ++ title a)).
Proof. split; reflexivity. Qed.

Lemma distinct_NoDup (ks : list string) : distinct ks = true <-> List.NoDup ks.
Proof.
  induction ks as [|k r IH]; cbn [distinct]; [split; constructor|].
  rewrite andb_true_iff, negb_true_iff, IH. split.
  - intros [Hk Hr]. constructor; [|exact Hr]. intros Hin.
    assert (existsb (String.eqb k) r = true) by (apply existsb_exists; exists k; split;
      [exact Hin|apply String.eqb_refl]). congruence.
  - intros Hnd. inversion Hnd as [|? ? Hk Hr]; subst. split; [|exact Hr].
    apply not_true_iff_false. intros Hex. apply existsb_exists in Hex as [k' [Hin Hkk]].
    apply String.eqb_eq in Hkk. subst. contradiction.
Qed.

(** Assigning a key the object does not have appends it. *)
Lemma obj_set_fresh (fields : list (string * json)) (k : string) (v : json) :
  ~ In k (map fst fields) -> obj_set fields k v = (fields ++ [(k, v)])%list.
Proof.
  induction fields as [|[k' v'] r IH]; intros Hk; [reflexivity|]. cbn [map fst In] in Hk.
  cbn [obj_set app]. destruct (String.eqb_spec k k'); [subst; tauto|]. f_equal. apply IH. tauto.
Qed.

(** The keys after an assignment: unchanged when the key is present,
    the key appended otherwise. *)
Lemma obj_set_keys (fields : list (string * json)) (k : string) (v : json) :
  map fst (obj_set fields k v)
  = if existsb (String.eqb k) (map fst fields) then map fst fields
    else (map fst fields ++ [k])%list.
Proof.
  induction fields as [|[k' v'] r IH]; [reflexivity|]. cbn [obj_set map fst existsb].
  destruct (String.eqb_spec k k') as [->|Hne]; [reflexivity|]. cbn [map fst orb].
  rewrite IH. now destruct (existsb _ _).
Qed.

Lemma distinct_snoc (ks : list string) (k : string) :
  distinct ks = true -> existsb (String.eqb k) ks = false -> distinct (ks ++ [k])%list = true.
Proof.
  rewrite !distinct_NoDup. intros Hnd Hk. apply NoDup_app; [exact Hnd|repeat constructor; easy|].
  intros x Hx [->|[]].
  assert (existsb (String.eqb x) ks = true) by (apply existsb_exists; exists x; split;
    [exact Hx|apply String.eqb_refl]). congruence.
Qed.

(** Assignment keeps an object well formed. *)
Lemma wf_obj_set (fields : list (string * json)) (k : string) (v : json) :
  wf_json (JObj fields) = true -> wf_json v = true -> wf_json (JObj (obj_set fields k v)) = true.
Proof.
  cbn [wf_json]. rewrite !andb_true_iff, !forallb_forall. intros [Hd Hv] Hw. split.
  - rewrite obj_set_keys. destruct (existsb _ _) eqn:E; [exact Hd|]. now apply distinct_snoc.
  - clear Hd. induction fields as [|[k' v'] r IH]; cbn [obj_set].
    + intros x [<-|[]]. exact Hw.
    + destruct (String.eqb k k'); intros x [<-|Hx]; try exact Hw.
      * apply Hv. now right.
      * apply Hv. now left.
      * apply IH; [|exact Hx]. intros y Hy. apply Hv. now right.
Qed.

Lemma wf_strings (l : list string) : wf_json (JArr (map JStr l)) = true.
Proof. induction l as [|s l IH]; [reflexivity|]. exact IH. Qed.

Lemma wf_article_json (a : article) : wf_json (article_json a) = true.
Proof.
  pose proof (wf_strings (tags a)) as H. cbn [wf_json] in H.
  unfold article_json, article_fields. cbn [wf_json map fst snd forallb]. now rewrite H.
Qed.

Lemma wf_listed_article (a : article) : wf_json (listed_article a) = true.
Proof. apply wf_obj_set; [apply wf_obj_set; [apply wf_article_json|]|]; reflexivity. Qed.

#[export] Hint Resolve wf_strings wf_article_json wf_listed_article wf_obj_set : kb.

Lemma wf_arr_map {A} (g : A -> json) (l : list A) :
  (forall x, wf_json (g x) = true) -> wf_json (JArr (map g l)) = true.
Proof.
  intros H. cbn [wf_json]. apply forallb_forall. intros y Hy.
  apply in_map_iff in Hy as [x [<- _]]. apply H.
Qed.

(** An object literal with distinct keys and well-formed values. *)
Lemma wf_JObj (fields : list (string * json)) :
  distinct (map fst fields) = true -> Forall (fun kv => wf_json (snd kv) = true) fields ->
  wf_json (JObj fields) = true.
Proof.
  intros Hd Hv. cbn [wf_json]. rewrite Hd. apply forallb_forall. now apply Forall_forall.
Qed.

(** A property read from a well-formed object is well formed. *)
Lemma obj_get_wf (fields : list (string * json)) (k : string) (v : json) :
  wf_json (JObj fields) = true -> obj_get fields k = Some v -> wf_json v = true.
Proof.
  cbn [wf_json]. intros Hw. apply andb_true_iff in Hw as [_ Hw]. rewrite forallb_forall in Hw.
  unfold obj_get. assert (Hacc : forall w, Some w = @None json -> wf_json w = true) by discriminate.
  revert Hacc. generalize (@None json) as acc. induction fields as [|kv r IH]; intros acc Hacc.
  - cbn [fold_left]. intros H. now apply Hacc.
  - cbn [fold_left]. apply IH; [intros x Hx; apply Hw; now right|].
    intros w. destruct (String.eqb (fst kv) k); [|apply Hacc].
    injection 1 as ->. apply Hw. now left.
Qed.

#[export] Hint Resolve wf_arr_map : kb.

Lemma sendResponse_wf (data : json) (code : Z) :
  wf_json data = true -> response_wf (sendResponse data code) = true.
Proof. easy. Qed.

Lemma sendError_wf (e : string) (code : Z) : response_wf (sendError e code) = true.
Proof. reflexivity. Qed.

#[export] Hint Resolve sendResponse_wf sendError_wf : kb.

End Json.
