(* ===== verification/JsonRead.v ===== *)
(** * Reading JSON text back: a reference reader for the JSON grammar

    The server emits its responses with [JSON.stringify] ([JsonText]) and
    reads the analyze body with [JSON.parse] (line 303).  [parse_json]
    reads a JSON text given by its code units, as [JSON.parse] does
    (ECMA-404: white space, literals, numbers, strings with their
    escapes, arrays, objects), into the [json] trees of the development:
    integers only (a fraction or an exponent is rejected, the model's
    numbers being integers) and strings of code units below 256.  The
    reader is a recursive descent over the text with fuel; a result is a
    value with the rest of the text, a syntax error, or the fuel running
    out ([read_result]).  The members of an object are added with
    [obj_set], as [CreateDataProperty] adds them: a repeated key keeps
    its first position and takes the later value.

    Theorems: [3 n + 1] units of fuel are enough for a text of length [n]
    (the reader terminates); more fuel never changes a result; every
    value read is well formed ([wf_json]); and the reader reads back
    every well-formed value [JSON.stringify(v, null, 2)] writes, which
    [Router] combines with the well-formedness of the responses: the
    client decodes every response to the value the handler built. *)

From S2P Require Import Prelude JsText JsNumber Articles Json JsonText.

Local Open Scope Z_scope.

Module JsonRead.
Import JsText JsNumber Articles Json JsonText.

Inductive read_result (A : Type) :=
| Ok (a : A)
| Fail
| OutOfFuel.
Arguments Ok {A} a.
Arguments Fail {A}.
Arguments OutOfFuel {A}.

(** JSON white space: space, tab, line feed, carriage return. *)
Definition is_ws (c : Z) : bool := (c =? 32) || (c =? 9) || (c =? 10) || (c =? 13).

Fixpoint skip_ws (s : list Z) : list Z :=
  match s with
  | c :: r => if is_ws c then skip_ws r else s
  | [] => []
  end.

(** The rest of [s] after the literal [lit]. *)
Fixpoint strip_lit (lit s : list Z) : option (list Z) :=
  match lit, s with
  | [], _ => Some s
  | a :: l', b :: s' => if a =? b then strip_lit l' s' else None
  | _ :: _, [] => None
  end.

Definition is_digit (c : Z) : bool := (48 <=? c) && (c <=? 57).

Fixpoint read_int_digits (s : list Z) (acc : Z) : Z * list Z :=
  match s with
  | c :: r => if is_digit c then read_int_digits r (acc * 10 + (c - 48)) else (acc, s)
  | [] => (acc, [])
  end.

(** A number ends at a code unit that cannot continue it; a fraction
    ([.]) or an exponent ([e], [E]) is not representable. *)
Definition number_end (n : Z) (r : list Z) : read_result (json * list Z) :=
  match r with
  | d :: _ => if (d =? 46) || (d =? 101) || (d =? 69) then Fail else Ok (JNum n, r)
  | [] => Ok (JNum n, [])
  end.

(** [-? (0 | [1-9][0-9]* )] *)
Definition read_number (s : list Z) : read_result (json * list Z) :=
  let '(sign, s1) := match s with
                     | c :: r => if c =? 45 then (-1, r) else (1, s)
                     | [] => (1, s)
                     end in
  match s1 with
  | c :: r =>
      if c =? 48 then number_end 0 r
      else if is_digit c then let '(n, r') := read_int_digits s1 0 in number_end (sign * n) r'
      else Fail
  | [] => Fail
  end.

Definition hex_value (c : Z) : option Z :=
  if (48 <=? c) && (c <=? 57) then Some (c - 48)
  else if (97 <=? c) && (c <=? 102) then Some (c - 87)
  else if (65 <=? c) && (c <=? 70) then Some (c - 55)
  else None.

Definition hex4 (a b c d : Z) : option Z :=
  match hex_value a, hex_value b, hex_value c, hex_value d with
  | Some x, Some y, Some z, Some w => Some (((x * 16 + y) * 16 + z) * 16 + w)
  | _, _, _, _ => None
  end.

(** The one-letter escapes: quote, backslash, slash, [b], [f], [n], [r], [t]. *)
Definition simple_escape (e : Z) : option Z :=
  if e =? 34 then Some 34 else if e =? 92 then Some 92 else if e =? 47 then Some 47
  else if e =? 98 then Some 8 else if e =? 102 then Some 12 else if e =? 110 then Some 10
  else if e =? 114 then Some 13 else if e =? 116 then Some 9 else None.

Definition cons_char (c : Z) (res : option (string * list Z)) : option (string * list Z) :=
  if (c <? 256) then
    match res with
    | Some (t, r) => Some (String (ascii_of_nat (Z.to_nat c)) t, r)
    | None => None
    end
  else None.

(** The characters of a string up to its closing quote. *)
Fixpoint read_chars (s : list Z) : option (string * list Z) :=
  match s with
  | [] => None
  | x :: r =>
      if x =? 34 then Some (EmptyString, r)
      else if x =? 92 then
        match r with
        | [] => None
        | e :: r' =>
            if e =? 117 then
              match r' with
              | a :: b :: c :: d :: r'' =>
                  match hex4 a b c d with
                  | Some n => cons_char n (read_chars r'')
                  | None => None
                  end
              | _ => None
              end
            else match simple_escape e with
                 | Some ch => cons_char ch (read_chars r')
                 | None => None
                 end
        end
      else if x <? 32 then None
      else cons_char x (read_chars r)
  end.

Fixpoint read_value (fuel : nat) (s : list Z) : read_result (json * list Z) :=
  match fuel with
  | O => OutOfFuel
  | S f =>
      match skip_ws s with
      | [] => Fail
      | c :: r =>
          if c =? 34 then
            match read_chars r with Some (t, r') => Ok (JStr t, r') | None => Fail end
          else if c =? 91 then read_array f r
          else if c =? 123 then read_object f r
          else if c =? 110 then
            match strip_lit [117; 108; 108] r with Some r' => Ok (JNull, r') | None => Fail end
          else if c =? 116 then
            match strip_lit [114; 117; 101] r with Some r' => Ok (JBool true, r') | None => Fail end
          else if c =? 102 then
            match strip_lit [97; 108; 115; 101] r with
            | Some r' => Ok (JBool false, r') | None => Fail end
          else read_number (c :: r)
      end
  end
(** After [[]. *)
with read_array (fuel : nat) (s : list Z) : read_result (json * list Z) :=
  match fuel with
  | O => OutOfFuel
  | S f =>
      match skip_ws s with
      | c :: r => if c =? 93 then Ok (JArr [], r) else read_elems f [] s
      | [] => Fail
      end
  end
with read_elems (fuel : nat) (acc : list json) (s : list Z) : read_result (json * list Z) :=
  match fuel with
  | O => OutOfFuel
  | S f =>
      match read_value f s with
      | Ok (v, r) =>
          match skip_ws r with
          | c :: r' =>
              if c =? 44 then read_elems f (acc ++ [v]) r'
              else if c =? 93 then Ok (JArr (acc ++ [v]), r')
              else Fail
          | [] => Fail
          end
      | Fail => Fail
      | OutOfFuel => OutOfFuel
      end
  end
(** After [{]. *)
with read_object (fuel : nat) (s : list Z) : read_result (json * list Z) :=
  match fuel with
  | O => OutOfFuel
  | S f =>
      match skip_ws s with
      | c :: r => if c =? 125 then Ok (JObj [], r) else read_members f [] s
      | [] => Fail
      end
  end
with read_members (fuel : nat) (acc : list (string * json)) (s : list Z)
  : read_result (json * list Z) :=
  match fuel with
  | O => OutOfFuel
  | S f =>
      match skip_ws s with
      | c :: r =>
          if c =? 34 then
            match read_chars r with
            | Some (k, r1) =>
                match skip_ws r1 with
                | d :: r2 =>
                    if d =? 58 then
                      match read_value f r2 with
                      | Ok (v, r3) =>
                          match skip_ws r3 with
                          | e :: r4 =>
                              if e =? 44 then read_members f (obj_set acc k v) r4
                              else if e =? 125 then Ok (JObj (obj_set acc k v), r4)
                              else Fail
                          | [] => Fail
                          end
                      | Fail => Fail
                      | OutOfFuel => OutOfFuel
                      end
                    else Fail
                | [] => Fail
                end
            | None => Fail
            end
          else Fail
      | [] => Fail
      end
  end.

(** [JSON.parse(text)]: a value and nothing but white space after it. *)
Definition parse_json (s : list Z) : option json :=
  match read_value (3 * length s + 1) s with
  | Ok (v, r) => match skip_ws r with [] => Some v | _ => None end
  | _ => None
  end.

(** ** The reader consumes its input *)

Lemma skip_ws_length (s : list Z) : (length (skip_ws s) <= length s)%nat.
Proof. induction s as [|c s IH]; cbn [skip_ws]; [lia|]. destruct (is_ws c); cbn [length]; lia. Qed.

Lemma strip_lit_length (lit s r : list Z) :
  strip_lit lit s = Some r -> (length r <= length s)%nat.
Proof.
  revert s. induction lit as [|a lit IH]; intros [|b s] H; cbn [strip_lit] in H;
    try discriminate; [injection H as <-; lia|injection H as <-; cbn; lia|].
  destruct (a =? b); [apply IH in H; cbn; lia|discriminate].
Qed.

Lemma cons_char_some (c : Z) (res : option (string * list Z)) (t : string) (r : list Z) :
  cons_char c res = Some (t, r) -> exists t', res = Some (t', r).
Proof.
  unfold cons_char. destruct (c <? 256); [|discriminate].
  destruct res as [[t' r']|]; [|discriminate]. intros H; injection H as _ <-. eauto.
Qed.

Lemma read_chars_length (s : list Z) (t : string) (r : list Z) :
  read_chars s = Some (t, r) -> (length r < length s)%nat.
Proof.
  remember (length s) as n eqn:En. revert s t r En.
  induction n as [n IH] using lt_wf_ind. intros s t r En H.
  destruct s as [|x s]; cbn [read_chars] in H; [discriminate|]. cbn [length] in En.
  destruct (x =? 34); [injection H as _ <-; lia|].
  destruct (x =? 92).
  - destruct s as [|e s]; [discriminate|]. destruct (e =? 117).
    + destruct s as [|a [|b [|c [|d s]]]]; try discriminate.
      destruct (hex4 a b c d); [|discriminate]. apply cons_char_some in H as [t' H].
      apply (IH (length s)) in H; [cbn in En; lia|cbn in En; lia|reflexivity].
    + destruct (simple_escape e); [|discriminate]. apply cons_char_some in H as [t' H].
      apply (IH (length s)) in H; [cbn in En; lia|cbn in En; lia|reflexivity].
  - destruct (x <? 32); [discriminate|]. apply cons_char_some in H as [t' H].
    apply (IH (length s)) in H; [lia|lia|reflexivity].
Qed.

Lemma read_int_digits_length (s : list Z) (a n : Z) (r : list Z) :
  read_int_digits s a = (n, r) -> (length r <= length s)%nat.
Proof.
  revert a. induction s as [|c s IH]; intros a H; cbn [read_int_digits] in H.
  - injection H as _ <-. lia.
  - destruct (is_digit c); [apply IH in H; cbn; lia|injection H as _ <-; lia].
Qed.

Lemma number_end_length (n : Z) (r : list Z) (v : json) (r' : list Z) :
  number_end n r = Ok (v, r') -> r' = r.
Proof.
  unfold number_end. destruct r as [|d r]; [now intros H; injection H as _ <-|].
  destruct (_ || _); [discriminate|]. now intros H; injection H as _ <-.
Qed.

Lemma read_number_length (s : list Z) (v : json) (r : list Z) :
  read_number s = Ok (v, r) -> (length r < length s)%nat.
Proof.
  unfold read_number. intros H.
  destruct s as [|c0 s0]; [discriminate|].
  destruct (if c0 =? 45 then _ else _) as [sign s1] eqn:E.
  assert (Hs1 : (length s1 <= length (c0 :: s0))%nat)
    by (destruct (c0 =? 45); injection E as _ <-; cbn; lia).
  destruct s1 as [|c r1]; [discriminate|].
  destruct (c =? 48); [apply number_end_length in H; subst; cbn in *; lia|].
  destruct (is_digit c) eqn:Ed; [|discriminate].
  destruct (read_int_digits (c :: r1) 0) as [n r2] eqn:Er.
  apply number_end_length in H. subst r2.
  cbn [read_int_digits] in Er. rewrite Ed in Er.
  apply read_int_digits_length in Er. cbn in *. lia.
Qed.

(** What [skip_ws] leaves is a suffix. *)
Lemma skip_ws_cons (s : list Z) (c : Z) (r : list Z) :
  skip_ws s = c :: r -> (length r < length s)%nat.
Proof. intros H. pose proof (skip_ws_length s) as L. rewrite H in L. cbn in L. lia. Qed.

Ltac ok_inv :=
  match goal with
  | H : Ok _ = Ok _ |- _ => injection H as _ <-
  end.

(** Every value read consumes at least one code unit. *)
Lemma read_length (f : nat) :
  (forall s v r, read_value f s = Ok (v, r) -> (length r < length s)%nat) /\
  (forall s v r, read_array f s = Ok (v, r) -> (length r < length s)%nat) /\
  (forall acc s v r, read_elems f acc s = Ok (v, r) -> (length r < length s)%nat) /\
  (forall s v r, read_object f s = Ok (v, r) -> (length r < length s)%nat) /\
  (forall acc s v r, read_members f acc s = Ok (v, r) -> (length r < length s)%nat).
Proof.
  induction f as [|f (IHv & IHa & IHe & IHo & IHm)];
    [repeat split; intros; discriminate|].
  repeat split.
  - intros s v r H. cbn [read_value] in H. destruct (skip_ws s) as [|c r0] eqn:Ew; [discriminate|].
    apply skip_ws_cons in Ew.
    destruct (c =? 34).
    { destruct (read_chars r0) as [[t r']|] eqn:Ec; [ok_inv|discriminate].
      apply read_chars_length in Ec. lia. }
    destruct (c =? 91); [apply IHa in H; lia|].
    destruct (c =? 123); [apply IHo in H; lia|].
    destruct (c =? 110).
    { destruct (strip_lit _ r0) eqn:El; [ok_inv|discriminate]. apply strip_lit_length in El. lia. }
    destruct (c =? 116).
    { destruct (strip_lit _ r0) eqn:El; [ok_inv|discriminate]. apply strip_lit_length in El. lia. }
    destruct (c =? 102).
    { destruct (strip_lit _ r0) eqn:El; [ok_inv|discriminate]. apply strip_lit_length in El. lia. }
    apply read_number_length in H. cbn in H. lia.
  - intros s v r H. cbn [read_array] in H. destruct (skip_ws s) as [|c r0] eqn:Ew; [discriminate|].
    destruct (c =? 93); [ok_inv; apply skip_ws_cons in Ew; lia|]. now apply IHe in H.
  - intros acc s v r H. cbn [read_elems] in H.
    destruct (read_value f s) as [[v0 r0]| |] eqn:Ev; try discriminate.
    apply IHv in Ev. destruct (skip_ws r0) as [|c r1] eqn:Ew; [discriminate|].
    apply skip_ws_cons in Ew.
    destruct (c =? 44); [apply IHe in H; lia|]. destruct (c =? 93); [ok_inv; lia|discriminate].
  - intros s v r H. cbn [read_object] in H. destruct (skip_ws s) as [|c r0] eqn:Ew; [discriminate|].
    destruct (c =? 125); [ok_inv; apply skip_ws_cons in Ew; lia|]. now apply IHm in H.
  - intros acc s v r H. cbn [read_members] in H.
    destruct (skip_ws s) as [|c r0] eqn:Ew; [discriminate|]. apply skip_ws_cons in Ew.
    destruct (c =? 34); [|discriminate].
    destruct (read_chars r0) as [[k r1]|] eqn:Ec; [|discriminate]. apply read_chars_length in Ec.
    destruct (skip_ws r1) as [|d r2] eqn:Ew1; [discriminate|]. apply skip_ws_cons in Ew1.
    destruct (d =? 58); [|discriminate].
    destruct (read_value f r2) as [[v0 r3]| |] eqn:Ev; try discriminate. apply IHv in Ev.
    destruct (skip_ws r3) as [|e r4] eqn:Ew3; [discriminate|]. apply skip_ws_cons in Ew3.
    destruct (e =? 44); [apply IHm in H; lia|]. destruct (e =? 125); [ok_inv; lia|discriminate].
Qed.

(** ** The reader builds well-formed values *)

Lemma number_end_num (n : Z) (r : list Z) (v : json) (r' : list Z) :
  number_end n r = Ok (v, r') -> v = JNum n.
Proof.
  unfold number_end. destruct r as [|d r]; [now injection 1|].
  destruct (_ || _); [discriminate|now injection 1].
Qed.

Lemma read_number_wf (s : list Z) (v : json) (r : list Z) :
  read_number s = Ok (v, r) -> wf_json v = true.
Proof.
  unfold read_number. destruct (match s with c :: r => _ | [] => _ end) as [sign s1].
  destruct s1 as [|c r1]; [discriminate|].
  destruct (c =? 48); [now intros ->%number_end_num|]. destruct (is_digit c); [|discriminate].
  destruct (read_int_digits _ 0). now intros ->%number_end_num.
Qed.

Ltac ok_val :=
  match goal with
  | H : Ok _ = Ok _ |- _ => injection H as <- _
  end.

Lemma forallb_snoc_wf (acc : list json) (v : json) :
  forallb wf_json acc = true -> wf_json v = true -> forallb wf_json (acc ++ [v]) = true.
Proof. intros H1 H2. rewrite forallb_app, H1. cbn. now rewrite H2. Qed.

(** Every value read is well formed: a key read twice keeps its first
    position and takes the later value, as [JSON.parse] does. *)
Lemma read_wf (f : nat) :
  (forall s v r, read_value f s = Ok (v, r) -> wf_json v = true) /\
  (forall s v r, read_array f s = Ok (v, r) -> wf_json v = true) /\
  (forall acc s v r, read_elems f acc s = Ok (v, r) -> forallb wf_json acc = true -> wf_json v = true) /\
  (forall s v r, read_object f s = Ok (v, r) -> wf_json v = true) /\
  (forall acc s v r, read_members f acc s = Ok (v, r) -> wf_json (JObj acc) = true -> wf_json v = true).
Proof.
  induction f as [|f (IHv & IHa & IHe & IHo & IHm)]; [repeat split; intros; discriminate|].
  repeat split.
  - intros s v r H. cbn [read_value] in H. destruct (skip_ws s) as [|c r0]; [discriminate|].
    destruct (c =? 34); [destruct (read_chars r0) as [[t r']|]; [ok_val|]; easy|].
    destruct (c =? 91); [now apply IHa in H|]. destruct (c =? 123); [now apply IHo in H|].
    destruct (c =? 110); [destruct (strip_lit _ r0); [ok_val|]; easy|].
    destruct (c =? 116); [destruct (strip_lit _ r0); [ok_val|]; easy|].
    destruct (c =? 102); [destruct (strip_lit _ r0); [ok_val|]; easy|].
    now apply read_number_wf in H.
  - intros s v r H. cbn [read_array] in H. destruct (skip_ws s) as [|c r0]; [discriminate|].
    destruct (c =? 93); [now ok_val|]. now apply IHe in H.
  - intros acc s v r H Hacc. cbn [read_elems] in H.
    destruct (read_value f s) as [[v0 r0]| |] eqn:Ev; try discriminate.
    apply IHv in Ev. destruct (skip_ws r0) as [|c r1]; [discriminate|].
    destruct (c =? 44); [apply IHe in H; auto using forallb_snoc_wf|].
    destruct (c =? 93); [ok_val; cbn [wf_json]; auto using forallb_snoc_wf|discriminate].
  - intros s v r H. cbn [read_object] in H. destruct (skip_ws s) as [|c r0]; [discriminate|].
    destruct (c =? 125); [now ok_val|]. apply IHm in H; easy.
  - intros acc s v r H Hacc. cbn [read_members] in H.
    destruct (skip_ws s) as [|c r0]; [discriminate|]. destruct (c =? 34); [|discriminate].
    destruct (read_chars r0) as [[k r1]|]; [|discriminate].
    destruct (skip_ws r1) as [|d r2]; [discriminate|]. destruct (d =? 58); [|discriminate].
    destruct (read_value f r2) as [[v0 r3]| |] eqn:Ev; try discriminate. apply IHv in Ev.
    destruct (skip_ws r3) as [|e r4]; [discriminate|].
    destruct (e =? 44); [apply IHm in H; auto with kb|].
    destruct (e =? 125); [ok_val; auto with kb|discriminate].
Qed.

(** ** Fuel *)

Definition settled_result {A} (x : read_result A) : Prop := x <> OutOfFuel.

(** More fuel never changes a result that did not run out of fuel. *)
Lemma read_mono (f : nat) :
  (forall s, settled_result (read_value f s) -> read_value (S f) s = read_value f s) /\
  (forall s, settled_result (read_array f s) -> read_array (S f) s = read_array f s) /\
  (forall acc s, settled_result (read_elems f acc s) -> read_elems (S f) acc s = read_elems f acc s) /\
  (forall s, settled_result (read_object f s) -> read_object (S f) s = read_object f s) /\
  (forall acc s, settled_result (read_members f acc s) ->
     read_members (S f) acc s = read_members f acc s).
Proof.
  unfold settled_result.
  induction f as [|f (IHv & IHa & IHe & IHo & IHm)]; [repeat split; intros; now exfalso|].
  repeat split.
  - intros s H. cbn [read_value] in H |- *. destruct (skip_ws s) as [|c r]; [reflexivity|].
    destruct (c =? 34); [reflexivity|].
    destruct (c =? 91); [now apply IHa|]. destruct (c =? 123); [now apply IHo|]. reflexivity.
  - intros s H. cbn [read_array] in H |- *. destruct (skip_ws s) as [|c r]; [reflexivity|].
    destruct (c =? 93); [reflexivity|]. now apply IHe.
  - intros acc s H. cbn [read_elems] in H |- *.
    destruct (read_value f s) as [[v r]| |] eqn:Ev; [|now rewrite IHv, Ev by congruence|easy].
    rewrite IHv, Ev by congruence.
    destruct (skip_ws r) as [|c r']; [reflexivity|].
    destruct (c =? 44); [now apply IHe|reflexivity].
  - intros s H. cbn [read_object] in H |- *. destruct (skip_ws s) as [|c r]; [reflexivity|].
    destruct (c =? 125); [reflexivity|]. now apply IHm.
  - intros acc s H. cbn [read_members] in H |- *. destruct (skip_ws s) as [|c r]; [reflexivity|].
    destruct (c =? 34); [|reflexivity]. destruct (read_chars r) as [[k r1]|]; [|reflexivity].
    destruct (skip_ws r1) as [|d r2]; [reflexivity|]. destruct (d =? 58); [|reflexivity].
    destruct (read_value f r2) as [[v r3]| |] eqn:Ev; [|now rewrite IHv, Ev by congruence|easy].
    rewrite IHv, Ev by congruence.
    destruct (skip_ws r3) as [|e r4]; [reflexivity|].
    destruct (e =? 44); [now apply IHm|reflexivity].
Qed.

Lemma fuel_mono {A} (F : nat -> read_result A) :
  (forall f, settled_result (F f) -> F (S f) = F f) ->
  forall f g, (f <= g)%nat -> settled_result (F f) -> F g = F f.
Proof.
  intros Hstep f g Hle. induction Hle as [|g Hle IH]; intros H; [reflexivity|].
  rewrite Hstep; [now apply IH|]. now rewrite IH.
Qed.

Lemma read_value_mono (f g : nat) (s : list Z) :
  (f <= g)%nat -> settled_result (read_value f s) -> read_value g s = read_value f s.
Proof. apply (fuel_mono (fun f => read_value f s)). intros k. apply (read_mono k). Qed.

Lemma read_elems_mono (f g : nat) (acc : list json) (s : list Z) :
  (f <= g)%nat -> settled_result (read_elems f acc s) -> read_elems g acc s = read_elems f acc s.
Proof. apply (fuel_mono (fun f => read_elems f acc s)). intros k. apply (read_mono k). Qed.

Lemma read_members_mono (f g : nat) (acc : list (string * json)) (s : list Z) :
  (f <= g)%nat -> settled_result (read_members f acc s) ->
  read_members g acc s = read_members f acc s.
Proof. apply (fuel_mono (fun f => read_members f acc s)). intros k. apply (read_mono k). Qed.

(** [3 n + 1] units of fuel are enough for a text of length [n]. *)
Lemma read_enough (f : nat) :
  (forall s, (3 * length s + 1 <= f)%nat -> settled_result (read_value f s)) /\
  (forall s, (3 * length s + 3 <= f)%nat -> settled_result (read_array f s)) /\
  (forall acc s, (3 * length s + 2 <= f)%nat -> settled_result (read_elems f acc s)) /\
  (forall s, (3 * length s + 3 <= f)%nat -> settled_result (read_object f s)) /\
  (forall acc s, (3 * length s + 2 <= f)%nat -> settled_result (read_members f acc s)).
Proof.
  unfold settled_result.
  induction f as [|f (IHv & IHa & IHe & IHo & IHm)]; [repeat split; intros; lia|].
  pose proof (read_length f) as (Lv & _ & _ & _ & _).
  repeat split.
  - intros s Hf. cbn [read_value]. destruct (skip_ws s) as [|c r] eqn:Ew; [discriminate|].
    apply skip_ws_cons in Ew.
    destruct (c =? 34); [destruct (read_chars r) as [[? ?]|]; discriminate|].
    destruct (c =? 91); [apply IHa; lia|]. destruct (c =? 123); [apply IHo; lia|].
    destruct (c =? 110); [destruct (strip_lit _ r); discriminate|].
    destruct (c =? 116); [destruct (strip_lit _ r); discriminate|].
    destruct (c =? 102); [destruct (strip_lit _ r); discriminate|].
    unfold read_number.
    repeat match goal with
    | |- context [match ?x with _ => _ end] => destruct x
    | |- context [if ?b then _ else _] => destruct b
    end; unfold number_end;
    repeat match goal with
    | |- context [match ?x with _ => _ end] => destruct x
    | |- context [if ?b then _ else _] => destruct b
    end; discriminate.
  - intros s Hf. cbn [read_array]. destruct (skip_ws s) as [|c r]; [discriminate|].
    destruct (c =? 93); [discriminate|]. apply IHe. lia.
  - intros acc s Hf. cbn [read_elems].
    destruct (read_value f s) as [[v r]| |] eqn:Ev; [|discriminate|].
    + apply Lv in Ev. destruct (skip_ws r) as [|c r'] eqn:Ew; [discriminate|].
      apply skip_ws_cons in Ew.
      destruct (c =? 44); [apply IHe; lia|]. destruct (c =? 93); discriminate.
    + exfalso. apply (IHv s); [lia|exact Ev].
  - intros s Hf. cbn [read_object]. destruct (skip_ws s) as [|c r]; [discriminate|].
    destruct (c =? 125); [discriminate|]. apply IHm. lia.
  - intros acc s Hf. cbn [read_members].
    destruct (skip_ws s) as [|c r] eqn:Ew; [discriminate|]. apply skip_ws_cons in Ew.
    destruct (c =? 34); [|discriminate].
    destruct (read_chars r) as [[k r1]|] eqn:Ec; [|discriminate]. apply read_chars_length in Ec.
    destruct (skip_ws r1) as [|d r2] eqn:Ew1; [discriminate|]. apply skip_ws_cons in Ew1.
    destruct (d =? 58); [|discriminate].
    destruct (read_value f r2) as [[v r3]| |] eqn:Ev; [|discriminate|].
    + apply Lv in Ev. destruct (skip_ws r3) as [|e r4] eqn:Ew3; [discriminate|].
      apply skip_ws_cons in Ew3.
      destruct (e =? 44); [apply IHm; lia|]. destruct (e =? 125); discriminate.
    + exfalso. apply (IHv r2); [lia|exact Ev].
Qed.

(** ** Reading back what [JSON.stringify] writes: numbers *)

(** The text after a value: nothing that would continue a number. *)
Definition stops (rest : list Z) : bool :=
  match rest with
  | [] => true
  | d :: _ => negb (is_digit d || (d =? 46) || (d =? 101) || (d =? 69))
  end.

Lemma dec_digit_code (c : ascii) :
  is_dec_digit c = true ->
  is_digit (Z.of_nat (nat_of_ascii c)) = true /\
  digit_value c = Some (Z.of_nat (nat_of_ascii c) - 48).
Proof. destruct c as [[] [] [] [] [] [] [] []]; intros H; try discriminate H; split; reflexivity. Qed.

Definition acc_value (acc : option Z) : Z := match acc with Some v => v | None => 0 end.

(** The JSON digit loop reads what [read_digits] of [parseInt] reads. *)
Lemma read_int_digits_codes (s : string) (rest : list Z) (acc : option Z) :
  all_chars is_dec_digit s = true -> stops rest = true ->
  read_int_digits (codes s ++ rest) (acc_value acc) = (acc_value (read_digits 10 s acc), rest).
Proof.
  revert acc. induction s as [|c s IH]; intros acc Hd Hr.
  - destruct rest as [|d rest]; [reflexivity|]. cbn [codes list_ascii_of_string map app read_int_digits].
    cbn [stops] in Hr. destruct (is_digit d); [discriminate|reflexivity].
  - cbn [all_chars] in Hd. apply andb_true_iff in Hd as [Hc Hd].
    destruct (dec_digit_code c Hc) as [Hdig Hv].
    rewrite codes_String. cbn [app read_int_digits read_digits]. rewrite Hdig, Hv.
    replace (Z.of_nat (nat_of_ascii c) - 48 <? 10) with true
      by (unfold is_digit in Hdig; symmetry; apply Z.ltb_lt; lia).
    exact (IH (Some (acc_value acc * 10 + (Z.of_nat (nat_of_ascii c) - 48))) Hd Hr).
Qed.

Lemma number_end_stops (n : Z) (rest : list Z) :
  stops rest = true -> number_end n rest = Ok (JNum n, rest).
Proof.
  destruct rest as [|d rest]; [reflexivity|]. cbn [stops number_end]. intros H.
  destruct (is_digit d), (d =? 46), (d =? 101), (d =? 69); easy.
Qed.

(** The digits of a positive number read as that number. *)
Lemma read_number_digits (m sign : Z) (rest : list Z) :
  (1 <= m)%Z -> stops rest = true ->
  let d := digits_from (S (Z.to_nat (Z.log2 (Z.abs m)))) (Z.abs m) in
  (let '(n, r') := read_int_digits (codes d ++ rest) 0 in number_end (sign * n) r')
  = Ok (JNum (sign * m), rest).
Proof.
  intros Hm Hr. cbv zeta. destruct (abs_digits m) as [Hrd [Hd _]].
  pose proof (read_int_digits_codes _ rest None Hd Hr) as E. cbn [acc_value] in E.
  rewrite E, Hrd. cbn [acc_value]. rewrite Z.abs_eq by lia. now apply number_end_stops.
Qed.

Lemma read_number_string (n : Z) (rest : list Z) :
  stops rest = true -> read_number (codes (number_to_string n) ++ rest) = Ok (JNum n, rest).
Proof.
  intros Hr. destruct (Z.eq_dec n 0) as [->|Hn].
  { cbn. now apply number_end_stops. }
  set (m := Z.abs n). assert (Hm : (1 <= m)%Z) by (unfold m; lia).
  destruct (digits_from_head (Z.to_nat (Z.log2 (Z.abs m))) m) as [c [r [Hcr [Hc H48]]]].
  { split; [exact Hm|]. pose proof (digits_fuel_enough m). rewrite Z.abs_eq in * by lia. exact H. }
  destruct (dec_digit_code c Hc) as [Hdig _].
  assert (Hread := read_number_digits m (if (n <? 0) then -1 else 1) rest Hm Hr). cbv zeta in Hread.
  replace (Z.abs m) with m in Hread, Hcr by (unfold m; lia).
  unfold number_to_string, read_number. fold m. rewrite Hcr in Hread |- *.
  assert (H45 : (Z.of_nat (nat_of_ascii c) =? 45) = false)
    by (apply Z.eqb_neq; unfold is_digit in Hdig; lia).
  assert (H48' : (Z.of_nat (nat_of_ascii c) =? 48) = false) by (apply Z.eqb_neq; exact H48).
  destruct (Z.ltb_spec n 0).
  - change (codes (String "-" (String c r))) with (45 :: codes (String c r)).
    rewrite codes_String in Hread |- *. cbn [app] in Hread |- *.
    change (45 =? 45) with true. cbv iota beta. rewrite H48', Hdig. rewrite Hread. f_equal. f_equal. f_equal. unfold m. lia.
  - rewrite codes_String in Hread |- *. cbn [app] in Hread |- *. rewrite H45, H48', Hdig.
    rewrite Hread. do 3 f_equal. unfold m. lia.
Qed.

(** ** Reading back: strings *)

(** Every escape [QuoteJSONString] writes reads back as its code unit. *)
Lemma read_escape (c : ascii) (X : list Z) :
  read_chars (codes (escape c) ++ X) = cons_char (Z.of_nat (nat_of_ascii c)) (read_chars X).
Proof. destruct c as [[] [] [] [] [] [] [] []]; reflexivity. Qed.

Lemma cons_char_code (c : ascii) (t : string) (r : list Z) :
  cons_char (Z.of_nat (nat_of_ascii c)) (Some (t, r)) = Some (String c t, r).
Proof.
  unfold cons_char. pose proof (nat_ascii_bounded c).
  replace (Z.of_nat (nat_of_ascii c) <? 256) with true by (symmetry; apply Z.ltb_lt; lia).
  rewrite Nat2Z.id, ascii_nat_embedding. reflexivity.
Qed.

Lemma read_quote_body (s : string) (rest : list Z) :
  read_chars (codes (quote_body s ++ dq) ++ rest) = Some (s, rest).
Proof.
  induction s as [|c s IH]; [reflexivity|].
  cbn [quote_body]. rewrite <- str_app_assoc, codes_app, <- app_assoc, read_escape, IH.
  apply cons_char_code.
Qed.

(** ** Reading back: white space and the shape of the text *)

Definition ws_text (w : string) : bool := forallb is_ws (codes w).

Lemma skip_ws_app (w : string) (s : list Z) :
  ws_text w = true -> skip_ws (codes w ++ s) = skip_ws s.
Proof.
  unfold ws_text. induction (codes w) as [|c l IH]; intros H; [reflexivity|].
  cbn [forallb] in H. apply andb_true_iff in H as [Hc H]. cbn [app skip_ws]. rewrite Hc.
  now apply IH.
Qed.

Lemma read_value_ws (f : nat) (w : string) (s : list Z) :
  ws_text w = true -> read_value f (codes w ++ s) = read_value f s.
Proof. intros H. destruct f; [reflexivity|]. cbn [read_value]. now rewrite skip_ws_app. Qed.

Lemma ws_text_app (w1 w2 : string) :
  ws_text w1 = true -> ws_text w2 = true -> ws_text (w1 ++ w2) = true.
Proof. unfold ws_text. rewrite codes_app, forallb_app. intros -> ->. reflexivity. Qed.

Lemma ws_text_nl : ws_text nl = true.
Proof. reflexivity. Qed.

Lemma ws_text_spaces : ws_text "  " = true.
Proof. reflexivity. Qed.

#[local] Hint Resolve ws_text_app ws_text_nl ws_text_spaces : kb.

(** A written value starts with a code unit that is not white space and
    does not close an array or object. *)
Lemma stringify_head (ind : string) (v : json) :
  exists c t, codes (stringify_at ind v) = c :: t /\ is_ws c = false /\ c <> 93 /\ c <> 125.
Proof.
  destruct v as [|b|n|s|l|fs]; cbn [stringify_at].
  - now exists 110, (codes "ull").
  - destruct b; [now exists 116, (codes "rue")|now exists 102, (codes "alse")].
  - unfold number_to_string. destruct (abs_digits n) as [_ [_ [c [r [Hcr Hc]]]]].
    destruct (dec_digit_code c Hc) as [Hd _]. unfold is_digit in Hd.
    destruct (n <? 0); rewrite Hcr.
    + now exists 45, (codes (String c r)).
    + exists (Z.of_nat (nat_of_ascii c)), (codes r). split; [reflexivity|].
      unfold is_ws. repeat split; [|lia|lia].
      repeat rewrite orb_false_iff; repeat split; apply Z.eqb_neq; lia.
  - now exists 34, (codes (quote_body s ++ dq)).
  - destruct l; [now exists 91, [93]|]. eexists 91, _. split; [reflexivity|easy].
  - destruct fs; [now exists 123, [125]|]. eexists 123, _. split; [reflexivity|easy].
Qed.

Definition reads_back (v : json) : Prop :=
  forall ind rest, ws_text ind = true -> stops rest = true ->
  exists f, read_value f (codes (stringify_at ind v) ++ rest) = Ok (v, rest).

Lemma stops_ws (w : string) (rest : list Z) :
  ws_text w = true -> w <> EmptyString -> stops (codes w ++ rest) = true.
Proof.
  destruct w as [|c w]; [congruence|]. unfold ws_text. rewrite codes_String.
  cbn [forallb app stops]. intros H _. apply andb_true_iff in H as [H _].
  unfold is_ws in H. unfold is_digit.
  repeat (apply orb_true_iff in H as [H|H]); apply Z.eqb_eq in H; rewrite H; reflexivity.
Qed.

(** ** Reading back: arrays and objects *)

Lemma ok_settled {A} (a : A) : settled_result (Ok a).
Proof. discriminate. Qed.

(** One element followed by a comma: the loop goes on after it. *)
Lemma read_elems_next (f : nat) (acc : list json) (X R R' : list Z) (v : json) :
  read_value f X = Ok (v, R) -> skip_ws R = 44 :: R' ->
  read_elems (S f) acc X = read_elems f (acc ++ [v]) R'.
Proof. intros E H. cbn [read_elems]. now rewrite E, H. Qed.

Lemma read_elems_last (f : nat) (acc : list json) (X R R' : list Z) (v : json) :
  read_value f X = Ok (v, R) -> skip_ws R = 93 :: R' ->
  read_elems (S f) acc X = Ok (JArr (acc ++ [v]), R').
Proof. intros E H. cbn [read_elems]. now rewrite E, H. Qed.

(** The elements of a non-empty array, one per line. *)
Lemma read_elems_join (ind' W : string) (xs : list json) (x : json) (acc : list json)
    (T rest : list Z) :
  ws_text ind' = true -> ws_text W = true -> Forall reads_back (x :: xs) ->
  skip_ws T = 93 :: rest -> stops T = true ->
  exists f, read_elems f acc
              (codes (W ++ join ("," ++ nl ++ ind') (map (stringify_at ind') (x :: xs))) ++ T)
            = Ok (JArr (acc ++ x :: xs), rest).
Proof.
  revert x acc W. induction xs as [|y xs IH]; intros x acc W Hi Hw Hall HT HsT;
    inversion Hall as [|? ? Hx Hxs]; subst.
  - destruct (Hx ind' T Hi HsT) as [f1 E1]. exists (S f1).
    cbn [map join]. rewrite codes_app, <- app_assoc.
    apply (read_elems_last _ _ _ T); [now rewrite read_value_ws|exact HT].
  - set (sep := ("," ++ nl ++ ind')%string).
    set (J := join sep (map (stringify_at ind') (y :: xs))).
    change (join sep (map (stringify_at ind') (x :: y :: xs)))
      with (stringify_at ind' x ++ sep ++ J)%string.
    destruct (Hx ind' (codes (sep ++ J) ++ T) Hi eq_refl) as [f1 E1].
    destruct (IH y (acc ++ [x]) (nl ++ ind')%string ltac:(assumption) ltac:(auto with kb) Hxs HT HsT)
      as [f2 E2].
    change (join ("," ++ nl ++ ind') (map (stringify_at ind') (y :: xs))) with J in E2.
    exists (S (Nat.max f1 f2)).
    assert (Hin : codes (W ++ stringify_at ind' x ++ sep ++ J) ++ T
                  = codes W ++ (codes (stringify_at ind' x) ++ (codes (sep ++ J) ++ T)))
      by (rewrite !codes_app, <- !app_assoc; reflexivity).
    rewrite Hin.
    rewrite (read_elems_next _ _ _ (codes (sep ++ J) ++ T) (codes ((nl ++ ind') ++ J) ++ T) x).
    + rewrite (read_elems_mono f2) by (lia || (rewrite E2; apply ok_settled)).
      rewrite <- app_assoc in E2. exact E2.
    + rewrite read_value_ws by exact Hw.
      rewrite (read_value_mono f1) by (lia || (rewrite E1; apply ok_settled)). exact E1.
    + unfold sep. rewrite !codes_app, <- !app_assoc. reflexivity.
Qed.

Lemma skip_ws_nonws (c : Z) (s : list Z) : is_ws c = false -> skip_ws (c :: s) = c :: s.
Proof. intros H. cbn [skip_ws]. now rewrite H. Qed.

(** One member: its key, the colon and its value. *)
Lemma read_member_step (f : nat) (acc : list (string * json)) (W k : string) (Rest : list Z) :
  ws_text W = true ->
  read_members (S f) acc (codes W ++ (codes (quote k) ++ codes ": " ++ Rest))
  = match read_value f (codes " " ++ Rest) with
    | Ok (v, r3) =>
        match skip_ws r3 with
        | e :: r4 =>
            if e =? 44 then read_members f (obj_set acc k v) r4
            else if e =? 125 then Ok (JObj (obj_set acc k v), r4)
            else Fail
        | [] => Fail
        end
    | Fail => Fail
    | OutOfFuel => OutOfFuel
    end.
Proof.
  intros Hw. cbn [read_members]. rewrite skip_ws_app by exact Hw. unfold quote.
  change (codes (dq ++ quote_body k ++ dq) ++ codes ": " ++ Rest)
    with (34 :: (codes (quote_body k ++ dq) ++ codes ": " ++ Rest)).
  rewrite skip_ws_nonws by reflexivity. cbv iota. change (34 =? 34) with true. cbv iota.
  rewrite read_quote_body. reflexivity.
Qed.

Definition member_text (ind' : string) (kv : string * json) : string :=
  quote (fst kv) ++ ": " ++ stringify_at ind' (snd kv).

(** The members of a non-empty object, one per line. *)
Lemma read_members_join (ind' W : string) (fs : list (string * json)) (kv : string * json)
    (acc : list (string * json)) (T rest : list Z) :
  ws_text ind' = true -> ws_text W = true -> Forall (fun kv => reads_back (snd kv)) (kv :: fs) ->
  List.NoDup (map fst (acc ++ kv :: fs)) ->
  skip_ws T = 125 :: rest -> stops T = true ->
  exists f, read_members f acc
              (codes (W ++ join ("," ++ nl ++ ind') (map (member_text ind') (kv :: fs))) ++ T)
            = Ok (JObj (acc ++ kv :: fs), rest).
Proof.
  revert kv acc W. induction fs as [|kv2 fs IH]; intros [k v] acc W Hi Hw Hall Hnd HT HsT;
    inversion Hall as [|? ? Hx Hxs]; subst; cbn [snd] in Hx;
    (assert (Hk : ~ In k (map fst acc))
       by (rewrite map_app in Hnd; intros Hin; apply (NoDup_remove_2 _ _ _ Hnd), in_or_app; now left)).
  - destruct (Hx ind' T Hi HsT) as [f1 E1]. exists (S f1).
    cbn [map join]. unfold member_text. cbn [fst snd].
    replace (codes (W ++ quote k ++ ": " ++ stringify_at ind' v) ++ T)
      with (codes W ++ (codes (quote k) ++ codes ": " ++ (codes (stringify_at ind' v) ++ T)))
      by (rewrite !codes_app, <- !app_assoc; reflexivity).
    rewrite (read_member_step f1 acc W k _ Hw).
    rewrite read_value_ws by reflexivity. rewrite E1, HT, obj_set_fresh by exact Hk. reflexivity.
  - set (sep := ("," ++ nl ++ ind')%string).
    set (J := join sep (map (member_text ind') (kv2 :: fs))).
    change (join sep (map (member_text ind') ((k, v) :: kv2 :: fs)))
      with (member_text ind' (k, v) ++ sep ++ J)%string.
    destruct (Hx ind' (codes (sep ++ J) ++ T) Hi eq_refl) as [f1 E1].
    destruct (IH kv2 (acc ++ [(k, v)]) (nl ++ ind')%string ltac:(assumption) ltac:(auto with kb)
                 Hxs ltac:(now rewrite <- app_assoc) HT HsT) as [f2 E2].
    change (join ("," ++ nl ++ ind') (map (member_text ind') (kv2 :: fs))) with J in E2.
    exists (S (Nat.max f1 f2)). unfold member_text. cbn [fst snd].
    replace (codes (W ++ (quote k ++ ": " ++ stringify_at ind' v) ++ sep ++ J) ++ T)
      with (codes W ++ (codes (quote k) ++ codes ": " ++
                        (codes (stringify_at ind' v) ++ (codes (sep ++ J) ++ T))))
      by (rewrite !codes_app, <- !app_assoc; reflexivity).
    rewrite (read_member_step _ acc W k _ Hw).
    rewrite read_value_ws by reflexivity.
    rewrite (read_value_mono f1) by (lia || (rewrite E1; apply ok_settled)). rewrite E1.
    replace (skip_ws (codes (sep ++ J) ++ T)) with (44 :: codes ((nl ++ ind') ++ J) ++ T)
      by (unfold sep; rewrite !codes_app, <- !app_assoc; reflexivity).
    change (44 =? 44) with true. cbv iota. rewrite obj_set_fresh by exact Hk.
    rewrite (read_members_mono f2) by (lia || (rewrite E2; apply ok_settled)).
    rewrite <- app_assoc in E2. exact E2.
Qed.

(** ** The round trip *)

Lemma join_cons (sep a : string) (l : list string) :
  join sep (a :: l) = (a ++ match l with [] => "" | _ => sep ++ join sep l end)%string.
Proof. destruct l; cbn [join]; [now rewrite str_app_nil_r|reflexivity]. Qed.

(** The first code unit of a non-empty array or object body. *)
Lemma join_head {A} (ind' : string) (g : A -> string) (x : A) (xs : list A) (rest : list Z) :
  (exists c t, codes (g x) = c :: t /\ is_ws c = false /\ c <> 93 /\ c <> 125) ->
  exists c t, codes (join ("," ++ nl ++ ind') (map g (x :: xs))) ++ rest = c :: t /\
              is_ws c = false /\ c <> 93 /\ c <> 125.
Proof.
  intros [c [t [Hct Hc]]]. cbn [map]. rewrite join_cons, codes_app, Hct.
  exists c. eexists. split; [reflexivity|exact Hc].
Qed.

Lemma number_head (n : Z) :
  exists c t, codes (number_to_string n) = c :: t /\ (c = 45 \/ is_digit c = true).
Proof.
  unfold number_to_string. destruct (abs_digits n) as [_ [_ [c [r [Hcr Hc]]]]].
  destruct (dec_digit_code c Hc) as [Hd _].
  destruct (n <? 0); rewrite Hcr; [exists 45, (codes (String c r)); split; [reflexivity|now left]|].
  exists (Z.of_nat (nat_of_ascii c)), (codes r). split; [reflexivity|now right].
Qed.

Lemma closing_text (ind : string) (close : Z) (rest : list Z) :
  ws_text ind = true -> is_ws close = false ->
  skip_ws (codes (nl ++ ind) ++ close :: rest) = close :: rest /\
  stops (codes (nl ++ ind) ++ close :: rest) = true.
Proof.
  intros Hi Hc. split.
  - rewrite skip_ws_app by auto with kb. now apply skip_ws_nonws.
  - apply stops_ws; [auto with kb|discriminate].
Qed.

(** Every value [JSON.stringify] writes reads back, at any indentation,
    whatever follows it that cannot continue a number. *)
Lemma Forall_wf {A} (g : A -> json) (l : list A) :
  Forall (fun x => wf_json (g x) = true -> reads_back (g x)) l ->
  forallb (fun x => wf_json (g x)) l = true -> Forall (fun x => reads_back (g x)) l.
Proof.
  intros H Hw. rewrite forallb_forall in Hw. rewrite Forall_forall in *.
  intros x Hx. now apply H, Hw.
Qed.

Lemma stringify_reads_back (v : json) : wf_json v = true -> reads_back v.
Proof.
  induction v as [|b|n|s|l Hl|fs Hfs] using json_ind'; intros Hwf ind rest Hi Hr; cbn [wf_json] in Hwf.
  - exists 1%nat. reflexivity.
  - exists 1%nat. destruct b; reflexivity.
  - exists 1%nat. cbn [stringify_at]. destruct (number_head n) as [c [t [Hct Hc]]].
    assert (Hc' : c = 45 \/ 48 <= c <= 57)
      by (destruct Hc as [->|Hc]; [now left|right; unfold is_digit in Hc;
          apply andb_true_iff in Hc as [H1 H2]; apply Z.leb_le in H1, H2; lia]).
    cbn [read_value]. rewrite Hct. cbn [app].
    rewrite skip_ws_nonws by (unfold is_ws; repeat (apply orb_false_iff; split); apply Z.eqb_neq; lia).
    assert (Hne : forall k, k = 34 \/ k = 91 \/ k = 123 \/ k = 110 \/ k = 116 \/ k = 102 -> (c =? k) = false)
      by (intros k Hk; apply Z.eqb_neq; lia).
    rewrite !Hne by tauto. change (c :: t ++ rest) with ((c :: t) ++ rest). rewrite <- Hct.
    now apply read_number_string.
  - exists 1%nat. cbn [stringify_at]. unfold quote.
    change (codes (dq ++ quote_body s ++ dq) ++ rest) with (34 :: (codes (quote_body s ++ dq) ++ rest)).
    cbn [read_value]. rewrite skip_ws_nonws by reflexivity. cbv iota. change (34 =? 34) with true.
    cbv iota. now rewrite read_quote_body.
  - destruct l as [|x xs]; [exists 2%nat; reflexivity|].
    set (ind' := (ind ++ "  ")%string). assert (Hi' : ws_text ind' = true) by (unfold ind'; auto with kb).
    set (T := codes (nl ++ ind) ++ 93 :: rest).
    destruct (closing_text ind 93 rest Hi eq_refl) as [HT HsT]. fold T in HT, HsT.
    destruct (read_elems_join ind' (nl ++ ind') xs x [] T rest Hi' ltac:(auto with kb)
                (Forall_wf (fun x => x) _ Hl Hwf) HT HsT)
      as [f E].
    destruct (join_head ind' (stringify_at ind') x xs T (stringify_head ind' x)) as [c [t [Hct [Hw [H93 _]]]]].
    exists (S (S f)). cbn [stringify_at]. fold ind'.
    replace (codes ("[" ++ nl ++ ind' ++ join ("," ++ nl ++ ind') (map (stringify_at ind') (x :: xs))
                    ++ nl ++ ind ++ "]") ++ rest)
      with (91 :: (codes ((nl ++ ind') ++ join ("," ++ nl ++ ind') (map (stringify_at ind') (x :: xs))) ++ T))
      by (unfold T; rewrite !codes_app, <- !app_assoc; reflexivity).
    cbn [read_value]. rewrite skip_ws_nonws by reflexivity. cbv iota. change (91 =? 34) with false.
    change (91 =? 91) with true. cbv iota. cbn [read_array].
    rewrite codes_app, <- app_assoc, skip_ws_app, Hct by auto with kb.
    rewrite skip_ws_nonws by exact Hw. apply Z.eqb_neq in H93. rewrite H93.
    rewrite <- Hct, app_assoc, <- codes_app. exact E.
  - destruct fs as [|kv fs]; [exists 2%nat; reflexivity|].
    set (ind' := (ind ++ "  ")%string). assert (Hi' : ws_text ind' = true) by (unfold ind'; auto with kb).
    set (T := codes (nl ++ ind) ++ 125 :: rest).
    destruct (closing_text ind 125 rest Hi eq_refl) as [HT HsT]. fold T in HT, HsT.
    apply andb_true_iff in Hwf as [Hd Hwf]. apply distinct_NoDup in Hd.
    destruct (read_members_join ind' (nl ++ ind') fs kv [] T rest Hi' ltac:(auto with kb)
                (Forall_wf snd _ Hfs Hwf) Hd HT HsT)
      as [f E].
    exists (S (S f)). cbn [stringify_at]. fold ind'.
    change (map (fun kv0 => (quote (fst kv0) ++ ": " ++ stringify_at ind' (snd kv0))%string) (kv :: fs))
      with (map (member_text ind') (kv :: fs)).
    replace (codes ("{" ++ nl ++ ind' ++ join ("," ++ nl ++ ind') (map (member_text ind') (kv :: fs))
                    ++ nl ++ ind ++ "}") ++ rest)
      with (123 :: (codes ((nl ++ ind') ++ join ("," ++ nl ++ ind') (map (member_text ind') (kv :: fs))) ++ T))
      by (unfold T; rewrite !codes_app, <- !app_assoc; reflexivity).
    cbn [read_value]. rewrite skip_ws_nonws by reflexivity. cbv iota.
    change (123 =? 34) with false. change (123 =? 91) with false. change (123 =? 123) with true.
    cbv iota. cbn [read_object].
    destruct (join_head ind' (member_text ind') kv fs T) as [c [t [Hct [Hw [_ H125]]]]].
    { eexists 34, _. split; [reflexivity|easy]. }
    rewrite codes_app, <- app_assoc, skip_ws_app, Hct by auto with kb.
    rewrite skip_ws_nonws by exact Hw. apply Z.eqb_neq in H125. rewrite H125.
    rewrite <- Hct, app_assoc, <- codes_app. exact E.
Qed.

(** A result that did not run out of fuel is the result at the bound. *)
Lemma read_value_at_bound (f : nat) (s : list Z) :
  settled_result (read_value f s) -> read_value f s = read_value (3 * length s + 1) s.
Proof.
  intros H. destruct (Nat.le_ge_cases f (3 * length s + 1)) as [Hle|Hle].
  - symmetry. now apply read_value_mono.
  - apply read_value_mono; [exact Hle|]. apply (read_enough _). lia.
Qed.

(** The text of a well-formed value reads back within the fuel bound. *)
Lemma stringify_parses (v : json) :
  wf_json v = true ->
  read_value (3 * length (codes (stringify v)) + 1) (codes (stringify v)) = Ok (v, []).
Proof.
  intros Hv. destruct (stringify_reads_back v Hv ""%string [] eq_refl eq_refl) as [f E].
  rewrite app_nil_r in E. unfold stringify. rewrite <- (read_value_at_bound f) by (rewrite E; apply ok_settled).
  exact E.
Qed.

(** ** Properties *)

(** Termination of the reader: with [3 n + 1] units of fuel or more on a
    text of [n] code units, [read_value] never runs out of fuel, and its
    result does not depend on the fuel. *)
Theorem read_value_terminates (f : nat) (s : list Z) :
  (3 * length s + 1 <= f)%nat ->
  read_value f s <> OutOfFuel /\ read_value f s = read_value (3 * length s + 1) s.
Proof.
  intros Hf. assert (H : settled_result (read_value f s)) by (apply (read_enough f); exact Hf).
  split; [exact H|]. now apply read_value_at_bound.
Qed.

(** What [JSON.stringify(data, null, 2)] writes, [JSON.parse] reads
    back as the same value, for every value with distinct keys in its
    objects. *)
Theorem parse_json_stringify (v : json) : wf_json v = true -> parse_json (codes (stringify v)) = Some v.
Proof. intros Hv. unfold parse_json. now rewrite stringify_parses by exact Hv. Qed.

(** [JSON.parse] only builds well-formed values: an object read from
    a text that repeats a key has that key once, at its first position,
    with the last value. *)
Theorem parse_json_wf (s : list Z) (v : json) : parse_json s = Some v -> wf_json v = true.
Proof.
  unfold parse_json. destruct (read_value _ s) as [[v0 r]| |] eqn:E; try discriminate.
  destruct (skip_ws r); [|discriminate]. injection 1 as <-. exact (proj1 (read_wf _) _ _ _ E).
Qed.

End JsonRead.
