(* ===== verification/Ranking.v ===== *)
(** * The relevance engine as an interface between components

    The search route (lines 192-230) and the analyze route (lines 311-346)
    run the same pipeline with different parts: tokenize the text, keep
    the articles that pass a match filter, and sort them by
    [calculateSearchScore], largest first.  [Ranker] is what the routes
    rely on: a tokenizer, a filter and a score, with two laws (the tokens
    are lower-case words longer than two code units; an article containing
    every token of a non-empty token list passes the filter).  [rank] is
    the pipeline, and its theorems are proved once against the interface:
    the ranked list is the stable sort of the candidates by decreasing
    score, holds exactly the articles of the collection that pass the
    filter, and holds every article containing all the tokens.
    [search_ranker] and [analyze_ranker] discharge the laws with the
    lemmas of [Keywords] and [Matching]. *)

From S2P Require Import Prelude JsText JsArray JsSort Articles Keywords Matching Scoring.

Module Ranking.
Import JsText JsSort Articles Keywords Matching Scoring.

Record Ranker := {
  rk_tokens : string -> list string;
  rk_keep : list string -> article -> bool;
  rk_score : list string -> article -> Q;
  rk_tokens_wf : forall text, Forall (fun t => is_token t = true) (rk_tokens text);
  rk_keep_literal : forall text a,
    rk_tokens text <> [] ->
    Forall (fun t => str_includes (articleText a) t = true) (rk_tokens text) ->
    rk_keep (rk_tokens text) a = true
}.

(** [articles.filter(keep).sort((a, b) => score(b) - score(a))] *)
Definition rank (R : Ranker) (ts : list string) (arts : list article) : list article :=
  js_sort (by_key_desc (rk_score R ts)) (filter (rk_keep R ts) arts).

Section Pipeline.
Variable R : Ranker.

(** The ranked list is the stable sort of the candidates. *)
Lemma rank_spec (ts : list string) (arts : list article) :
  sort_spec (rk_score R ts) (filter (rk_keep R ts) arts) (rank R ts arts).
Proof. apply js_sort_spec. Qed.

(** The ranked list holds exactly the articles that pass the filter. *)
Theorem rank_In (ts : list string) (arts : list article) (a : article) :
  In a (rank R ts arts) <-> In a arts /\ rk_keep R ts a = true.
Proof.
  unfold rank. rewrite <- filter_In. split; apply Permutation_in;
    [|symmetry]; apply js_sort_perm.
Qed.

Lemma rank_sorted (ts : list string) (arts : list article) :
  Sorted (desc (rk_score R ts)) (rank R ts arts).
Proof. apply rank_spec. Qed.

Lemma rank_length (ts : list string) (arts : list article) :
  (length (rank R ts arts) <= length arts)%nat.
Proof.
  unfold rank. rewrite (Permutation_length (js_sort_perm _ _)). apply filter_length_le.
Qed.

(** C3: for any ranker meeting the interface, an article of the
    collection whose text contains every token of a non-empty token list
    is ranked. *)
Theorem rank_finds_literal (text : string) (arts : list article) (a : article) :
  In a arts -> rk_tokens R text <> [] ->
  Forall (fun t => str_includes (articleText a) t = true) (rk_tokens R text) ->
  In a (rank R (rk_tokens R text) arts).
Proof.
  intros Ha Hne Hall. apply rank_In. split; [exact Ha|]. now apply rk_keep_literal.
Qed.

End Pipeline.

(** ** The two instances *)

Lemma search_keep_literal (text : string) (a : article) :
  searchTerms text <> [] ->
  Forall (fun t => str_includes (articleText a) t = true) (searchTerms text) ->
  search_match (searchTerms text) a = true.
Proof. intros _. apply search_match_all_literal. Qed.

Lemma analyze_keep_literal (text : string) (a : article) :
  extractKeywords text <> [] ->
  Forall (fun t => str_includes (articleText a) t = true) (extractKeywords text) ->
  analyze_match (extractKeywords text) a = true.
Proof.
  intros Hne Hall. apply analyze_match_all_literal; [exact Hne|].
  pose proof (extractKeywords_lower text) as Hl.
  rewrite Forall_forall in *. intros k Hk. split; [now apply Hl|now apply Hall].
Qed.

Lemma extractKeywords_tokens (text : string) :
  Forall (fun t => is_token t = true) (extractKeywords text).
Proof. apply Forall_forall. intros k. apply extractKeywords_token. Qed.

(** The search route: [searchTerms], the 30% filter, the search score. *)
Definition search_ranker : Ranker := {|
  rk_tokens := searchTerms;
  rk_keep := search_match;
  rk_score := calculateSearchScore;
  rk_tokens_wf := searchTerms_tokens;
  rk_keep_literal := search_keep_literal
|}.

(** The analyze route: [extractKeywords], the 20%-or-one filter, the
    search score. *)
Definition analyze_ranker : Ranker := {|
  rk_tokens := extractKeywords;
  rk_keep := analyze_match;
  rk_score := calculateSearchScore;
  rk_tokens_wf := extractKeywords_tokens;
  rk_keep_literal := analyze_keep_literal
|}.

Lemma rank_finds_literal_witness :
  In article_1 mockArticles /\ rk_tokens search_ranker "password" <> [] /\
  Forall (fun t => str_includes (articleText article_1) t = true) (rk_tokens search_ranker "password") /\
  In article_1 (rank search_ranker (rk_tokens search_ranker "password") mockArticles).
Proof.
  assert (H1 : In article_1 mockArticles) by (left; reflexivity).
  assert (H2 : rk_tokens search_ranker "password" <> []) by (vm_compute; discriminate).
  assert (H3 : Forall (fun t => str_includes (articleText article_1) t = true)
                 (rk_tokens search_ranker "password"))
    by (apply Forall_forallb; vm_compute; reflexivity).
  split; [exact H1|split; [exact H2|split; [exact H3|]]].
  exact (rank_finds_literal search_ranker "password" mockArticles article_1 H1 H2 H3).
Defined.

End Ranking.
