(* ===== verification/Search.v ===== *)
(** * The search route [GET /api/knowledge/search] (lines 177-256)

    The parsed query object of [url.parse(req.url, true)] is a map from
    parameter names to values ([gmap string qvalue]); a repeated parameter
    has an array value.  [handle_search] reads [q], [category], [page] and
    [limit] as the code does ([parseInt(...) || default], [Math.min] with
    50), answers 400 when [q] is missing or empty, tokenizes [q], ranks the
    collection with the search ranker, filters by category ignoring case,
    slices the page and answers with the listed articles, the total before
    pagination, the page, the page size and the elapsed time (an input:
    [Date.now() - startTime]).  Calling [toLowerCase] on an array throws a
    [TypeError] that no handler catches: with a repeated [q], or with a
    repeated [category] when some article was ranked, the request ends in
    [Crash].

    Theorems: the error branches; soundness (every listed article belongs
    to the collection, passes the search filter and has the requested
    category) and the size of a page; that the category filter ignores
    case; that [page=0] is served as [page=1]; the crashes on repeated
    parameters; and the behaviour of a negative [limit]. *)

From S2P Require Import Prelude JsText JsArray JsNumber JsSort Articles Keywords Matching Scoring Json Ranking.
From stdpp Require Import gmap strings.

Local Open Scope string_scope.

Module Search.
Import JsText JsArray JsNumber JsSort Articles Keywords Matching Scoring Json Ranking.

Definition required_message : string :=
  "Query parameter " ++ dq ++ "q" ++ dq ++ " is required".

(** [parseInt(parsedUrl.query.page) || 1] *)
Definition read_page (query : gmap string qvalue) : Z :=
  or_default (parseInt (to_js_string (query !! "page"))) 1.

(** [Math.min(parseInt(parsedUrl.query.limit) || 10, 50)] *)
Definition read_limit (query : gmap string qvalue) : Z :=
  Z.min (or_default (parseInt (to_js_string (query !! "limit"))) 10) 50.

(** [if (category) results = results.filter(article =>
      article.category.toLowerCase() === category.toLowerCase())];
    [None] when [category.toLowerCase] throws (an array value, evaluated
    as soon as the callback runs on a first article). *)
Definition category_filter (cat : option qvalue) (results : list article)
  : option (list article) :=
  match cat with
  | None => Some results
  | Some (QStr c) =>
      if String.eqb c "" then Some results
      else Some (List.filter
                   (fun a => String.eqb (toLowerCase (category a)) (toLowerCase c)) results)
  | Some (QArr _) =>
      match results with
      | [] => Some []
      | _ :: _ => None
      end
  end.

(** The response object of lines 245-255. *)
Definition search_body (results : list article) (page limit elapsed : Z) : json :=
  let startIndex := ((page - 1) * limit)%Z in
  let endIndex := (startIndex + limit)%Z in
  JObj [("articles", JArr (map listed_article (js_slice results startIndex endIndex)));
        ("total", JNum (Z.of_nat (length results)));
        ("page", JNum page);
        ("per_page", JNum limit);
        ("search_time", JNum elapsed)].

(** The whole route, on the collection [arts]. *)
Definition handle_search (arts : list article) (query : gmap string qvalue) (elapsed : Z)
  : outcome :=
  let page := read_page query in
  let limit := read_limit query in
  match query !! "q" with
  | None => Reply (sendError required_message 400)
  | Some (QArr _) => Crash "TypeError: query.toLowerCase is not a function"
  | Some (QStr q) =>
      if String.eqb q "" then Reply (sendError required_message 400)
      else
        let results := rank search_ranker (searchTerms q) arts in
        match category_filter (query !! "category") results with
        | None => Crash "TypeError: category.toLowerCase is not a function"
        | Some results' => Reply (sendResponse (search_body results' page limit elapsed) 200)
        end
  end.

(** ** The contract of the route *)

(** Does an article have the requested category?  An absent, empty or
    repeated [category] selects every article. *)
Definition category_ok (cat : option qvalue) (a : article) : bool :=
  match cat with
  | Some (QStr c) => String.eqb c "" || String.eqb (toLowerCase (category a)) (toLowerCase c)
  | _ => true
  end.

(** What the route promises: the articles of the collection that pass the
    search filter and have the category, ordered by decreasing search
    score. *)
Definition search_spec (arts : list article) (ts : list string) (cat : option qvalue)
    (res : list article) : Prop :=
  Permutation res (List.filter (fun a => search_match ts a && category_ok cat a) arts) /\
  Sorted (JsSort.desc (calculateSearchScore ts)) res.

Lemma category_filter_spec (cat : option qvalue) (results res : list article) :
  category_filter cat results = Some res -> res = List.filter (category_ok cat) results.
Proof.
  destruct cat as [[c|l]|]; simpl; intros H.
  - destruct (String.eqb c "") eqn:E; injection H as <-.
    + symmetry. apply filter_all_true. intros a _. simpl. now rewrite E.
    + apply filter_ext_In. intros a _. simpl. now rewrite E.
  - destruct results; [now injection H as <-|discriminate].
  - injection H as <-. symmetry. now apply filter_all_true.
Qed.

(** C1: refinement: when [q] is a non-empty string and the request does
    not crash, the route answers 200 with a page of a list meeting
    [search_spec]: the articles of the collection passing the search filter
    and the category, ordered by decreasing search score. *)
Theorem handle_search_spec (arts : list article) (query : gmap string qvalue) (t : Z)
    (q : string) (r : response) :
  query !! "q" = Some (QStr q) -> q <> "" -> handle_search arts query t = Reply r ->
  exists res, r = sendResponse (search_body res (read_page query) (read_limit query) t) 200
              /\ search_spec arts (searchTerms q) (query !! "category") res.
Proof.
  intros Hq Hne H. unfold handle_search in H. rewrite Hq in H.
  destruct (String.eqb_spec q "") as [->|_]; [congruence|].
  destruct (category_filter _ _) as [res|] eqn:E; [|discriminate].
  injection H as <-. exists res. split; [reflexivity|].
  apply category_filter_spec in E. subst res. split.
  - rewrite <- filter_filter_andb. apply Permutation_filter, js_sort_perm.
  - apply Sorted_filter; [apply JsSort.desc_trans|apply (rank_sorted search_ranker)].
Qed.

Lemma handle_search_spec_witness :
  ({[ "q" := QStr "password" ]} : gmap string qvalue) !! "q" = Some (QStr "password") /\
  "password" <> "" /\
  handle_search mockArticles {[ "q" := QStr "password" ]} 0
    = Reply (sendResponse (search_body [article_1; article_3] 1 10 0) 200) /\
  exists res, sendResponse (search_body [article_1; article_3] 1 10 0) 200
    = sendResponse (search_body res (read_page {[ "q" := QStr "password" ]})
                      (read_limit {[ "q" := QStr "password" ]}) 0) 200
    /\ search_spec mockArticles (searchTerms "password")
         (({[ "q" := QStr "password" ]} : gmap string qvalue) !! "category") res.
Proof.
  assert (H1 : ({[ "q" := QStr "password" ]} : gmap string qvalue) !! "q" = Some (QStr "password"))
    by reflexivity.
  assert (H2 : "password" <> "") by discriminate.
  assert (H3 : handle_search mockArticles {[ "q" := QStr "password" ]} 0
               = Reply (sendResponse (search_body [article_1; article_3] 1 10 0) 200))
    by (vm_compute; reflexivity).
  split; [exact H1|split; [exact H2|split; [exact H3|]]].
  exact (handle_search_spec mockArticles _ 0 "password" _ H1 H2 H3).
Defined.

(** The search example of the specification: [q=password] lists
    [KB0012345] then [KB0034567] (the only articles containing the word),
    with total 2, page 1 and 10 per page. *)
Example search_password_example :
  handle_search mockArticles {[ "q" := QStr "password" ]} 0
  = Reply (sendResponse (search_body [article_1; article_3] 1 10 0) 200).
Proof. vm_compute. reflexivity. Qed.

(** ** Well-formed responses *)

Lemma search_body_wf (res : list article) (page limit t : Z) :
  wf_json (search_body res page limit t) = true.
Proof. apply wf_JObj; [reflexivity|]. repeat constructor; cbn [snd]; auto with kb. Qed.

Lemma handle_search_wf (arts : list article) (query : gmap string qvalue) (t : Z) (r : response) :
  handle_search arts query t = Reply r -> response_wf r = true.
Proof.
  unfold handle_search. intros H. repeat case_match; try discriminate H;
    injection H as <-; auto using search_body_wf with kb.
Qed.

(** ** Pagination *)

(** C14: with [page >= 1] and [limit > 0] the page is the [limit] results
    after the first [(page - 1) * limit]: at most [limit <= 50]. *)
Theorem search_body_page (res : list article) (page limit t : Z) :
  (1 <= page)%Z -> (0 < limit)%Z ->
  search_body res page limit t =
  JObj [("articles", JArr (map listed_article
                            (firstn (Z.to_nat limit) (skipn (Z.to_nat ((page - 1) * limit)) res))));
        ("total", JNum (Z.of_nat (length res))); ("page", JNum page);
        ("per_page", JNum limit); ("search_time", JNum t)].
Proof.
  intros Hp Hl. unfold search_body. rewrite js_slice_nonneg by nia.
  replace (Z.to_nat ((page - 1) * limit + limit) - Z.to_nat ((page - 1) * limit))%nat
    with (Z.to_nat limit) by nia.
  reflexivity.
Qed.

Lemma search_body_page_witness :
  (1 <= 2)%Z /\ (0 < 1)%Z /\
  search_body [article_1; article_3] 2 1 0 =
  JObj [("articles", JArr (map listed_article
                            (firstn (Z.to_nat 1) (skipn (Z.to_nat ((2 - 1) * 1)) [article_1; article_3]))));
        ("total", JNum (Z.of_nat (length [article_1; article_3]))); ("page", JNum 2);
        ("per_page", JNum 1); ("search_time", JNum 0)].
Proof.
  assert (H1 : (1 <= 2)%Z) by lia. assert (H2 : (0 < 1)%Z) by lia.
  split; [exact H1|split; [exact H2|]]. exact (search_body_page _ 2 1 0 H1 H2).
Defined.

(** The page size is capped at 50 and is never 0. *)
Lemma read_limit_bounds (query : gmap string qvalue) :
  (read_limit query <= 50)%Z /\ read_limit query <> 0%Z.
Proof.
  unfold read_limit.
  pose proof (or_default_nonzero (parseInt (to_js_string (query !! "limit"))) 10 ltac:(lia)).
  lia.
Qed.

(** C10: a negative [limit] is not rejected: on page 1 it drops the last
    [-limit] results and lists all the others, however many, so more than
    50 articles can be listed. *)
Theorem search_body_negative_limit (res : list article) (k t : Z) :
  (0 < k)%Z ->
  search_body res 1 (- k) t =
  JObj [("articles", JArr (map listed_article (firstn (length res - Z.to_nat k) res)));
        ("total", JNum (Z.of_nat (length res))); ("page", JNum 1);
        ("per_page", JNum (- k)); ("search_time", JNum t)].
Proof.
  intros Hk. unfold search_body. replace ((1 - 1) * - k)%Z with 0%Z by lia.
  rewrite Z.add_0_l, js_slice_neg_end by exact Hk. reflexivity.
Qed.

Lemma search_body_negative_limit_witness :
  (0 < 1)%Z /\
  search_body [article_1; article_3] 1 (- 1) 0 =
  JObj [("articles", JArr (map listed_article
                            (firstn (length [article_1; article_3] - Z.to_nat 1) [article_1; article_3])));
        ("total", JNum (Z.of_nat (length [article_1; article_3]))); ("page", JNum 1);
        ("per_page", JNum (- 1)); ("search_time", JNum 0)].
Proof.
  assert (H : (0 < 1)%Z) by lia. split; [exact H|]. exact (search_body_negative_limit _ 1 0 H).
Defined.

(** The route reads only [q], [category], [page] and [limit]. *)
Lemma handle_search_ext (arts : list article) (m1 m2 : gmap string qvalue) (t : Z) :
  m1 !! "q" = m2 !! "q" -> read_page m1 = read_page m2 -> read_limit m1 = read_limit m2 ->
  (forall rs, category_filter (m1 !! "category") rs = category_filter (m2 !! "category") rs) ->
  handle_search arts m1 t = handle_search arts m2 t.
Proof.
  intros Hq Hp Hl Hc. unfold handle_search. rewrite Hq, Hp, Hl.
  destruct (m2 !! "q") as [[q|l]|]; try reflexivity.
  destruct (String.eqb q ""); [reflexivity|]. now rewrite Hc.
Qed.

Lemma category_filter_lower (c1 c2 : string) (rs : list article) :
  toLowerCase c1 = toLowerCase c2 ->
  category_filter (Some (QStr c1)) rs = category_filter (Some (QStr c2)) rs.
Proof.
  intros H. simpl. rewrite H.
  destruct (String.eqb_spec c1 ""), (String.eqb_spec c2 ""); try reflexivity; exfalso.
  - subst c1. symmetry in H. apply (proj1 (toLowerCase_empty c2)) in H. congruence.
  - subst c2. apply (proj1 (toLowerCase_empty c1)) in H. congruence.
Qed.

(** C8: the category filter ignores case: [category=email] and
    [category=Email] give the same answer. *)
Theorem search_category_case_insensitive (arts : list article) (m : gmap string qvalue)
    (t : Z) (c1 c2 : string) :
  toLowerCase c1 = toLowerCase c2 ->
  handle_search arts (<["category" := QStr c1]> m) t
  = handle_search arts (<["category" := QStr c2]> m) t.
Proof.
  intros H. apply handle_search_ext; unfold read_page, read_limit;
    rewrite ?(lookup_insert_ne m "category" "q"), ?(lookup_insert_ne m "category" "page"),
      ?(lookup_insert_ne m "category" "limit") by discriminate; try reflexivity.
  intros rs. rewrite !lookup_insert_eq. now apply category_filter_lower.
Qed.

Lemma search_category_case_insensitive_witness :
  toLowerCase "email" = toLowerCase "Email" /\
  handle_search mockArticles (<["category" := QStr "email"]> {[ "q" := QStr "password" ]}) 0
  = handle_search mockArticles (<["category" := QStr "Email"]> {[ "q" := QStr "password" ]}) 0.
Proof.
  assert (H : toLowerCase "email" = toLowerCase "Email") by reflexivity.
  split; [exact H|]. exact (search_category_case_insensitive _ _ 0 _ _ H).
Defined.

(** C9: [page=0] is served as [page=1], since [parseInt("0") || 1] is 1. *)
Theorem search_page_zero (arts : list article) (m : gmap string qvalue) (t : Z) :
  handle_search arts (<["page" := QStr "0"]> m) t = handle_search arts (<["page" := QStr "1"]> m) t.
Proof.
  apply handle_search_ext; unfold read_page, read_limit;
    rewrite ?(lookup_insert_ne m "page" "q"), ?(lookup_insert_ne m "page" "category"),
      ?(lookup_insert_ne m "page" "limit") by discriminate; try reflexivity.
  now rewrite !lookup_insert_eq.
Qed.

(** C4: the request ends in an uncaught exception exactly when [q] is
    repeated, or when [q] is a non-empty string, [category] is repeated
    and some article is ranked. *)
Theorem handle_search_crash (arts : list article) (query : gmap string qvalue) (t : Z) :
  (exists reason, handle_search arts query t = Crash reason) <->
  (exists l, query !! "q" = Some (QArr l)) \/
  (exists q l, query !! "q" = Some (QStr q) /\ q <> "" /\ query !! "category" = Some (QArr l)
               /\ rank search_ranker (searchTerms q) arts <> []).
Proof.
  unfold handle_search. destruct (query !! "q") as [[q|l]|].
  - destruct (String.eqb_spec q "") as [->|Hne].
    + split; [intros [? H]; discriminate|].
      intros [[l H]|[q [l [H [Hne _]]]]]; [discriminate|congruence].
    + destruct (query !! "category") as [[c|l]|] eqn:Ec; simpl.
      * split; [intros [? H]; now destruct (String.eqb c "")|].
        intros [[l H]|[q' [l [_ [_ [H _]]]]]]; discriminate.
      * destruct (rank search_ranker (searchTerms q) arts) eqn:Er.
        -- split; [intros [? H]; discriminate|].
           intros [[l' H]|[q' [l' [Hq [_ [_ Hr]]]]]]; [discriminate|].
           injection Hq as <-. congruence.
        -- split; [intros _; right; exists q, l; repeat split; congruence|eauto].
      * split; [intros [? H]; discriminate|].
        intros [[l H]|[q' [l [_ [_ [H _]]]]]]; discriminate.
  - split; [intros _; left; now exists l|eauto].
  - split; [intros [? H]; discriminate|]. intros [[l H]|[q [l [H _]]]]; discriminate.
Qed.

End Search.
