(* ===== verification/Endpoints.v ===== *)
(** * The listing routes of [src/quick-start.js]

    Three routes read the collection without searching it:
    - [GET /api/knowledge/popular] (lines 258-272): a copy of the
      collection sorted by [view_count + helpful_count], largest first,
      cut to [Math.min(parseInt(limit) || 10, 20)] articles with [slice];
      [handle_popular];
    - [GET /api/knowledge/categories] (lines 274-277): the distinct
      categories in order of first occurrence, [[...new Set(...)]];
      [handle_categories];
    - [GET /api/knowledge/article/:id] (lines 280-293): the path is matched
      against [/^\/api\/knowledge\/article\/(.+)$/] ([match_article_path])
      and the article with that id is found with [find]
      ([handle_article]); none gives a 404.

    Theorems: the popular list is a prefix of the stable sort by
    decreasing popularity (so it is sorted), of length [min(limit, n)]
    for a positive limit, while a negative limit drops the last articles
    instead and escapes the cap of 20; the categories are distinct and are
    exactly the categories of the articles; the article path matcher reads
    back every id it can match, with unique ids every article is served
    by its own id, and an unknown id gets 404. *)

From S2P Require Import Prelude JsText JsArray JsNumber JsSort Articles Json.
From stdpp Require Import gmap strings.

Local Open Scope string_scope.

Module Endpoints.
Import JsText JsArray JsNumber JsSort Articles Json.

(** ** Popular articles *)

(** [Math.min(parseInt(parsedUrl.query.limit) || 10, 20)] *)
Definition read_popular_limit (query : gmap string qvalue) : Z :=
  Z.min (or_default (parseInt (to_js_string (query !! "limit"))) 10) 20.

(** The key of the comparator
    [(a, b) => (b.view_count + b.helpful_count) - (a.view_count + a.helpful_count)]. *)
Definition by_popularity (a : article) : Q := inject_Z (popularity a).

(** [[...mockArticles].sort(...).slice(0, popularLimit)] *)
Definition popular_articles (arts : list article) (popularLimit : Z) : list article :=
  js_slice (js_sort (by_key_desc by_popularity) arts) 0 popularLimit.

Definition handle_popular (arts : list article) (query : gmap string qvalue) : response :=
  let popularArticles := popular_articles arts (read_popular_limit query) in
  sendResponse (JObj [("articles", JArr (map listed_article popularArticles));
                      ("total", JNum (Z.of_nat (length popularArticles)))]) 200.

(** ** Categories *)

(** [[...new Set(mockArticles.map(a => a.category))]] *)
Definition categories (arts : list article) : list string := set_dedup (map category arts).

Definition handle_categories (arts : list article) : response :=
  sendResponse (JObj [("categories", JArr (map JStr (categories arts)))]) 200.

(** ** Article by id *)

Definition article_path_prefix : string := "/api/knowledge/article/".

(** [p] followed by the rest, or [None] when [s] does not start with [p]. *)
Fixpoint strip_prefix (p s : string) : option string :=
  match p, s with
  | EmptyString, _ => Some s
  | String c p', String d s' => if ascii_dec c d then strip_prefix p' s' else None
  | String _ _, EmptyString => None
  end.

(** The code units the regular-expression [.] does not match
    ([\n] and [\r]; U+2028 and U+2029 are outside Latin-1). *)
Definition is_line_terminator (c : ascii) : bool :=
  Ascii.eqb c (ascii_of_nat 10) || Ascii.eqb c (ascii_of_nat 13).

(** [pathname.match(/^\/api\/knowledge\/article\/(.+)$/)], giving the
    capture [articleMatch[1]]: the rest of the path after the prefix, at
    least one code unit and no line terminator. *)
Definition match_article_path (pathname : string) : option string :=
  match strip_prefix article_path_prefix pathname with
  | Some (String c r) =>
      if all_chars (fun c => negb (is_line_terminator c)) (String c r)
      then Some (String c r) else None
  | _ => None
  end.

(** [mockArticles.find(a => a.id === id)] *)
Definition find_article (arts : list article) (i : string) : option article :=
  List.find (fun a => String.eqb (id a) i) arts.

Definition handle_article (arts : list article) (i : string) : response :=
  match find_article arts i with
  | None => sendError "Article not found" 404
  | Some a => sendResponse (article_json a) 200
  end.

(** ** Lemmas *)

Lemma popular_articles_prefix (arts : list article) (l : Z) :
  (0 <= l)%Z ->
  popular_articles arts l = firstn (Z.to_nat l) (js_sort (by_key_desc by_popularity) arts).
Proof.
  intros Hl. unfold popular_articles. rewrite js_slice_nonneg by lia.
  rewrite Nat.sub_0_r. reflexivity.
Qed.

Lemma read_popular_limit_le (query : gmap string qvalue) : (read_popular_limit query <= 20)%Z.
Proof. unfold read_popular_limit. lia. Qed.

Lemma strip_prefix_app (p s : string) : strip_prefix p (p ++ s) = Some s.
Proof.
  induction p as [|c p IH]; [destruct s; reflexivity|].
  simpl.
  destruct (ascii_dec c c) as [_|n]; [exact IH|now destruct n].
Qed.

Lemma find_article_id (arts : list article) (a : article) :
  List.NoDup (map id arts) -> In a arts -> find_article arts (id a) = Some a.
Proof.
  induction arts as [|b arts IH]; intros Hnd Ha; [destruct Ha|].
  simpl in Hnd. apply NoDup_cons_iff in Hnd as [Hb Hnd]. cbn [find_article List.find].
  destruct Ha as [<-|Ha]; [now rewrite String.eqb_refl|].
  destruct (String.eqb_spec (id b) (id a)) as [E|_]; [|now apply IH].
  exfalso. apply Hb. rewrite E. now apply in_map.
Qed.

Lemma find_article_None (arts : list article) (i : string) :
  find_article arts i = None <-> Forall (fun a => id a <> i) arts.
Proof.
  unfold find_article. rewrite List.Forall_forall. split.
  - intros H a Ha E. apply (find_none _ _ H) in Ha. apply String.eqb_neq in Ha. congruence.
  - intros H. destruct (List.find _ arts) as [a|] eqn:E; [|reflexivity].
    apply find_some in E as [Ha Ei]. apply String.eqb_eq in Ei. now destruct (H a Ha).
Qed.

(** The three routes send well-formed objects. *)
Lemma handle_popular_wf (arts : list article) (q : gmap string qvalue) :
  response_wf (handle_popular arts q) = true.
Proof. apply sendResponse_wf, wf_JObj; [reflexivity|]. repeat constructor; cbn [snd]; auto with kb. Qed.

Lemma handle_categories_wf (arts : list article) : response_wf (handle_categories arts) = true.
Proof. apply sendResponse_wf, wf_JObj; [reflexivity|]. repeat constructor; cbn [snd]; auto with kb. Qed.

Lemma handle_article_wf (arts : list article) (i : string) : response_wf (handle_article arts i) = true.
Proof. unfold handle_article. destruct (find_article arts i); auto with kb. Qed.

(** ** Properties *)

(** The popular list is sorted by decreasing popularity, whatever the
    limit. *)
Theorem popular_sorted (arts : list article) (l : Z) :
  Sorted (desc by_popularity) (popular_articles arts l).
Proof.
  unfold popular_articles, js_slice.
  apply Sorted_firstn. pose proof (js_sort_spec by_popularity arts) as [_ [Hs _]].
  revert Hs. generalize (js_sort (by_key_desc by_popularity) arts).
  intros m Hs. generalize (Z.to_nat (relative_index 0 (Z.of_nat (length m)))) as n.
  induction m as [|x m IH]; intros [|n]; simpl; auto.
  apply IH. now apply Sorted_inv in Hs as [Hs _].
Qed.

(** C28: With a positive limit the route lists the [min(limit, n)] most
    popular articles, in the order of the stable sort. *)
Theorem popular_spec (arts : list article) (query : gmap string qvalue) :
  (0 < read_popular_limit query)%Z ->
  handle_popular arts query
  = sendResponse (JObj [("articles", JArr (map listed_article
                           (firstn (Z.to_nat (read_popular_limit query))
                              (js_sort (by_key_desc by_popularity) arts))));
                        ("total", JNum (Z.of_nat (Nat.min (Z.to_nat (read_popular_limit query))
                                                    (length arts))))]) 200.
Proof.
  intros Hl. unfold handle_popular. rewrite popular_articles_prefix by lia.
  rewrite length_firstn, (Permutation_length (js_sort_perm _ _)). reflexivity.
Qed.

(** [slice(0, -k)] drops the last [k] articles of the sorted list. *)
Lemma popular_articles_neg (arts : list article) (k : Z) :
  (0 < k)%Z ->
  popular_articles arts (- k)
  = firstn (length arts - Z.to_nat k) (js_sort (by_key_desc by_popularity) arts).
Proof.
  intros Hk. unfold popular_articles. rewrite js_slice_neg_end by exact Hk.
  now rewrite (Permutation_length (js_sort_perm _ _)).
Qed.

(** A [limit] parameter written [-k] is read as [-k]. *)
Lemma read_popular_limit_neg (q : gmap string qvalue) (k : Z) :
  (0 < k)%Z -> read_popular_limit (<["limit" := QStr (number_to_string (- k))]> q) = (- k)%Z.
Proof.
  intros Hk. unfold read_popular_limit. rewrite lookup_insert_eq. cbn [to_js_string].
  rewrite parseInt_number_to_string. cbn [or_default].
  replace (- k =? 0)%Z with false by lia. lia.
Qed.

(** C35: A request to the popular route with [limit=-k] (k > 0): [parseInt]
    reads [-k], which is not 0, so [|| 10] keeps it, [Math.min(-k, 20)]
    keeps it, and [slice(0, -k)] drops the last [k] articles of the
    popularity order: every other article is listed, however many, so the
    cap of 20 does not bound the answer. *)
Theorem popular_negative_limit (arts : list article) (q : gmap string qvalue) (k : Z) :
  (0 < k)%Z ->
  handle_popular arts (<["limit" := QStr (number_to_string (- k))]> q)
  = sendResponse (JObj [("articles", JArr (map listed_article
                           (firstn (length arts - Z.to_nat k) (js_sort (by_key_desc by_popularity) arts))));
                        ("total", JNum (Z.of_nat (length arts - Z.to_nat k)))]) 200.
Proof.
  intros Hk. unfold handle_popular. rewrite read_popular_limit_neg, popular_articles_neg by exact Hk.
  rewrite length_firstn, (Permutation_length (js_sort_perm _ _)).
  now replace (Nat.min (length arts - Z.to_nat k) (length arts)) with (length arts - Z.to_nat k) by lia.
Qed.

(** C33: The categories are distinct and are exactly the categories of the
    articles. *)
Theorem categories_spec (arts : list article) :
  List.NoDup (categories arts) /\
  forall c, In c (categories arts) <-> exists a, In a arts /\ category a = c.
Proof.
  split; [apply set_dedup_NoDup|]. intros c. unfold categories.
  rewrite set_dedup_In, in_map_iff. split; intros [a [H1 H2]]; eauto.
Qed.

(** The path matcher reads back every id of at least one code unit and
    no line terminator. *)
Theorem match_article_path_roundtrip (i : string) :
  i <> "" -> all_chars (fun c => negb (is_line_terminator c)) i = true ->
  match_article_path (article_path_prefix ++ i) = Some i.
Proof.
  intros Hne Hl. unfold match_article_path. rewrite strip_prefix_app.
  destruct i as [|c r]; [congruence|]. now rewrite Hl.
Qed.

(** C32: With unique ids, [GET /api/knowledge/article/<id>] returns each
    article of the collection by its own id. *)
Theorem handle_article_found (arts : list article) (a : article) :
  kb_wf arts -> In a arts -> handle_article arts (id a) = sendResponse (article_json a) 200.
Proof.
  intros [Hu _] Ha. unfold handle_article.
  now rewrite (find_article_id arts a (ids_unique_NoDup arts Hu) Ha).
Qed.

(** C16: An id that no article of the collection has is answered 404
    [{error: 'Article not found'}]. *)
Theorem handle_article_missing (arts : list article) (i : string) :
  Forall (fun a => id a <> i) arts -> handle_article arts i = sendError "Article not found" 404.
Proof. intros H. unfold handle_article. now rewrite (proj2 (find_article_None arts i) H). Qed.

(** ** Examples and witnesses *)

(** The popular example of the specification: [limit=2] lists
    [KB0067891] (2256) then [KB0012345] (1348). *)
Example popular_limit_two :
  handle_popular mockArticles {[ "limit" := QStr "2" ]}
  = sendResponse (JObj [("articles", JArr (map listed_article [article_2; article_1]));
                        ("total", JNum 2)]) 200.
Proof. vm_compute. reflexivity. Qed.

Lemma popular_spec_witness :
  (0 < read_popular_limit {[ "limit" := QStr "2" ]})%Z /\
  handle_popular mockArticles {[ "limit" := QStr "2" ]}
  = sendResponse (JObj [("articles", JArr (map listed_article
                           (firstn (Z.to_nat (read_popular_limit {[ "limit" := QStr "2" ]}))
                              (js_sort (by_key_desc by_popularity) mockArticles))));
                        ("total", JNum (Z.of_nat (Nat.min (Z.to_nat (read_popular_limit {[ "limit" := QStr "2" ]}))
                                                    (length mockArticles))))]) 200.
Proof.
  assert (H : (0 < read_popular_limit {[ "limit" := QStr "2" ]})%Z) by (vm_compute; reflexivity).
  split; [exact H|]. exact (popular_spec mockArticles _ H).
Defined.

Lemma popular_negative_limit_witness :
  (0 < 1)%Z /\
  handle_popular mockArticles (<["limit" := QStr (number_to_string (- 1))]> ∅)
  = sendResponse (JObj [("articles", JArr (map listed_article
                           (firstn (length mockArticles - Z.to_nat 1) (js_sort (by_key_desc by_popularity) mockArticles))));
                        ("total", JNum (Z.of_nat (length mockArticles - Z.to_nat 1)))]) 200.
Proof.
  assert (H : (0 < 1)%Z) by lia. split; [exact H|]. exact (popular_negative_limit mockArticles ∅ 1 H).
Defined.

(** The categories of the fixture, in order of first occurrence. *)
Example categories_mockArticles :
  handle_categories mockArticles
  = sendResponse (JObj [("categories", JArr [JStr "Authentication"; JStr "Network"; JStr "Email"])]) 200.
Proof. vm_compute. reflexivity. Qed.

Lemma match_article_path_roundtrip_witness :
  "1" <> "" /\ all_chars (fun c => negb (is_line_terminator c)) "1" = true /\
  match_article_path (article_path_prefix ++ "1") = Some "1".
Proof.
  assert (H1 : "1" <> "") by discriminate.
  assert (H2 : all_chars (fun c => negb (is_line_terminator c)) "1" = true) by reflexivity.
  split; [exact H1|split; [exact H2|]]. exact (match_article_path_roundtrip "1" H1 H2).
Defined.

Lemma handle_article_found_witness :
  kb_wf mockArticles /\ In article_2 mockArticles /\
  handle_article mockArticles (id article_2) = sendResponse (article_json article_2) 200.
Proof.
  assert (H1 : kb_wf mockArticles) by (split; vm_compute; reflexivity).
  assert (H2 : In article_2 mockArticles) by (right; left; reflexivity).
  split; [exact H1|split; [exact H2|]]. exact (handle_article_found mockArticles article_2 H1 H2).
Defined.

(** The specification's example: article [999] is not found. *)
Lemma handle_article_missing_witness :
  Forall (fun a => id a <> "999") mockArticles /\
  handle_article mockArticles "999" = sendError "Article not found" 404.
Proof.
  assert (H : Forall (fun a => id a <> "999") mockArticles).
  { apply List.Forall_forall. intros a Ha. cbn [In mockArticles] in Ha.
    destruct Ha as [<-|[<-|[<-|[]]]]; vm_compute; intros E; discriminate E. }
  split; [exact H|]. exact (handle_article_missing mockArticles "999" H).
Defined.

End Endpoints.
