(* ===== verification/Utf8.v ===== *)
(** * [Buffer.prototype.toString()]: UTF-8 decoding of a body chunk

    The analyze route reads its body with
    [req.on('data', chunk => { body += chunk.toString(); })] (lines
    297-300): every chunk, a [Buffer] of bytes, is decoded from UTF-8
    on its own and the strings are concatenated.  [utf8_decode] is the
    WHATWG UTF-8 decoder Node.js uses: well-formed sequences give their
    code point, and each maximal ill-formed subpart, as well as a
    sequence cut short by the end of the buffer, gives one U+FFFD.  The
    decoder is a state machine ([dstate]: bytes still needed, code point
    so far, bounds of the next continuation byte) stepped over the bytes
    ([run]) and flushed at the end ([flush]).  Bytes are integers in
    [0, 255]; the decoded text is a list of code points.

    Theorems: decoding is compositional when a chunk ends on a character
    boundary (the decoder is back in its initial state), so for such
    chunks the accumulated body is the decoding of the whole body; every
    two-byte character split across two chunks is replaced by two U+FFFD,
    and so
    the body the route parses depends on where the network cut it. *)

From S2P Require Import Prelude.

Local Open Scope Z_scope.

Module Utf8.

Definition replacement : Z := 65533.

Record dstate := mkDstate {
  needed : nat;   (** continuation bytes still expected *)
  seen : nat;     (** continuation bytes read *)
  cp : Z;         (** code point so far *)
  lower : Z;      (** bounds of the next continuation byte *)
  upper : Z
}.

Definition init : dstate := {| needed := 0; seen := 0; cp := 0; lower := 128; upper := 191 |}.

(** A byte read in the initial state: a code point, or the start of a
    sequence, or an error. *)
Definition step_init (b : Z) : dstate * list Z :=
  if (b <=? 127)%Z then (init, [b])
  else if ((194 <=? b) && (b <=? 223))%Z then
    ({| needed := 1; seen := 0; cp := Z.land b 31; lower := 128; upper := 191 |}, [])
  else if ((224 <=? b) && (b <=? 239))%Z then
    ({| needed := 2; seen := 0; cp := Z.land b 15;
        lower := if (b =? 224)%Z then 160 else 128;
        upper := if (b =? 237)%Z then 159 else 191 |}, [])
  else if ((240 <=? b) && (b <=? 244))%Z then
    ({| needed := 3; seen := 0; cp := Z.land b 7;
        lower := if (b =? 240)%Z then 144 else 128;
        upper := if (b =? 244)%Z then 143 else 191 |}, [])
  else (init, [replacement]).

(** One byte.  A byte outside the expected continuation range ends the
    ill-formed sequence with U+FFFD and is read again in the initial
    state. *)
Definition step (st : dstate) (b : Z) : dstate * list Z :=
  match needed st with
  | O => step_init b
  | S _ =>
      if negb ((lower st <=? b) && (b <=? upper st))%Z then
        let '(st', out) := step_init b in (st', replacement :: out)
      else
        let c := Z.lor (Z.shiftl (cp st) 6) (Z.land b 63) in
        if Nat.eqb (S (seen st)) (needed st) then (init, [c])
        else ({| needed := needed st; seen := S (seen st); cp := c; lower := 128; upper := 191 |}, [])
  end.

Fixpoint run (st : dstate) (bytes : list Z) : dstate * list Z :=
  match bytes with
  | [] => (st, [])
  | b :: rest =>
      let '(st1, o1) := step st b in
      let '(st2, o2) := run st1 rest in
      (st2, o1 ++ o2)
  end.

(** End of the buffer: a sequence cut short gives U+FFFD. *)
Definition flush (st : dstate) : list Z :=
  match needed st with O => [] | S _ => [replacement] end.

(** [buf.toString()] *)
Definition utf8_decode (bytes : list Z) : list Z :=
  let '(st, out) := run init bytes in out ++ flush st.

(** [body += chunk.toString()] over the chunks, from [body = '']. *)
Definition body_of_chunks (chunks : list (list Z)) : list Z :=
  fold_left (fun body chunk => body ++ utf8_decode chunk) chunks [].

(** Does a chunk end on a character boundary? *)
Definition complete (bytes : list Z) : bool := Nat.eqb (needed (fst (run init bytes))) 0.

(** ** Lemmas *)

Lemma run_app (st : dstate) (c1 c2 : list Z) :
  run st (c1 ++ c2)
  = let '(st1, o1) := run st c1 in let '(st2, o2) := run st1 c2 in (st2, o1 ++ o2).
Proof.
  revert st. induction c1 as [|b c1 IH]; intros st; cbn [run app].
  - destruct (run st c2). reflexivity.
  - destruct (step st b) as [s1 o1]. rewrite IH.
    destruct (run s1 c1) as [s2 o2]. destruct (run s2 c2) as [s3 o3].
    now rewrite app_assoc.
Qed.

Lemma needed_init (st : dstate) : needed st = O -> flush st = [].
Proof. unfold flush. now intros ->. Qed.

(** The states with no byte pending are the initial state. *)
Definition settled (st : dstate) : Prop := needed st = O -> st = init.

Lemma step_init_settled (b : Z) : settled (fst (step_init b)).
Proof.
  unfold settled, step_init.
  repeat match goal with |- context [if ?c then _ else _] => destruct c end;
    cbn [fst needed]; easy.
Qed.

Lemma step_settled (st : dstate) (b : Z) : settled (fst (step st b)).
Proof.
  unfold step. destruct (needed st) as [|n] eqn:En; [apply step_init_settled|].
  destruct (negb _).
  - pose proof (step_init_settled b). destruct (step_init b). exact H.
  - destruct (Nat.eqb _ _); unfold settled; cbn [fst needed]; [easy|]. intros H; discriminate H.
Qed.

Lemma run_settled (st : dstate) (bytes : list Z) : settled st -> settled (fst (run st bytes)).
Proof.
  revert st. induction bytes as [|b bytes IH]; intros st Hs; cbn [run]; [exact Hs|].
  pose proof (step_settled st b) as H1. destruct (step st b) as [s1 o1].
  specialize (IH s1 H1). destruct (run s1 bytes) as [s2 o2]. exact IH.
Qed.

Lemma init_settled : settled init.
Proof. intros _. reflexivity. Qed.

(** Decoding splits at a character boundary. *)
Lemma utf8_decode_app (c1 c2 : list Z) :
  complete c1 = true -> utf8_decode (c1 ++ c2) = utf8_decode c1 ++ utf8_decode c2.
Proof.
  unfold complete, utf8_decode. intros Hc. rewrite run_app.
  pose proof (run_settled init c1 init_settled) as Hs.
  destruct (run init c1) as [s1 o1]. cbn [fst] in Hc, Hs.
  apply Nat.eqb_eq in Hc. rewrite (Hs Hc). cbn [flush needed init]. rewrite app_nil_r.
  destruct (run init c2) as [s2 o2]. now rewrite app_assoc.
Qed.

Lemma body_of_chunks_acc (chunks : list (list Z)) (acc : list Z) :
  Forall (fun c => complete c = true) chunks ->
  fold_left (fun body chunk => body ++ utf8_decode chunk) chunks acc
  = acc ++ utf8_decode (concat chunks).
Proof.
  revert acc. induction chunks as [|c chunks IH]; intros acc Hall.
  - cbn. now rewrite app_nil_r.
  - inversion Hall as [|? ? Hc Hrest]; subst. cbn [fold_left concat].
    rewrite IH by exact Hrest. rewrite utf8_decode_app by exact Hc. now rewrite app_assoc.
Qed.

(** The decoder on the WHATWG test cases: a three- and a four-byte
    character, an overlong start, a surrogate, a truncated sequence, and
    an interrupted one. *)
Lemma utf8_decode_examples :
  utf8_decode [226; 130; 172] = [8364] /\ utf8_decode [240; 159; 152; 128] = [128512] /\
  utf8_decode [224; 128] = [replacement; replacement] /\
  utf8_decode [237; 160; 128] = [replacement; replacement; replacement] /\
  utf8_decode [226; 130] = [replacement] /\ utf8_decode [226; 130; 65] = [replacement; 65].
Proof. repeat split; reflexivity. Qed.

(** ** Properties *)

(** C29: Chunks that end on character boundaries accumulate to the decoding
    of the whole body. *)
Theorem body_of_chunks_complete (chunks : list (list Z)) :
  Forall (fun c => complete c = true) chunks ->
  body_of_chunks chunks = utf8_decode (concat chunks).
Proof. intros H. unfold body_of_chunks. now rewrite body_of_chunks_acc. Qed.

Lemma body_of_chunks_complete_witness :
  Forall (fun c => complete c = true) [[123; 34]; [195; 169; 125]] /\
  body_of_chunks [[123; 34]; [195; 169; 125]] = utf8_decode (concat [[123; 34]; [195; 169; 125]]).
Proof.
  assert (H : Forall (fun c => complete c = true) [[123; 34]; [195; 169; 125]])
    by (apply Forall_forallb; reflexivity).
  split; [exact H|]. exact (body_of_chunks_complete _ H).
Defined.

(** A lead byte of a two-byte sequence starts it. *)
Lemma step_init_lead2 (b : Z) : 194 <= b <= 223 ->
  step_init b = ({| needed := 1; seen := 0; cp := Z.land b 31; lower := 128; upper := 191 |}, []).
Proof.
  intros Hb. unfold step_init.
  replace (b <=? 127) with false by lia. now replace ((194 <=? b) && (b <=? 223)) with true by lia.
Qed.

(** A continuation byte read in the initial state is an error. *)
Lemma step_init_cont (b : Z) : 128 <= b <= 191 -> step_init b = (init, [replacement]).
Proof.
  intros Hb. unfold step_init.
  replace (b <=? 127) with false by lia. replace ((194 <=? b) && (b <=? 223)) with false by lia.
  replace ((224 <=? b) && (b <=? 239)) with false by lia.
  now replace ((240 <=? b) && (b <=? 244)) with false by lia.
Qed.

(** C30: every two-byte character (lead byte C2-DF, continuation byte
    80-BF) decodes to its code point when it arrives in one chunk, but
    when the request splits it across two chunks, [body += chunk.toString()]
    decodes each half alone and the body gets two U+FFFD instead. *)
Theorem split_character_corrupted (b1 b2 : Z) :
  194 <= b1 <= 223 -> 128 <= b2 <= 191 ->
  utf8_decode [b1; b2] = [Z.lor (Z.shiftl (Z.land b1 31) 6) (Z.land b2 63)] /\
  body_of_chunks [[b1]; [b2]] = [replacement; replacement].
Proof.
  intros H1 H2. unfold body_of_chunks, utf8_decode. cbn [run fold_left step needed init].
  rewrite step_init_lead2 by exact H1. cbn [step needed lower upper seen cp].
  rewrite step_init_cont by exact H2.
  replace ((128 <=? b2) && (b2 <=? 191)) with true by lia. split; reflexivity.
Qed.

(** [é] is the bytes C3 A9. *)
Lemma split_character_corrupted_witness :
  (194 <= 195 <= 223 /\ 128 <= 169 <= 191) /\
  (utf8_decode [195; 169] = [Z.lor (Z.shiftl (Z.land 195 31) 6) (Z.land 169 63)] /\
   body_of_chunks [[195]; [169]] = [replacement; replacement]).
Proof.
  split; [lia|]. apply split_character_corrupted; lia.
Defined.

End Utf8.
