(* ===== verification/Url.v ===== *)
(** * [url.parse(req.url, true)]: the pathname and the query object

    The listener starts with [const parsedUrl = url.parse(req.url, true)]
    (line 124) and reads [parsedUrl.pathname] and [parsedUrl.query].  For
    the target of an HTTP request Node.js's legacy parser ([lib/url.js])
    takes its fast path: it trims the white space around the text (code
    units below 33 and U+00A0), turns every backslash before the first
    [?] or [#] into a slash, and, when the text has no [#] and no [@]
    before its [?], matches [simplePathPattern]: a slash, an optional
    second slash not followed by a third, and no white space anywhere.
    The pathname is the text up to the first [?], and the rest is given
    to [querystring.parse].

    [querystring.parse] ([lib/querystring.js]) splits on [&], looks at the
    first 1000 pieces only ([maxKeys]), skips empty pieces, splits each at
    its first [=], and decodes a key or value that holds a [+] or a valid
    [%XX] escape: [+] becomes [%20], then [decodeURIComponent] decodes it,
    and when that throws [unescapeBuffer] decodes the escapes it can and
    the bytes are read as UTF-8.  A key met once has a string value, a key
    met again an array of its values, in order.

    [url_parse] returns [None] outside the fast path (a [#], an [@] before
    the [?], white space inside the target, a target not starting with
    [/] or starting with [///]) and when a decoded key or value has a code
    point above U+00FF, which the Latin-1 strings of the development
    cannot hold.

    Theorems (checks of this model of Node.js, used by the routing
    theorems of [Router]): the query object is the grouping, by key and in order, of
    the decoded pairs ([build_query_lookup]); only the first 1000 pieces
    count; [decodeURIComponent] and the [Buffer] fallback agree on ASCII
    text; parameters encoded with [encodeURIComponent] read back as
    themselves; and a plain path followed by a query without white space
    or [#] is parsed into that path and [querystring.parse] of the query
    ([url_parse_fast]). *)

From stdpp Require Import gmap strings.
From S2P Require Import Prelude JsText JsNumber JsonText JsonRead Utf8.

Local Open Scope string_scope.

Module Url.
Import JsText JsNumber JsonText JsonRead Utf8.

Definition code (c : ascii) : nat := nat_of_ascii c.

(** ** [url.parse]: trimming, backslashes and the fast path *)

(** [code < 33 || code === 0xA0] (U+FEFF lies outside Latin-1). *)
Definition url_ws (c : ascii) : bool := (code c <? 33)%nat || (code c =? 160)%nat.

Fixpoint drop_ws (l : list ascii) : list ascii :=
  match l with
  | c :: r => if url_ws c then drop_ws r else l
  | [] => []
  end.

(** The text between its first and its last non-white-space code unit. *)
Definition url_trim (s : string) : string :=
  string_of_list_ascii (rev (drop_ws (rev (drop_ws (list_ascii_of_string s))))).

(** Backslashes before the first [?] or [#] become slashes. *)
Fixpoint fix_backslashes (s : string) : string :=
  match s with
  | EmptyString => EmptyString
  | String c r =>
      if (code c =? 63)%nat || (code c =? 35)%nat then s
      else if (code c =? 92)%nat then String "/" (fix_backslashes r)
      else String c (fix_backslashes r)
  end.

Definition has_hash (s : string) : bool :=
  existsb (fun c => (code c =? 35)%nat) (list_ascii_of_string s).

(** An [@] before the first [?] or [#]. *)
Fixpoint has_at (s : string) : bool :=
  match s with
  | EmptyString => false
  | String c r =>
      if (code c =? 63)%nat || (code c =? 35)%nat then false
      else (code c =? 64)%nat || has_at r
  end.

(** [\s] of a regular expression, on Latin-1. *)
Definition re_space (c : ascii) : bool :=
  let n := code c in ((9 <=? n) && (n <=? 13))%nat || (n =? 32)%nat || (n =? 160)%nat.

(** The text before the first [?], and the text after it if there is one. *)
Fixpoint split_question (s : string) : string * option string :=
  match s with
  | EmptyString => (EmptyString, None)
  | String c r =>
      if (code c =? 63)%nat then (EmptyString, Some r)
      else let '(p, q) := split_question r in (String c p, q)
  end.

(** [simplePathPattern.exec(rest)]: the pathname and the search
    without its [?]. *)
Definition simple_path (s : string) : option (string * option string) :=
  match s with
  | String c r =>
      if (code c =? 47)%nat && negb (existsb re_space (list_ascii_of_string s))
         && negb (String.prefix "//" r)
      then Some (split_question s) else None
  | EmptyString => None
  end.

(** ** [querystring.parse] *)

(** [qs.split('&')], as the parser's scan cuts it. *)
Fixpoint split_amp (s : string) : list string :=
  match s with
  | EmptyString => [EmptyString]
  | String c r =>
      if (code c =? 38)%nat then EmptyString :: split_amp r
      else match split_amp r with
           | seg :: rest => String c seg :: rest
           | [] => [String c EmptyString]
           end
  end.

(** A piece cut at its first [=]; without one the value is empty. *)
Fixpoint split_eq (s : string) : string * string :=
  match s with
  | EmptyString => (EmptyString, EmptyString)
  | String c r =>
      if (code c =? 61)%nat then (EmptyString, r)
      else let '(k, v) := split_eq r in (String c k, v)
  end.

Definition is_hex (c : ascii) : bool :=
  match hex_value (Z.of_nat (code c)) with Some _ => true | None => false end.

(** A [%] followed by two hexadecimal digits. *)
Fixpoint has_escape (s : string) : bool :=
  match s with
  | EmptyString => false
  | String c r =>
      ((code c =? 37)%nat &&
         match r with String h (String l _) => is_hex h && is_hex l | _ => false end)
      || has_escape r
  end.

(** [keyEncoded] / [valEncoded]: a [+] or a valid escape was seen. *)
Definition encoded (s : string) : bool :=
  has_escape s || existsb (fun c => (code c =? 43)%nat) (list_ascii_of_string s).

(** [+] is replaced by [%20] while the piece is scanned. *)
Fixpoint plus_escape (s : string) : string :=
  match s with
  | EmptyString => EmptyString
  | String c r => if (code c =? 43)%nat then "%20" ++ plus_escape r else String c (plus_escape r)
  end.

(** [QueryString.unescapeBuffer(s, true)]: the escapes it can decode,
    [+] as a space, every other code unit as the byte [c & 0xFF]. *)
Fixpoint unescape_bytes (cs : list Z) : list Z :=
  match cs with
  | [] => []
  | c :: r =>
      if (c =? 43)%Z then 32%Z :: unescape_bytes r
      else if (c =? 37)%Z then
        match r with
        | h :: l :: r' =>
            match hex_value h, hex_value l with
            | Some x, Some y => (x * 16 + y)%Z :: unescape_bytes r'
            | _, _ => 37%Z :: unescape_bytes r
            end
        | _ => 37%Z :: unescape_bytes r
        end
      else Z.land c 255 :: unescape_bytes r
  end.

(** The text of [decodeURIComponent]: code units, and the bytes of the
    escapes; a [%] that does not start an escape throws [URIError]. *)
Inductive utoken := Lit (c : Z) | Byte (b : Z).

Fixpoint uri_tokens (cs : list Z) : option (list utoken) :=
  match cs with
  | [] => Some []
  | c :: r =>
      if (c =? 37)%Z then
        match r with
        | h :: l :: r' =>
            match hex_value h, hex_value l, uri_tokens r' with
            | Some x, Some y, Some ts => Some (Byte (x * 16 + y) :: ts)
            | _, _, _ => None
            end
        | _ => None
        end
      else option_map (cons (Lit c)) (uri_tokens r)
  end.

(** One escaped byte of [Decode]: the UTF-8 decoder of [Utf8], where
    every ill-formed byte throws. *)
Definition strict_step (st : dstate) (b : Z) : option (dstate * list Z) :=
  match needed st with
  | O => if ((128 <=? b) && (b <? 194) || (245 <=? b))%Z then None else Some (step_init b)
  | S _ => if ((lower st <=? b) && (b <=? upper st))%Z then Some (step st b) else None
  end.

(** [Decode] over the tokens: the decoder's state at the end and the
    code points; a code unit in the middle of a sequence throws. *)
Fixpoint strict_go (st : dstate) (ts : list utoken) : option (dstate * list Z) :=
  match ts with
  | [] => Some (st, [])
  | Lit c :: r =>
      match needed st with
      | O => option_map (fun '(s, d) => (s, c :: d)) (strict_go init r)
      | S _ => None
      end
  | Byte b :: r =>
      match strict_step st b with
      | Some (st', out) => option_map (fun '(s, d) => (s, out ++ d)%list) (strict_go st' r)
      | None => None
      end
  end.

(** A sequence cut short by the end of the text throws too. *)
Definition strict_run (st : dstate) (ts : list utoken) : option (list Z) :=
  match strict_go st ts with
  | Some (st', d) => match needed st' with O => Some d | S _ => None end
  | None => None
  end.

(** [decodeURIComponent(s)]; [None] is the [URIError]. *)
Definition uri_decode (cs : list Z) : option (list Z) :=
  match uri_tokens cs with Some ts => strict_run init ts | None => None end.

(** [QueryString.unescape(s)]: [decodeURIComponent], or on [URIError]
    [unescapeBuffer(s, true).toString()]. *)
Definition qs_unescape (cs : list Z) : list Z :=
  match uri_decode cs with Some d => d | None => utf8_decode (unescape_bytes cs) end.

(** Code points back to a Latin-1 string. *)
Fixpoint to_latin1 (cs : list Z) : option string :=
  match cs with
  | [] => Some EmptyString
  | c :: r =>
      if ((0 <=? c) && (c <? 256))%Z
      then option_map (String (ascii_of_nat (Z.to_nat c))) (to_latin1 r)
      else None
  end.

Definition decode_str (s : string) : option string := to_latin1 (qs_unescape (codes (plus_escape s))).

(** [if (key.length > 0 && keyEncoded) key = decodeStr(key, decode)],
    and the same for the value. *)
Definition decode_if (s : string) : option string :=
  if negb (String.eqb s "") && encoded s then decode_str s else Some s.

Definition qs_pair (seg : string) : option (string * string) :=
  let '(k, v) := split_eq seg in
  match decode_if k, decode_if v with
  | Some k', Some v' => Some (k', v')
  | _, _ => None
  end.

Fixpoint opt_pairs (segs : list string) : option (list (string * string)) :=
  match segs with
  | [] => Some []
  | seg :: rest =>
      match qs_pair seg, opt_pairs rest with
      | Some kv, Some kvs => Some (kv :: kvs)
      | _, _ => None
      end
  end.

(** The decoded pairs of the first [maxKeys = 1000] pieces, empty
    pieces skipped. *)
Definition qs_pairs (q : string) : option (list (string * string)) :=
  opt_pairs (List.filter (fun seg => negb (String.eqb seg "")) (firstn 1000 (split_amp q))).

(** [addKeyVal]: a new key gets the string, a second value makes an
    array, later values are pushed. *)
Definition add_key_val (obj : gmap string qvalue) (kv : string * string) : gmap string qvalue :=
  let '(k, v) := kv in
  match obj !! k with
  | None => <[k := QStr v]> obj
  | Some (QStr v0) => <[k := QArr [v0; v]]> obj
  | Some (QArr l) => <[k := QArr (l ++ [v])]> obj
  end.

Definition build_query (kvs : list (string * string)) : gmap string qvalue :=
  fold_left add_key_val kvs ∅.

(** [querystring.parse(q)] *)
Definition qs_parse (q : string) : option (gmap string qvalue) := option_map build_query (qs_pairs q).

(** [url.parse(u, true)]: the pathname and the query object. *)
Definition url_parse (u : string) : option (string * gmap string qvalue) :=
  let rest := fix_backslashes (url_trim u) in
  if has_hash rest || has_at rest then None
  else match simple_path rest with
       | Some (p, Some q) => option_map (fun obj => (p, obj)) (qs_parse q)
       | Some (p, None) => Some (p, ∅)
       | None => None
       end.

(** ** The client's side: [encodeURIComponent]

    A client builds a query from its parameters with
    [encodeURIComponent] on each name and value, joined as
    [name=value] with [&]; a Latin-1 code unit outside the unreserved
    set is written as the [%XX] escapes of its UTF-8 bytes. *)

Definition unreserved (c : ascii) : bool :=
  let n := code c in
  ((48 <=? n) && (n <=? 57))%nat || ((65 <=? n) && (n <=? 90))%nat || ((97 <=? n) && (n <=? 122))%nat
  || existsb (Nat.eqb n) [45; 95; 46; 33; 126; 42; 39; 40; 41]%nat.

Definition hex_char (n : nat) : ascii := ascii_of_nat (if (n <? 10)%nat then 48 + n else 55 + n).

Definition pct (b : nat) : string :=
  String "%" (String (hex_char (b / 16)) (String (hex_char (b mod 16)) EmptyString)).

Definition enc_char (c : ascii) : string :=
  let n := code c in
  if unreserved c then String c EmptyString
  else if (n <? 128)%nat then pct n
  else pct (192 + n / 64) ++ pct (128 + n mod 64).

Fixpoint encodeURIComponent (s : string) : string :=
  match s with
  | EmptyString => EmptyString
  | String c r => enc_char c ++ encodeURIComponent r
  end.

Definition enc_pair (kv : string * string) : string :=
  encodeURIComponent (fst kv) ++ "=" ++ encodeURIComponent (snd kv).

Definition qs_encode (kvs : list (string * string)) : string := join "&" (map enc_pair kvs).

(** The tokens [decodeURIComponent] reads in the encoding of a code unit. *)
Definition char_tokens (c : ascii) : list utoken :=
  let n := code c in
  if unreserved c then [Lit (Z.of_nat n)]
  else if (n <? 128)%nat then [Byte (Z.of_nat n)]
  else [Byte (Z.of_nat (192 + n / 64)); Byte (Z.of_nat (128 + n mod 64))].

(** The bytes [unescapeBuffer] makes of the same tokens. *)
Definition tbytes (ts : list utoken) : list Z :=
  map (fun t => match t with Lit c => c | Byte b => b end) ts.

Definition lit_ascii (t : utoken) : Prop := match t with Lit c => (0 <= c < 128)%Z | Byte _ => True end.

Fixpoint enc_tokens (s : string) : list utoken :=
  match s with
  | EmptyString => []
  | String c r => char_tokens c ++ enc_tokens r
  end.

(** No [+], [&] or [=] survives the encoding. *)
Definition qs_safe (c : ascii) : bool :=
  negb ((code c =? 43)%nat || (code c =? 38)%nat || (code c =? 61)%nat).

(** ** The query object, abstractly *)

(** The values of key [k] among the pairs, in order. *)
Definition values_of (k : string) (kvs : list (string * string)) : list string :=
  map snd (List.filter (fun kv => String.eqb (fst kv) k) kvs).

(** No value, one value as a string, several as an array. *)
Definition group (vs : list string) : option qvalue :=
  match vs with
  | [] => None
  | [v] => Some (QStr v)
  | _ => Some (QArr vs)
  end.

(** [addKeyVal] seen from one key. *)
Definition add_val (o : option qvalue) (v : string) : option qvalue :=
  match o with
  | None => Some (QStr v)
  | Some (QStr v0) => Some (QArr [v0; v])
  | Some (QArr l) => Some (QArr (l ++ [v]))
  end.

Definition no_amp (s : string) : bool := all_chars (fun c => negb (code c =? 38)%nat) s.

(** A code unit of a plain path: no white space, [?], [#], [@] or
    backslash. *)
Definition path_char (c : ascii) : bool :=
  negb (url_ws c || (code c =? 63)%nat || (code c =? 35)%nat || (code c =? 64)%nat || (code c =? 92)%nat).

(** A code unit of a query string the fast path keeps whole. *)
Definition query_char (c : ascii) : bool := negb (url_ws c || (code c =? 35)%nat).

(** ** Lemmas *)

Lemma add_key_val_lookup (obj : gmap string qvalue) (k' v k : string) :
  add_key_val obj (k', v) !! k = if String.eqb k' k then add_val (obj !! k) v else obj !! k.
Proof.
  unfold add_key_val. destruct (String.eqb_spec k' k) as [<-|Hne].
  - destruct (obj !! k') as [[v0|l]|]; now rewrite lookup_insert_eq.
  - destruct (obj !! k') as [[v0|l]|]; now rewrite lookup_insert_ne.
Qed.

Lemma fold_add_val_arr (l vs : list string) :
  fold_left add_val vs (Some (QArr l)) = Some (QArr (l ++ vs)).
Proof.
  revert l. induction vs as [|v vs IH]; intros l; cbn [fold_left add_val].
  - now rewrite app_nil_r.
  - now rewrite IH, <- app_assoc.
Qed.

Lemma fold_add_val_group (vs : list string) : fold_left add_val vs None = group vs.
Proof. destruct vs as [|v [|w vs]]; [reflexivity|reflexivity|]. apply fold_add_val_arr. Qed.

Lemma fold_lookup (kvs : list (string * string)) (obj : gmap string qvalue) (k : string) :
  fold_left add_key_val kvs obj !! k = fold_left add_val (values_of k kvs) (obj !! k).
Proof.
  revert obj. induction kvs as [|[k' v] kvs IH]; intros obj; [reflexivity|].
  cbn [fold_left]. rewrite IH, add_key_val_lookup. unfold values_of. cbn [List.filter fst].
  destruct (String.eqb k' k); reflexivity.
Qed.

(** The query object is the grouping of the pairs by key. *)
Lemma build_query_lookup (kvs : list (string * string)) (k : string) :
  build_query kvs !! k = group (values_of k kvs).
Proof. unfold build_query. now rewrite fold_lookup, lookup_empty, fold_add_val_group. Qed.

Lemma split_amp_single (a : string) : no_amp a = true -> split_amp a = [a].
Proof.
  induction a as [|c a IH]; [reflexivity|]. unfold no_amp. cbn [all_chars split_amp].
  destruct (code c =? 38)%nat; cbn [negb andb]; [discriminate|]. intros H. now rewrite IH.
Qed.

Lemma split_amp_cons (a t : string) :
  no_amp a = true -> split_amp (a ++ String "&" t) = a :: split_amp t.
Proof.
  induction a as [|c a IH]; [reflexivity|]. unfold no_amp. simpl.
  destruct (code c =? 38)%nat; cbn [negb andb]; [discriminate|]. intros H. now rewrite IH.
Qed.

(** [split('&')] undoes [join('&')] on pieces without [&]. *)
Lemma split_amp_join (segs : list string) :
  segs <> [] -> Forall (fun s => no_amp s = true) segs -> split_amp (join "&" segs) = segs.
Proof.
  induction segs as [|a [|b segs] IH]; intros Hne Hall; [congruence| |];
    inversion Hall as [|? ? Ha Hr]; subst.
  - now apply split_amp_single.
  - change (join "&" (a :: b :: segs)) with (a ++ String "&" (join "&" (b :: segs))).
    rewrite split_amp_cons by exact Ha. f_equal. apply IH; [discriminate|exact Hr].
Qed.

(** ** Percent-encoding read back *)

(** Text whose escapes are complete tokenizes piece by piece. *)
Lemma uri_tokens_app (n : nat) (xs rest : list Z) (ts1 ts2 : list utoken) :
  (length xs <= n)%nat -> uri_tokens xs = Some ts1 -> uri_tokens rest = Some ts2 ->
  uri_tokens (xs ++ rest)%list = Some (ts1 ++ ts2)%list.
Proof.
  revert xs ts1. induction n as [|n IH]; intros xs ts1 Hn H1 H2.
  { destruct xs; [now injection H1 as <-|cbn in Hn; lia]. }
  destruct xs as [|c r]; [now injection H1 as <-|]. cbn [uri_tokens app] in H1 |- *.
  destruct (c =? 37)%Z.
  - destruct r as [|h [|l r']]; try discriminate H1. cbn [app].
    destruct (hex_value h), (hex_value l); try discriminate H1.
    destruct (uri_tokens r') as [ts'|] eqn:E; [|discriminate H1]. injection H1 as <-.
    now rewrite (IH r' ts') by (cbn in Hn; lia || assumption).
  - destruct (uri_tokens r) as [ts'|] eqn:E; [|discriminate H1]. injection H1 as <-.
    now rewrite (IH r ts') by (cbn in Hn; lia || assumption).
Qed.

Lemma strict_go_app (st : dstate) (ts1 ts2 : list utoken) :
  strict_go st (ts1 ++ ts2)%list
  = match strict_go st ts1 with
    | Some (s1, d1) => option_map (fun '(s, d) => (s, d1 ++ d)%list) (strict_go s1 ts2)
    | None => None
    end.
Proof.
  revert st. induction ts1 as [|[c|b] ts1 IH]; intros st; cbn [app strict_go].
  - now destruct (strict_go st ts2) as [[s d]|].
  - destruct (needed st); [|reflexivity]. rewrite IH.
    destruct (strict_go init ts1) as [[s1 d1]|]; [|reflexivity]. cbn [option_map].
    now destruct (strict_go s1 ts2) as [[s d]|].
  - destruct (strict_step st b) as [[s0 o]|]; [|reflexivity]. rewrite IH.
    destruct (strict_go s0 ts1) as [[s1 d1]|]; [|reflexivity]. cbn [option_map].
    destruct (strict_go s1 ts2) as [[s d]|]; [|reflexivity]. cbn. now rewrite ?app_assoc.
Qed.

(** The encoding of each code unit tokenizes and decodes back to it. *)
Lemma enc_char_tokens (c : ascii) : uri_tokens (codes (enc_char c)) = Some (char_tokens c).
Proof. destruct c as [[] [] [] [] [] [] [] []]; vm_compute; reflexivity. Qed.

Lemma enc_char_go (c : ascii) : strict_go init (char_tokens c) = Some (init, [Z.of_nat (code c)]).
Proof. destruct c as [[] [] [] [] [] [] [] []]; vm_compute; reflexivity. Qed.

Lemma enc_tokens_ok (s : string) :
  uri_tokens (codes (encodeURIComponent s)) = Some (enc_tokens s).
Proof.
  induction s as [|c s IH]; [reflexivity|]. cbn [encodeURIComponent enc_tokens].
  rewrite codes_app. exact (uri_tokens_app _ _ _ _ _ (le_n _) (enc_char_tokens c) IH).
Qed.

Lemma enc_go (s : string) : strict_go init (enc_tokens s) = Some (init, codes s).
Proof.
  induction s as [|c s IH]; [reflexivity|]. cbn [enc_tokens]. rewrite strict_go_app, enc_char_go, IH.
  reflexivity.
Qed.

Lemma enc_decode (s : string) : uri_decode (codes (encodeURIComponent s)) = Some (codes s).
Proof. unfold uri_decode, strict_run. now rewrite enc_tokens_ok, enc_go. Qed.

Lemma to_latin1_codes (s : string) : to_latin1 (codes s) = Some s.
Proof.
  induction s as [|c s IH]; [reflexivity|]. rewrite codes_String. cbn [to_latin1].
  pose proof (nat_ascii_bounded c) as Hb.
  replace ((0 <=? Z.of_nat (nat_of_ascii c)) && (Z.of_nat (nat_of_ascii c) <? 256))%Z with true
    by (symmetry; apply andb_true_iff; split; [apply Z.leb_le|apply Z.ltb_lt]; lia).
  rewrite IH. cbn [option_map]. now rewrite Nat2Z.id, ascii_nat_embedding.
Qed.

Lemma enc_char_safe (c : ascii) : all_chars qs_safe (enc_char c) = true.
Proof. destruct c as [[] [] [] [] [] [] [] []]; reflexivity. Qed.


Lemma enc_safe (s : string) : all_chars qs_safe (encodeURIComponent s) = true.
Proof.
  induction s as [|c s IH]; [reflexivity|]. cbn [encodeURIComponent].
  now rewrite all_chars_app, enc_char_safe, IH.
Qed.

Lemma plus_escape_id (s : string) : all_chars qs_safe s = true -> plus_escape s = s.
Proof.
  induction s as [|c s IH]; [reflexivity|]. simpl. unfold qs_safe.
  destruct (code c =? 43)%nat; [discriminate|]. intros H. cbn [orb negb andb] in H.
  apply andb_true_iff in H as [_ H]. now rewrite IH.
Qed.

Lemma split_eq_safe (k v : string) : all_chars qs_safe k = true -> split_eq (k ++ "=" ++ v) = (k, v).
Proof.
  induction k as [|c k IH]; [reflexivity|]. simpl. unfold qs_safe.
  destruct (code c =? 61)%nat; [now rewrite !orb_true_r|]. intros H.
  apply andb_true_iff in H as [_ H]. now rewrite IH.
Qed.

(** A code unit outside the unreserved set is written as an escape. *)
Lemma enc_char_escape (c : ascii) :
  unreserved c = false -> exists h l r, enc_char c = String "%" (String h (String l r)) /\ is_hex h && is_hex l = true.
Proof.
  destruct c as [[] [] [] [] [] [] [] []]; intros H; try discriminate H; eexists _, _, _; split; reflexivity.
Qed.

(** Text with no escape after encoding was not changed by it. *)
Lemma enc_unchanged (s : string) : has_escape (encodeURIComponent s) = false -> encodeURIComponent s = s.
Proof.
  induction s as [|c s IH]; [reflexivity|]. cbn [encodeURIComponent]. destruct (unreserved c) eqn:Ec.
  - unfold enc_char. rewrite Ec. simpl. intros H. apply orb_false_iff in H as [_ H]. now rewrite IH.
  - destruct (enc_char_escape c Ec) as [h [l [r [-> Hx]]]]. simpl. now rewrite Hx.
Qed.

Lemma enc_nonempty (s : string) : encodeURIComponent s = "" -> s = "".
Proof.
  destruct s as [|c s]; [reflexivity|]. cbn [encodeURIComponent]. unfold enc_char.
  destruct (unreserved c), (code c <? 128)%nat; discriminate.
Qed.

(** The decoding of one encoded key or value. *)
Lemma decode_if_enc (s : string) : decode_if (encodeURIComponent s) = Some s.
Proof.
  unfold decode_if. destruct (negb _ && encoded _) eqn:E.
  - unfold decode_str, qs_unescape. rewrite plus_escape_id by apply enc_safe.
    rewrite enc_decode. apply to_latin1_codes.
  - f_equal. apply andb_false_iff in E as [E|E].
    + apply negb_false_iff, String.eqb_eq in E. now rewrite E, (enc_nonempty _ E).
    + apply orb_false_iff in E as [E _]. now apply enc_unchanged.
Qed.


Lemma enc_pair_safe (kv : string * string) : no_amp (enc_pair kv) = true.
Proof.
  assert (H : forall s, no_amp (encodeURIComponent s) = true).
  { intros s. apply (all_chars_impl qs_safe); [|apply enc_safe].
    intros c. unfold qs_safe. rewrite !negb_orb, !andb_true_iff. tauto. }
  unfold enc_pair. unfold no_amp in *. now rewrite !all_chars_app, !H.
Qed.

Lemma qs_pair_enc (kv : string * string) : qs_pair (enc_pair kv) = Some kv.
Proof.
  destruct kv as [k v]. unfold qs_pair, enc_pair. cbn [fst snd].
  rewrite split_eq_safe by apply enc_safe. now rewrite !decode_if_enc.
Qed.

Lemma qs_pairs_encode (kvs : list (string * string)) :
  (length kvs <= 1000)%nat -> qs_pairs (qs_encode kvs) = Some kvs.
Proof.
  intros Hl. destruct kvs as [|kv kvs]; [reflexivity|].
  unfold qs_pairs, qs_encode.
  rewrite split_amp_join by (discriminate || (apply List.Forall_forall; intros s Hs;
    apply in_map_iff in Hs as [x [<- _]]; apply enc_pair_safe)).
  rewrite firstn_all2 by (rewrite length_map; exact Hl).
  rewrite (List.filter_ext_in _ (fun _ => true)), filter_true.
  - clear Hl. induction (kv :: kvs) as [|x l IH]; [reflexivity|]. cbn [map opt_pairs].
    now rewrite qs_pair_enc, IH.
  - intros s Hs. apply in_map_iff in Hs as [[k v] [<- _]]. unfold enc_pair. cbn [fst snd].
    destruct (encodeURIComponent k); reflexivity.
Qed.

(** ** [decodeURIComponent] and the [Buffer] fallback *)

Lemma land_255 (c : Z) : (0 <= c < 256)%Z -> Z.land c 255 = c.
Proof.
  intros H. change 255%Z with (Z.ones 8). rewrite Z.land_ones by lia. apply Z.mod_small. lia.
Qed.

(** On ASCII text without [+], the tokens of [decodeURIComponent] are
    the bytes [unescapeBuffer] produces. *)
Lemma uri_tokens_bytes (n : nat) (cs : list Z) (ts : list utoken) :
  (length cs <= n)%nat -> Forall (fun c => (0 <= c < 128)%Z /\ c <> 43%Z) cs ->
  uri_tokens cs = Some ts -> unescape_bytes cs = tbytes ts /\ Forall lit_ascii ts.
Proof.
  revert cs ts. induction n as [|n IH]; intros cs ts Hn Hall H.
  { destruct cs; [injection H as <-; split; constructor|cbn in Hn; lia]. }
  destruct cs as [|c r]; [injection H as <-; split; constructor|].
  inversion Hall as [|? ? [Hc Hp] Hr]; subst. cbn [uri_tokens] in H. cbn [unescape_bytes].
  apply Z.eqb_neq in Hp. rewrite Hp. destruct (Z.eqb_spec c 37) as [->|Hne].
  - destruct r as [|h [|l r']]; try discriminate H.
    destruct (hex_value h), (hex_value l); try discriminate H.
    inversion Hr as [|? ? _ Hr']; inversion Hr' as [|? ? _ Hr'']; subst.
    destruct (uri_tokens r') as [ts'|] eqn:E; [|discriminate H]. injection H as <-.
    destruct (IH r' ts') as [Hb Hl]; [cbn in Hn; lia|exact Hr''|exact E|].
    split; [now rewrite Hb|now constructor].
  - destruct (uri_tokens r) as [ts'|] eqn:E; [|discriminate H]. injection H as <-.
    destruct (IH r ts') as [Hb Hl]; [cbn in Hn; lia|exact Hr|exact E|].
    rewrite land_255 by lia. split; [now rewrite Hb|constructor; [cbn; lia|exact Hl]].
Qed.

Lemma strict_step_step (st : dstate) (b : Z) (x : dstate * list Z) :
  strict_step st b = Some x -> step st b = x.
Proof.
  unfold strict_step, step. destruct (needed st); [destruct (_ || _)|destruct (_ && _)];
    try discriminate; now injection 1 as <-.
Qed.

(** Where [Decode] succeeds, the WHATWG decoder reads the same code
    points from the bytes and ends in the same state. *)
Lemma strict_go_run (ts : list utoken) (st st' : dstate) (d : list Z) :
  Forall lit_ascii ts -> strict_go st ts = Some (st', d) -> run st (tbytes ts) = (st', d).
Proof.
  revert st st' d. induction ts as [|[c|b] ts IH]; intros st st' d Hall H; cbn [strict_go] in H;
    cbn [tbytes map run].
  - now injection H as <- <-.
  - inversion Hall as [|? ? Hc Hr]; subst. cbn [lit_ascii] in Hc.
    destruct (needed st) eqn:En; [|discriminate].
    destruct (strict_go init ts) as [[s1 d1]|] eqn:E; [|discriminate]. injection H as <- <-.
    unfold step. rewrite En. unfold step_init.
    replace (c <=? 127)%Z with true by (symmetry; apply Z.leb_le; lia).
    fold (tbytes ts). now rewrite (IH _ _ _ Hr E).
  - inversion Hall as [|? ? _ Hr]; subst.
    destruct (strict_step st b) as [[s0 o]|] eqn:Es; [|discriminate].
    destruct (strict_go s0 ts) as [[s1 d1]|] eqn:E; [|discriminate]. injection H as <- <-.
    rewrite (strict_step_step _ _ _ Es). fold (tbytes ts). now rewrite (IH _ _ _ Hr E).
Qed.

(** ** The fast path of [url.parse] *)

Lemma drop_ws_id (l : list ascii) : Forall (fun c => url_ws c = false) l -> drop_ws l = l.
Proof. destruct l as [|c l]; [reflexivity|]. intros H. inversion H; subst. cbn. now rewrite H2. Qed.

Lemma all_chars_Forall (p : ascii -> bool) (s : string) :
  all_chars p s = true -> Forall (fun c => p c = true) (list_ascii_of_string s).
Proof.
  induction s as [|c s IH]; [constructor|]. cbn [all_chars list_ascii_of_string].
  rewrite andb_true_iff. intros [H1 H2]. constructor; auto.
Qed.

(** A text without white space is its own trim. *)
Lemma url_trim_id (s : string) : all_chars (fun c => negb (url_ws c)) s = true -> url_trim s = s.
Proof.
  intros H. apply all_chars_Forall in H.
  assert (H' : Forall (fun c => url_ws c = false) (list_ascii_of_string s))
    by (eapply Forall_impl; [|exact H]; intros c; apply negb_true_iff).
  unfold url_trim. rewrite (drop_ws_id _ H'), drop_ws_id, rev_involutive.
  - apply string_of_list_ascii_of_string.
  - now apply Forall_rev.
Qed.

Lemma fix_backslashes_path (p t : string) :
  all_chars path_char p = true -> fix_backslashes (p ++ String "?" t) = p ++ String "?" t.
Proof.
  induction p as [|c p IH]; [reflexivity|]. unfold path_char. simpl.
  destruct (code c =? 63)%nat, (code c =? 35)%nat, (code c =? 92)%nat;
    rewrite ?orb_true_r; cbn [negb andb orb]; try discriminate.
  intros H. apply andb_true_iff in H as [_ H]. now rewrite IH.
Qed.

Lemma has_at_path (p t : string) : all_chars path_char p = true -> has_at (p ++ String "?" t) = false.
Proof.
  induction p as [|c p IH]; [reflexivity|]. unfold path_char. simpl.
  destruct (code c =? 63)%nat, (code c =? 35)%nat, (code c =? 64)%nat;
    rewrite ?orb_true_r; cbn [negb andb orb]; try discriminate.
  intros H. apply andb_true_iff in H as [_ H]. now apply IH.
Qed.

Lemma split_question_path (p t : string) :
  all_chars path_char p = true -> split_question (p ++ String "?" t) = (p, Some t).
Proof.
  induction p as [|c p IH]; [reflexivity|]. unfold path_char. simpl.
  destruct (code c =? 63)%nat; rewrite ?orb_true_r; cbn [negb andb orb]; try discriminate.
  intros H. apply andb_true_iff in H as [_ H]. now rewrite IH.
Qed.

Lemma has_hash_false (s : string) :
  all_chars (fun c => negb (code c =? 35)%nat) s = true -> has_hash s = false.
Proof.
  intros H. apply all_chars_Forall in H. unfold has_hash. apply not_true_iff_false.
  intros Hex. apply existsb_exists in Hex as [c [Hc Hc']]. apply List.Forall_forall with (x := c) in H;
    [|exact Hc]. now rewrite Hc' in H.
Qed.

Lemma no_re_space (s : string) :
  all_chars (fun c => negb (url_ws c)) s = true -> existsb re_space (list_ascii_of_string s) = false.
Proof.
  intros H. apply all_chars_Forall in H. apply not_true_iff_false. intros Hex.
  apply existsb_exists in Hex as [c [Hc Hs]]. apply List.Forall_forall with (x := c) in H; [|exact Hc].
  unfold re_space, url_ws in *. apply negb_true_iff in H. rewrite !orb_false_iff in H.
  destruct H as [H1 H2]. apply Nat.ltb_ge in H1. apply Nat.eqb_neq in H2.
  rewrite !orb_true_iff, !andb_true_iff, !Nat.leb_le, !Nat.eqb_eq in Hs. lia.
Qed.

(** A plain path followed by [?] and a query without white space or [#]:
    the pathname is the path and the query object is
    [querystring.parse] of the rest. *)
Lemma url_parse_fast (p q : string) :
  all_chars path_char p = true -> String.prefix "/" p = false -> all_chars query_char q = true ->
  url_parse ("/" ++ p ++ "?" ++ q) = option_map (fun obj => ("/" ++ p, obj)) (qs_parse q).
Proof.
  intros Hp Hs Hq. set (u := "/" ++ p ++ "?" ++ q).
  assert (Hp' : all_chars path_char ("/" ++ p) = true) by exact Hp.
  assert (Hu : u = ("/" ++ p) ++ String "?" q) by (unfold u; now rewrite str_app_assoc).
  assert (Hall : forall f, (forall c, path_char c = true -> f c = true) -> (forall c, query_char c = true -> f c = true) ->
                   f "?"%char = true -> all_chars f u = true).
  { intros f H1 H2 H3. rewrite Hu, all_chars_app. cbn [all_chars]. rewrite H3.
    rewrite (all_chars_impl path_char), (all_chars_impl query_char); auto. }
  assert (Hw : all_chars (fun c => negb (url_ws c)) u = true).
  { apply Hall; [intros c; unfold path_char|intros c; unfold query_char|reflexivity];
      rewrite !negb_orb, !andb_true_iff; tauto. }
  unfold url_parse. rewrite url_trim_id by exact Hw. rewrite Hu, fix_backslashes_path by exact Hp'.
  rewrite has_at_path by exact Hp'. rewrite <- Hu, has_hash_false.
  2: { apply Hall; [intros c; unfold path_char|intros c; unfold query_char|reflexivity];
         rewrite !negb_orb, !andb_true_iff; tauto. }
  cbn [orb]. unfold simple_path. unfold u at 1.
  change ("/" ++ p ++ "?" ++ q) with (String "/" (p ++ "?" ++ q)) at 1. cbv beta iota.
  change ((code "/" =? 47)%nat) with true. fold u. rewrite no_re_space by exact Hw.
  replace (String.prefix "//" (p ++ "?" ++ q)) with false
    by (destruct p as [|c p]; [reflexivity|];
        change (String c p ++ "?" ++ q) with (String c (p ++ "?" ++ q)); cbn -[ascii_dec] in Hs |- *;
        destruct (ascii_dec "/" c) as [<-|Hne]; [destruct p; discriminate Hs|reflexivity]).
  cbn [andb negb]. change (String "/" (p ++ "?" ++ q)) with u. rewrite Hu, split_question_path by exact Hp'.
  reflexivity.
Qed.

(** ** Properties *)

(** [maxKeys]: [querystring.parse] reads only the first 1000 pieces of
    the query; whatever follows them is ignored. *)
Theorem qs_parse_maxKeys (segs1 segs2 : list string) :
  length segs1 = 1000%nat -> Forall (fun s => no_amp s = true) (segs1 ++ segs2) ->
  qs_parse (join "&" (segs1 ++ segs2)) = qs_parse (join "&" segs1).
Proof.
  intros Hl Hall. assert (Hne : segs1 <> []) by (intros ->; discriminate Hl).
  apply Forall_app in Hall as Hall'. unfold qs_parse, qs_pairs.
  rewrite (split_amp_join (segs1 ++ segs2))
    by (first [exact Hall | destruct segs1; [congruence|discriminate]]).
  rewrite (split_amp_join segs1) by tauto.
  rewrite firstn_app, Hl, Nat.sub_diag, firstn_O, app_nil_r, <- Hl, firstn_all. reflexivity.
Qed.

(** Round trip with the client: parameters a client encodes with
    [encodeURIComponent] and joins with [&] reach the route as the query
    object of those parameters, for up to 1000 parameters. *)
Theorem qs_parse_encode (kvs : list (string * string)) :
  (length kvs <= 1000)%nat -> qs_parse (qs_encode kvs) = Some (build_query kvs).
Proof. intros Hl. unfold qs_parse. now rewrite qs_pairs_encode. Qed.

(** On ASCII text without [+], which branch [QueryString.unescape]
    takes does not matter: when [decodeURIComponent] succeeds it gives
    what [unescapeBuffer(s, true).toString()] gives. *)
Theorem qs_unescape_ascii (cs : list Z) :
  Forall (fun c => (0 <= c < 128)%Z /\ c <> 43%Z) cs ->
  qs_unescape cs = utf8_decode (unescape_bytes cs).
Proof.
  intros Hall. unfold qs_unescape, uri_decode.
  destruct (uri_tokens cs) as [ts|] eqn:Et; [|reflexivity]. unfold strict_run.
  destruct (strict_go init ts) as [[st d]|] eqn:Ed; [|reflexivity].
  destruct (needed st) eqn:En; [|reflexivity].
  destruct (uri_tokens_bytes (length cs) cs ts (le_n _) Hall Et) as [Hb Hl].
  unfold utf8_decode. rewrite Hb, (strict_go_run ts init st d Hl Ed).
  now rewrite needed_init, app_nil_r.
Qed.

End Url.
