(* ===== verification/Analyze.v ===== *)
(** * The analyze route of [src/quick-start.js]

    [POST /api/knowledge/analyze] (lines 295-370) accumulates the request
    body from its chunks, and when the stream ends runs, inside one
    [try]:
    - [JSON.parse(body)] and the destructuring
      [const { issue_description, error_message, system_info } = data]
      ([destructure]; [null] throws);
    - the check [if (!issue_description)] (400);
    - [extractKeywords(issue_description + ' ' + (error_message || ''))]
      ([analysis_text]; the conversion of an object with its own
      [toString] property throws);
    - the engine: the analyze filter and the sort by search score
      ([rank analyze_ranker]), [slice(0, 5)], the relevance score of each
      article and the re-sort by it ([analyze_results]);
    - the response object, with its recommendations ([analysis_body]).
    Every exception is caught and answered by 400
    [Invalid JSON in request body].  [JSON.parse] is a library call: the
    handler is defined in a section over any parser [json_parse], and
    numbers of the parsed body are integers.

    Theorems: the results are at most five articles of the collection that
    pass the analyze filter, they are the top five of the search-score
    ranking, ordered by decreasing relevance, each with a relevance score
    (never [null]) between 0 and 7; the route never lets an exception out
    and answers 200 or 400; the 400 cases are exactly a body that is not
    JSON or is [null], a falsy [issue_description], and a description or
    message whose conversion to a string throws. *)

From S2P Require Import Prelude JsText JsArray JsNumber JsSort Articles Keywords Matching Scoring Json Ranking Utf8.

Local Open Scope string_scope.

Module Analyze.
Import JsText JsArray JsNumber JsSort Articles Keywords Matching Scoring Json Ranking Utf8.

Definition invalid_json : string := "Invalid JSON in request body".
Definition required_issue : string := "issue_description is required".

(** [const { issue_description, error_message, system_info } = data]:
    [None] when [data] is [null] (a [TypeError]); a property a value does
    not have reads as [undefined]. *)
Definition destructure (data : json) : option (option json * option json * option json) :=
  match data with
  | JNull => None
  | JObj fields =>
      Some (obj_get fields "issue_description", obj_get fields "error_message",
            obj_get fields "system_info")
  | _ => Some (None, None, None)
  end.

(** [issue_description + ' ' + (error_message || '')]; [None] when a
    conversion throws. *)
Definition analysis_text (issue : json) (error_message : option json) : option string :=
  match js_to_string issue with
  | None => None
  | Some s1 =>
      match error_message with
      | Some e =>
          if js_truthy (Some e) then option_map (fun s2 => s1 ++ " " ++ s2) (js_to_string e)
          else Some (s1 ++ " ")
      | None => Some (s1 ++ " ")
      end
  end.

(** An article with its [relevance_score]; [None] is [NaN]. *)
Definition scored : Type := article * option Z.

(** [(a, b) => b.relevance_score - a.relevance_score]: a [NaN]
    difference counts as [+0] for [sort]. *)
Definition relevance_cmp (x y : scored) : Q :=
  match snd x, snd y with
  | Some a, Some b => inject_Z b - inject_Z a
  | _, _ => 0
  end.

(** The results of lines 314-353: filter, sort by search score, keep
    five, attach the relevance score, sort by it. *)
Definition analyze_results (arts : list article) (keywords : list string) : list scored :=
  let relevantArticles := js_slice (rank analyze_ranker keywords arts) 0 5 in
  js_sort relevance_cmp
    (map (fun a => (a, calculateRelevanceScore keywords a)) relevantArticles).

(** [{...article, kb_number, display_info, relevance_score}];
    [JSON.stringify] writes [NaN] as [null]. *)
Definition scored_json (x : scored) : json :=
  JObj (obj_set (listed_fields (fst x)) "relevance_score"
          (match snd x with Some z => JNum z | None => JNull end)).

Definition recommendations (n : nat) : list json :=
  if (0 <? n)%nat
  then [JStr ("Found " ++ number_to_string (Z.of_nat n) ++ " relevant articles");
        JStr "Review articles in order of relevance"]
  else [JStr "No relevant articles found"; JStr "Try different search terms"].

(** A property whose value is [undefined] is left out by [JSON.stringify]. *)
Definition opt_field (k : string) (v : option json) : list (string * json) :=
  match v with Some j => [(k, j)] | None => [] end.

Definition analysis_body (issue : json) (error_message system_info : option json)
    (keywords : list string) (results : list scored) : json :=
  JObj [("analysis", JObj
    ([("issue_description", issue)] ++ opt_field "error_message" error_message ++
     opt_field "system_info" system_info ++
     [("extracted_keywords", JArr (map JStr keywords));
      ("relevant_articles", JArr (map scored_json results));
      ("total_articles_found", JNum (Z.of_nat (length results)));
      ("recommendations", JArr (recommendations (length results)))])%list)].

(** The [end] handler, from the parsed body ([None]: [JSON.parse]
    threw). *)
Definition handle_analyze (arts : list article) (parsed : option json) : response :=
  match parsed with
  | None => sendError invalid_json 400
  | Some data =>
      match destructure data with
      | None => sendError invalid_json 400
      | Some (issue, error_message, system_info) =>
          match issue with
          | Some i =>
              if js_truthy (Some i) then
                match analysis_text i error_message with
                | None => sendError invalid_json 400
                | Some text =>
                    let keywords := extractKeywords text in
                    sendResponse (analysis_body i error_message system_info keywords
                                    (analyze_results arts keywords)) 200
                end
              else sendError required_issue 400
          | None => sendError required_issue 400
          end
      end
  end.

Section Request.
(** [JSON.parse] on the decoded body (code points), a library function:
    [None] when it throws. *)
Variable json_parse : list Z -> option json.

(** [let body = ''; req.on('data', chunk => { body += chunk.toString(); })],
    then the [end] handler. *)
Definition handle_analyze_request (arts : list article) (chunks : list (list Z)) : response :=
  handle_analyze arts (json_parse (body_of_chunks chunks)).

End Request.

(** ** Lemmas *)

(** The relevance comparator is the comparator by decreasing relevance
    score on articles that all have a score. *)
Definition relevance_key (x : scored) : Q :=
  match snd x with Some z => inject_Z z | None => 0 end.

Lemma relevance_cmp_key (x y : scored) :
  snd x <> None -> snd y <> None -> relevance_cmp x y = by_key_desc relevance_key x y.
Proof.
  unfold relevance_cmp, by_key_desc, relevance_key.
  destruct (snd x), (snd y); congruence.
Qed.

Lemma analyze_candidates (arts : list article) (keywords : list string) (a : article) :
  In a (js_slice (rank analyze_ranker keywords arts) 0 5) ->
  In a arts /\ analyze_match keywords a = true /\ keywords <> [].
Proof.
  intros H. apply js_slice_incl, rank_In in H as [Ha Hm]. split; [exact Ha|split; [exact Hm|]].
  intros ->. cbn [rk_keep analyze_ranker] in Hm. apply analyze_match_needs_one in Hm.
  unfold matchCount in Hm. simpl in Hm. lra.
Qed.

Lemma analyze_results_perm (arts : list article) (keywords : list string) :
  Permutation (analyze_results arts keywords)
    (map (fun a => (a, calculateRelevanceScore keywords a))
       (firstn 5 (rank analyze_ranker keywords arts))).
Proof.
  unfold analyze_results. rewrite js_sort_perm. rewrite js_slice_nonneg by lia. reflexivity.
Qed.

(** The results sorted by [relevance_cmp] are the stable sort by
    decreasing relevance score. *)
Lemma analyze_results_by_key (arts : list article) (keywords : list string) :
  analyze_results arts keywords
  = js_sort (by_key_desc relevance_key)
      (map (fun a => (a, calculateRelevanceScore keywords a))
         (js_slice (rank analyze_ranker keywords arts) 0 5)).
Proof.
  unfold analyze_results. apply (js_sort_ext _ _ (fun x => snd x <> None)).
  - intros u v Hu Hv. now apply relevance_cmp_key.
  - apply Forall_forall. intros x Hx. apply in_map_iff in Hx as [a [<- Ha]].
    apply analyze_candidates in Ha as [_ [_ Hne]]. cbn [snd].
    destruct (relevance_score_range keywords a Hne) as [r [-> _]]. discriminate.
Qed.

(** ** Well-formed responses *)

Lemma destructure_wf (data : json) (i e si : option json) :
  wf_json data = true -> destructure data = Some (i, e, si) ->
  forall x, (i = Some x \/ e = Some x \/ si = Some x) -> wf_json x = true.
Proof.
  intros Hw Hd x Hx. destruct data as [| | | | |fields]; try discriminate Hd;
    injection Hd as <- <- <-; try (decompose [or] Hx; discriminate).
  destruct Hx as [H|[H|H]]; exact (obj_get_wf _ _ _ Hw H).
Qed.

Lemma opt_field_wf (k : string) (v : option json) :
  (forall x, v = Some x -> wf_json x = true) ->
  Forall (fun kv => wf_json (snd kv) = true) (opt_field k v).
Proof. destruct v as [x|]; constructor; [now apply H|constructor]. Qed.

Lemma scored_json_wf (x : scored) : wf_json (scored_json x) = true.
Proof. apply wf_obj_set; [apply wf_listed_article|]. now destruct (snd x). Qed.

Lemma analysis_body_wf (i : json) (e si : option json) (ks : list string) (res : list scored) :
  wf_json i = true -> (forall x, e = Some x -> wf_json x = true) ->
  (forall x, si = Some x -> wf_json x = true) ->
  wf_json (analysis_body i e si ks res) = true.
Proof.
  intros Hi He Hs. apply wf_JObj; [reflexivity|]. repeat constructor. cbn [snd]. apply wf_JObj.
  - destruct e, si; reflexivity.
  - apply Forall_app; split; [now repeat constructor|].
    apply Forall_app; split; [now apply opt_field_wf|].
    apply Forall_app; split; [now apply opt_field_wf|].
    repeat constructor; cbn [snd]; auto using scored_json_wf with kb.
    unfold recommendations. now destruct (0 <? length res)%nat.
Qed.

(** The route sends a well-formed object when the parsed body is one. *)
Lemma handle_analyze_wf (arts : list article) (parsed : option json) :
  (forall v, parsed = Some v -> wf_json v = true) -> response_wf (handle_analyze arts parsed) = true.
Proof.
  intros Hp. unfold handle_analyze. destruct parsed as [data|]; [|auto with kb].
  destruct (destructure data) as [[[i e] si]|] eqn:Ed; [|auto with kb].
  pose proof (destructure_wf data i e si (Hp data eq_refl) Ed) as Hw.
  destruct i as [i|]; [|auto with kb]. destruct (js_truthy _); [|auto with kb].
  destruct (analysis_text i e); [|auto with kb].
  apply sendResponse_wf, analysis_body_wf; intros; apply Hw; auto.
Qed.

(** ** Properties *)

(** C24: The results are at most five articles of the collection, the top
    five of the search-score ranking (in some order), each passing the
    analyze filter with a relevance score between 0 and 7 (never
    [NaN]), ordered by decreasing relevance score. *)
Theorem analyze_results_spec (arts : list article) (keywords : list string) :
  let res := analyze_results arts keywords in
  (length res <= 5)%nat /\
  Permutation (map fst res) (firstn 5 (rank analyze_ranker keywords arts)) /\
  Sorted (desc relevance_key) res /\
  Forall (fun x => In (fst x) arts /\ analyze_match keywords (fst x) = true /\
                   exists r, snd x = Some r /\ (0 <= r <= 7)%Z) res.
Proof.
  cbv zeta. pose proof (analyze_results_perm arts keywords) as Hp.
  assert (Hf : map fst (map (fun a => (a, calculateRelevanceScore keywords a))
                          (firstn 5 (rank analyze_ranker keywords arts)))
               = firstn 5 (rank analyze_ranker keywords arts))
    by (rewrite map_map; apply map_id).
  split; [|split; [|split]].
  - rewrite (Permutation_length Hp), length_map, length_firstn. lia.
  - rewrite <- Hf. now apply Permutation_map.
  - rewrite analyze_results_by_key. apply js_sort_spec.
  - apply Forall_forall. intros x Hx. apply (Permutation_in _ Hp), in_map_iff in Hx as [a [<- Ha]].
    assert (Hs : In a (js_slice (rank analyze_ranker keywords arts) 0 5))
      by (rewrite js_slice_nonneg by lia; exact Ha).
    apply analyze_candidates in Hs as [Ha' [Hm Hne]]. cbn [fst snd].
    split; [exact Ha'|split; [exact Hm|]]. now apply relevance_score_range.
Qed.

(** C36: The [try] catches every exception: the route answers 200 or 400. *)
Theorem handle_analyze_status (arts : list article) (parsed : option json) :
  status (handle_analyze arts parsed) = 200%Z \/ status (handle_analyze arts parsed) = 400%Z.
Proof.
  unfold handle_analyze.
  destruct parsed as [data|]; [|now right].
  destruct (destructure data) as [[[[i|] e] sys]|]; [|now right|now right].
  destruct (js_truthy (Some i)); [|now right].
  destruct (analysis_text i e); [now left|now right].
Qed.

(** C26: The answer [Invalid JSON in request body] is given exactly when the
    body does not parse, parses to [null], or has a truthy
    [issue_description] that, with [error_message], cannot be converted
    to a string. *)
Theorem handle_analyze_invalid (arts : list article) (parsed : option json) :
  handle_analyze arts parsed = sendError invalid_json 400 <->
  parsed = None \/ parsed = Some JNull \/
  exists fields i, parsed = Some (JObj fields) /\ obj_get fields "issue_description" = Some i /\
                   js_truthy (Some i) = true /\
                   analysis_text i (obj_get fields "error_message") = None.
Proof.
  unfold handle_analyze. split.
  - destruct parsed as [data|]; [|now left]. destruct data as [| | | | |fields]; cbn [destructure];
      try (intros H; injection H; discriminate); [right; now left|].
    destruct (obj_get fields "issue_description") as [i|] eqn:Ei; [|intros H; injection H; discriminate].
    destruct (js_truthy (Some i)) eqn:Ht; [|intros H; injection H; discriminate].
    destruct (analysis_text i _) eqn:Ea; [intros H; injection H; discriminate|].
    intros _. right; right. exists fields, i. repeat split; assumption.
  - intros [->|[->|[fields [i [-> [Hi [Ht Ha]]]]]]]; [reflexivity|reflexivity|].
    cbn [destructure]. now rewrite Hi, Ht, Ha.
Qed.

(** C7: A parsed body that destructures (a non-null value) but whose
    [issue_description] is missing or falsy ([''], [0], [false], [null])
    is answered 400 [issue_description is required]. *)
Theorem handle_analyze_required (arts : list article) (data : json) (i e s : option json) :
  destructure data = Some (i, e, s) -> js_truthy i = false ->
  handle_analyze arts (Some data) = sendError required_issue 400.
Proof.
  intros Hd Ht. unfold handle_analyze. rewrite Hd.
  destruct i as [i|]; [now rewrite Ht|reflexivity].
Qed.

(** The analyze example of the specification:
    [{"issue_description": "I forgot my password"}] finds [KB0012345]
    (relevance 4) and [KB0034567] (relevance 1). *)
Example analyze_password_example :
  analyze_results mockArticles (extractKeywords ("I forgot my password" ++ " "))
  = [(article_1, Some 4%Z); (article_3, Some 1%Z)].
Proof. vm_compute. reflexivity. Qed.

(** The re-sort by relevance changes the search-score order: for these
    keywords [KB0067891] has the highest search score but [KB0034567]
    the highest relevance, and comes first. *)
Example analyze_relevance_resort :
  let ks := extractKeywords "password reset email outlook connection vpn " in
  firstn 5 (rank analyze_ranker ks mockArticles) = [article_2; article_3; article_1] /\
  analyze_results mockArticles ks = [(article_3, Some 3%Z); (article_2, Some 2%Z); (article_1, Some 2%Z)].
Proof. split; vm_compute; reflexivity. Qed.

Lemma handle_analyze_required_witness :
  destructure (JObj [("error_message", JStr "VPN timeout")]) = Some (None, Some (JStr "VPN timeout"), None) /\
  js_truthy None = false /\
  handle_analyze mockArticles (Some (JObj [("error_message", JStr "VPN timeout")]))
  = sendError required_issue 400.
Proof.
  assert (H1 : destructure (JObj [("error_message", JStr "VPN timeout")])
               = Some (None, Some (JStr "VPN timeout"), None)) by reflexivity.
  assert (H2 : js_truthy None = false) by reflexivity.
  split; [exact H1|split; [exact H2|]]. exact (handle_analyze_required mockArticles _ _ _ _ H1 H2).
Defined.

(** The specification's empty body: with a parser that rejects the
    empty text, a request without chunks is answered 400. *)
Theorem analyze_empty_body (json_parse : list Z -> option json) (arts : list article) :
  json_parse [] = None -> handle_analyze_request json_parse arts [] = sendError invalid_json 400.
Proof. intros H. unfold handle_analyze_request. cbn [body_of_chunks fold_left]. now rewrite H. Qed.

Lemma analyze_empty_body_witness :
  (fun _ : list Z => @None json) [] = None /\
  handle_analyze_request (fun _ => None) mockArticles [] = sendError invalid_json 400.
Proof.
  assert (H : (fun _ : list Z => @None json) [] = None) by reflexivity.
  split; [exact H|]. exact (analyze_empty_body (fun _ => None) mockArticles H).
Defined.

End Analyze.
