(* ===== verification/BodyStream.v ===== *)
(** * The request stream of the analyze route

    The analyze route does not read its body at once: it registers two
    listeners on the request stream (lines 297-301),
    [req.on('data', chunk => { body += chunk.toString(); })] and
    [req.on('end', () => { ... })], and Node.js calls them, a [data]
    event per chunk and one [end] event last.  The closure's state is the
    variable [body] and whether the response has been sent ([state]);
    [on_event] is the effect of one event and [stream_step] the same as a
    step relation; the states reachable from [body = ''] are those of
    [reaches on_event stream_init] ([Transitions]).  A stream emits
    nothing after [end], so a state with a response has no step.

    Theorems: [stream_step] and [on_event] agree; by rule induction on the
    reachable states,
    a response is sent only after [end], exactly once, and it is the
    handler of [Analyze] on the decoding of all the chunks received; and
    every stream of chunks followed by [end] ends with that response, so
    the route's [handle_analyze_request] is what the listeners compute. *)

From S2P Require Import Prelude Transitions JsText JsNumber Articles Json JsonText JsonRead Utf8 Analyze.

Local Open Scope Z_scope.

Module BodyStream.
Import Articles Json JsonText JsonRead Utf8 Analyze.

(** The events [req] emits to the route. *)
Inductive event :=
| Data (chunk : list Z)
| End.

(** [body], or the response once the [end] listener has sent it. *)
Inductive state :=
| Reading (body : list Z)
| Responded (r : response).

Section Stream.
(** [JSON.parse] and the article collection. *)
Variable json_parse : list Z -> option json.
Variable arts : list article.

(** [let body = ''] *)
Definition stream_init : state := Reading [].

(** One listener call. *)
Definition on_event (st : state) (ev : event) : option state :=
  match st, ev with
  | Reading b, Data c => Some (Reading (b ++ utf8_decode c))
  | Reading b, End => Some (Responded (handle_analyze arts (json_parse b)))
  | Responded _, _ => None
  end.

Inductive stream_step : state -> event -> state -> Prop :=
| step_data (b c : list Z) : stream_step (Reading b) (Data c) (Reading (b ++ utf8_decode c))
| step_end (b : list Z) : stream_step (Reading b) End (Responded (handle_analyze arts (json_parse b))).

(** ** Lemmas *)

Lemma on_event_step (s : state) (ev : event) (s' : state) :
  on_event s ev = Some s' <-> stream_step s ev s'.
Proof.
  split.
  - destruct s, ev; cbn [on_event]; intros H; try discriminate H; injection H as <-; constructor.
  - intros []; reflexivity.
Qed.

Lemma body_of_chunks_snoc (cs : list (list Z)) (c : list Z) :
  body_of_chunks (cs ++ [c]) = body_of_chunks cs ++ utf8_decode c.
Proof. unfold body_of_chunks. now rewrite fold_left_app. Qed.

Lemma run_data (cs : list (list Z)) (b : list Z) :
  run_from on_event (Reading b) (map Data cs)
  = Some (Reading (fold_left (fun body chunk => body ++ utf8_decode chunk) cs b)).
Proof.
  revert b. induction cs as [|c cs IH]; intros b; [reflexivity|]. cbn [map run_from on_event].
  apply IH.
Qed.

(** ** Properties *)

(** C22: By rule induction on the events: the route is reading its body
    until the [end] event, and the one response it sends comes right after
    [end], on the decoding of every chunk received before it; no response is
    sent early and none twice. *)
Theorem reach_responds_after_end (es : list event) (s : state) :
  reaches on_event stream_init es s ->
  (exists cs, es = map Data cs /\ s = Reading (body_of_chunks cs)) \/
  (exists cs, es = map Data cs ++ [End] /\ s = Responded (handle_analyze_request json_parse arts cs)).
Proof.
  induction 1 as [|es s ev s' _ IH Hs]; [left; now exists []|]. apply on_event_step in Hs.
  destruct IH as [[cs [-> ->]]|[cs [-> ->]]]; destruct ev as [chunk|]; inversion Hs; subst.
  - left. exists (cs ++ [chunk]). now rewrite map_app, body_of_chunks_snoc.
  - right. now exists cs.
Qed.

(** C23: Liveness: every stream of chunks followed by [end] leads to the
    response [handle_analyze_request] computes on those chunks. *)
Theorem stream_responds (cs : list (list Z)) :
  reaches on_event stream_init (map Data cs ++ [End]) (Responded (handle_analyze_request json_parse arts cs)).
Proof. apply reaches_run. rewrite run_from_app. unfold stream_init. now rewrite run_data. Qed.

End Stream.

(** A body sent in two chunks: the reachable state after [end]. *)
Lemma reach_responds_after_end_witness :
  reaches (on_event parse_json mockArticles) stream_init [Data [123]; Data [125]; End]
    (Responded (handle_analyze mockArticles (parse_json [123; 125]))) /\
  ((exists cs, [Data [123]; Data [125]; End] = map Data cs /\
      Responded (handle_analyze mockArticles (parse_json [123; 125])) = Reading (body_of_chunks cs)) \/
   (exists cs, [Data [123]; Data [125]; End] = map Data cs ++ [End] /\
      Responded (handle_analyze mockArticles (parse_json [123; 125]))
      = Responded (handle_analyze_request parse_json mockArticles cs))).
Proof.
  assert (H : reaches (on_event parse_json mockArticles) stream_init [Data [123]; Data [125]; End]
                (Responded (handle_analyze mockArticles (parse_json [123; 125]))))
    by (apply reaches_run; reflexivity).
  split; [exact H|]. exact (reach_responds_after_end _ _ _ _ H).
Defined.

End BodyStream.
