(* ===== verification/Router.v ===== *)
(** * The request listener of [src/quick-start.js]

    [http.createServer((req, res) => ...)] (lines 123-378) parses the URL,
    logs the request, answers the CORS preflight ([OPTIONS]) with 200, the
    CORS headers and no body, and otherwise switches on the pathname:
    banner, health, docs, search, popular and categories; in the
    [default] branch it matches the article path, then a [POST] to
    [/api/knowledge/analyze], and answers 404 [Not found] to anything else.
    A [request] holds the method, the pathname, the parsed query and the
    body chunks; the clock is an input ([now] for the health timestamp,
    [elapsed] for the search time), and [JSON.parse] is a parameter of
    the section.  The log line the listener prints first is in
    [Lifecycle], which runs this listener for each request.

    Theorems: every response carries the CORS headers; only the search
    route can end in an uncaught exception; the preflight answers 200 to
    every path; unknown paths get 404; an article path reaches the
    article route with its id; the method is only read for
    [OPTIONS] and for the analyze route, so [GET] routes answer any other
    method alike; every response body is well formed when the parser
    builds well-formed values, and with the reader of [JsonRead] as
    [JSON.parse] the client decodes every response text to the value the
    handler built.  [request_of] builds the request from the method and
    the request target with [url.parse] of [Url]; from there a search
    request line that repeats [q] crashes the server, a backslash in the
    path is read as a slash, and a search request whose first 1000
    pieces carry no [q] is answered 400 whatever follows them. *)

From S2P Require Import Prelude JsText JsArray JsNumber JsSort Articles Keywords Matching Scoring Json JsonText JsonRead Ranking Search Endpoints Utf8 Url Analyze.
From stdpp Require Import gmap strings.

Local Open Scope string_scope.

Module Router.
Import JsText JsNumber Articles Json JsonText JsonRead Search Endpoints Url Analyze.

Record request := mkRequest {
  method : string;
  pathname : string;
  query : gmap string qvalue;
  chunks : list (list Z)   (** the [data] events, as bytes *)
}.

(** The inputs the server reads from its environment. *)
Record clock := mkClock {
  now : string;       (** [new Date().toISOString()] *)
  elapsed : Z         (** [Date.now() - startTime] of the search route *)
}.

(** Lines 142-148. *)
Definition banner : json :=
  JObj [("message", JStr "ServiceNow Knowledge Base API"); ("version", JStr "1.0.0");
        ("mock_mode", JBool true); ("endpoints", JStr "/api/docs")].

(** Lines 152-160. *)
Definition health (timestamp : string) : json :=
  JObj [("status", JStr "healthy"); ("timestamp", JStr timestamp);
        ("services", JObj [("api", JStr "up"); ("knowledge_base", JStr "up");
                           ("mock_mode", JBool true)])].

Definition endpoint (path meth description : string) : json :=
  JObj [("path", JStr path); ("method", JStr meth); ("description", JStr description)].

(** Lines 164-173. *)
Definition docs : json :=
  JObj [("endpoints", JArr [
    endpoint "/health" "GET" "Health check endpoint";
    JObj [("path", JStr "/api/knowledge/search"); ("method", JStr "GET");
          ("description", JStr "Search knowledge base");
          ("parameters", JArr [JStr "q (required)"; JStr "category"; JStr "page"; JStr "limit"])];
    endpoint "/api/knowledge/article/:id" "GET" "Get specific article by ID";
    endpoint "/api/knowledge/popular" "GET" "Get popular articles";
    endpoint "/api/knowledge/categories" "GET" "Get available categories";
    endpoint "/api/knowledge/analyze" "POST" "Analyze technical issue"])].

(** The preflight answer of lines 131-137: CORS headers, no body. *)
Definition preflight : response := {| status := 200; headers := cors_headers; body := None |}.

(** [url.parse(req.url, true)], [parsedUrl.pathname] and [req.method]
    (lines 124-126): the request the listener reads, when the target is
    on the parser's fast path. *)
Definition request_of (meth target : string) (body : list (list Z)) : option request :=
  match url_parse target with
  | Some (p, q) => Some {| method := meth; pathname := p; query := q; chunks := body |}
  | None => None
  end.

Definition analyze_path : string := "/api/knowledge/analyze".

Section Listener.
Variable json_parse : list Z -> option json.

(** The [default] branch: article by id, analyze, 404. *)
Definition route_default (arts : list article) (req : request) : outcome :=
  match match_article_path (pathname req) with
  | Some i => Reply (handle_article arts i)
  | None =>
      if String.eqb (method req) "POST" && String.eqb (pathname req) analyze_path
      then Reply (handle_analyze_request json_parse arts (chunks req))
      else Reply (sendError "Not found" 404)
  end.

(** The request listener. *)
Definition handle_request (arts : list article) (clk : clock) (req : request) : outcome :=
  if String.eqb (method req) "OPTIONS" then Reply preflight
  else
    let p := pathname req in
    if String.eqb p "/" then Reply (sendResponse banner 200)
    else if String.eqb p "/health" then Reply (sendResponse (health (now clk)) 200)
    else if String.eqb p "/api/docs" then Reply (sendResponse docs 200)
    else if String.eqb p "/api/knowledge/search" then handle_search arts (query req) (elapsed clk)
    else if String.eqb p "/api/knowledge/popular" then Reply (handle_popular arts (query req))
    else if String.eqb p "/api/knowledge/categories" then Reply (handle_categories arts)
    else route_default arts req.

End Listener.

(** The paths of the [switch]. *)
Definition switch_paths : list string :=
  ["/"; "/health"; "/api/docs"; "/api/knowledge/search"; "/api/knowledge/popular";
   "/api/knowledge/categories"].

(** ** Lemmas *)

Definition has_cors (r : response) : Prop := incl cors_headers (headers r).

Lemma sendResponse_cors (data : json) (code : Z) : has_cors (sendResponse data code).
Proof. unfold has_cors. cbn [headers sendResponse]. intros h Hh. now right. Qed.

Lemma sendError_cors (e : string) (code : Z) : has_cors (sendError e code).
Proof. apply sendResponse_cors. Qed.

Lemma handle_search_cors (arts : list article) (q : gmap string qvalue) (t : Z) (r : response) :
  handle_search arts q t = Reply r -> has_cors r.
Proof.
  unfold handle_search. intros H.
  destruct (q !! "q") as [[s|l]|]; try discriminate.
  - destruct (String.eqb s ""); [injection H as <-; apply sendError_cors|].
    destruct (category_filter _ _); [|discriminate]. injection H as <-. apply sendResponse_cors.
  - injection H as <-. apply sendError_cors.
Qed.

Lemma handle_analyze_cors (arts : list article) (parsed : option json) :
  has_cors (handle_analyze arts parsed).
Proof.
  unfold handle_analyze.
  destruct parsed as [data|]; [|apply sendError_cors].
  destruct (destructure data) as [[[[i|] e] sys]|]; try apply sendError_cors.
  destruct (js_truthy (Some i)); [|apply sendError_cors].
  destruct (analysis_text i e); [apply sendResponse_cors|apply sendError_cors].
Qed.

Lemma handle_popular_cors (arts : list article) (q : gmap string qvalue) :
  has_cors (handle_popular arts q).
Proof. apply sendResponse_cors. Qed.

Lemma handle_categories_cors (arts : list article) : has_cors (handle_categories arts).
Proof. apply sendResponse_cors. Qed.

#[local] Hint Resolve sendResponse_cors sendError_cors handle_analyze_cors handle_popular_cors
  handle_categories_cors : kb.

Lemma route_default_reply (jp : list Z -> option json) (arts : list article) (req : request) :
  exists r, route_default jp arts req = Reply r /\ has_cors r.
Proof.
  unfold route_default, handle_article, handle_analyze_request.
  destruct (match_article_path (pathname req)) as [i|].
  - destruct (find_article arts i); eauto with kb.
  - destruct (_ && _); eauto with kb.
Qed.

(** Unfolding the [switch] on a path outside it. *)
Lemma handle_request_default (jp : list Z -> option json) (arts : list article) (clk : clock)
    (req : request) :
  method req <> "OPTIONS" -> ~ In (pathname req) switch_paths ->
  handle_request jp arts clk req = route_default jp arts req.
Proof.
  intros Hm Hp. unfold handle_request.
  apply String.eqb_neq in Hm. rewrite Hm. cbv zeta.
  repeat match goal with
  | |- context [String.eqb (pathname req) ?s] =>
      destruct (String.eqb_spec (pathname req) s) as [E|_];
      [exfalso; apply Hp; rewrite E; cbn [switch_paths In]; tauto|]
  end.
  reflexivity.
Qed.

(** Every response body is well formed when [JSON.parse] only builds
    well-formed values. *)
Lemma handle_request_wf (jp : list Z -> option json) (arts : list article) (clk : clock)
    (req : request) (r : response) :
  (forall s v, jp s = Some v -> wf_json v = true) ->
  handle_request jp arts clk req = Reply r -> response_wf r = true.
Proof.
  intros Hjp. unfold handle_request, route_default, handle_analyze_request.
  repeat case_if; intros H; try (apply handle_search_wf in H; exact H);
    try (destruct (match_article_path _)); injection H as <-;
    auto using handle_popular_wf, handle_categories_wf, handle_article_wf with kb.
  apply handle_analyze_wf. intros v. apply Hjp.
Qed.

(** ** Properties *)

(** C27: Every response of the server carries the CORS headers. *)
Theorem handle_request_cors (jp : list Z -> option json) (arts : list article) (clk : clock)
    (req : request) (r : response) :
  handle_request jp arts clk req = Reply r -> has_cors r.
Proof.
  unfold handle_request. intros H.
  destruct (String.eqb (method req) "OPTIONS");
    [injection H as <-; apply incl_refl|cbv zeta in H].
  repeat match type of H with
  | (if String.eqb (pathname req) ?s then _ else _) = _ =>
      destruct (String.eqb (pathname req) s)
  end;
  try (injection H as <-; auto with kb; fail).
  - now apply handle_search_cors in H.
  - destruct (route_default_reply jp arts req) as [r' [E Hc]]. rewrite E in H.
    now injection H as <-.
Qed.

(** C25: Only the search route can end in an uncaught exception, which stops
    the process; every other request is answered. *)
Theorem handle_request_crash_search (jp : list Z -> option json) (arts : list article)
    (clk : clock) (req : request) (reason : string) :
  handle_request jp arts clk req = Crash reason ->
  method req <> "OPTIONS" /\ pathname req = "/api/knowledge/search".
Proof.
  unfold handle_request. intros H.
  destruct (String.eqb_spec (method req) "OPTIONS"); [discriminate|split; [assumption|]].
  cbv zeta in H.
  repeat match type of H with
  | context [if String.eqb (pathname req) ?s then _ else _] =>
      destruct (String.eqb_spec (pathname req) s); [try discriminate|]
  end; [assumption|].
  destruct (route_default_reply jp arts req) as [r' [E _]]. congruence.
Qed.

(** The preflight: [OPTIONS] on any path answers 200 with the CORS
    headers and no body. *)
Theorem options_preflight (jp : list Z -> option json) (arts : list article) (clk : clock)
    (req : request) :
  method req = "OPTIONS" -> handle_request jp arts clk req = Reply preflight.
Proof. intros H. unfold handle_request. now rewrite H. Qed.

(** C2: The 404 rule of the listener: a request, with any method but
    [OPTIONS], to a path outside the [switch] that is not an article path
    and is not a [POST] to the analyze path is answered 404
    [{error: 'Not found'}]. *)
Theorem handle_request_not_found (jp : list Z -> option json) (arts : list article)
    (clk : clock) (req : request) :
  method req <> "OPTIONS" -> ~ In (pathname req) switch_paths ->
  match_article_path (pathname req) = None ->
  (method req <> "POST" \/ pathname req <> analyze_path) ->
  handle_request jp arts clk req = Reply (sendError "Not found" 404).
Proof.
  intros Hm Hp Ha Hpost. rewrite handle_request_default by assumption.
  unfold route_default. rewrite Ha.
  destruct (String.eqb_spec (method req) "POST"), (String.eqb_spec (pathname req) analyze_path);
    reflexivity || (exfalso; tauto).
Qed.

(** No path of the article route is a path of the [switch]. *)
Lemma article_path_not_switch (i : string) : ~ In (article_path_prefix ++ i) switch_paths.
Proof. cbn. intros H; repeat destruct H as [H|H]; discriminate || contradiction. Qed.

(** C18: End to end through the [default] branch: a request, with any
    method but [OPTIONS], to [/api/knowledge/article/<id>] with a
    non-empty [id] free of line terminators is answered by the article
    route on that [id], as the regular expression of line 281 extracts
    it. *)
Theorem handle_request_article (jp : list Z -> option json) (arts : list article) (clk : clock)
    (req : request) (i : string) :
  method req <> "OPTIONS" -> pathname req = article_path_prefix ++ i -> i <> "" ->
  all_chars (fun c => negb (is_line_terminator c)) i = true ->
  handle_request jp arts clk req = Reply (handle_article arts i).
Proof.
  intros Hm Hp Hi Hl. rewrite handle_request_default by (rewrite ?Hp; auto using article_path_not_switch).
  unfold route_default. rewrite Hp, match_article_path_roundtrip by assumption. reflexivity.
Qed.

(** C34: The method is read only for [OPTIONS] and the analyze route: two
    requests on another path that differ only in a method other than
    [OPTIONS] get the same answer ([DELETE] on an article returns it). *)
Theorem handle_request_method_ignored (jp : list Z -> option json) (arts : list article)
    (clk : clock) (req : request) (m : string) :
  method req <> "OPTIONS" -> m <> "OPTIONS" -> pathname req <> analyze_path ->
  handle_request jp arts clk req
  = handle_request jp arts clk {| method := m; pathname := pathname req; query := query req;
                                  chunks := chunks req |}.
Proof.
  intros H1 H2 Hp. unfold handle_request, route_default. cbn [method pathname query chunks].
  apply String.eqb_neq in H1, H2. rewrite H1, H2.
  apply String.eqb_neq in Hp. rewrite Hp, !andb_false_r. reflexivity.
Qed.

(** End to end: whatever the route, the client that parses the text
    of a response with [JSON.parse] gets the value the handler built, when
    the request bodies are parsed by [JSON.parse] too. *)
Theorem handle_request_reads_back (arts : list article) (clk : clock) (req : request)
    (r : response) (d : json) :
  handle_request parse_json arts clk req = Reply r -> body r = Some d ->
  parse_json (codes (response_text r)) = Some d.
Proof.
  intros H Hb. assert (Hp : forall s v, parse_json s = Some v -> wf_json v = true).
  { unfold parse_json. intros s v. destruct (read_value _ s) as [[v0 r0]| |] eqn:E; try discriminate.
    destruct (skip_ws r0); [|discriminate]. injection 1 as <-. exact (proj1 (read_wf _) _ _ _ E). }
  apply handle_request_wf in H; [|exact Hp]. unfold response_wf in H. unfold response_text.
  rewrite Hb in *. unfold parse_json. now rewrite stringify_parses.
Qed.

(** A request line to the search path on the fast path of [url.parse]. *)
Lemma request_of_search (meth q : string) (body : list (list Z)) :
  all_chars query_char q = true ->
  request_of meth ("/api/knowledge/search?" ++ q) body
  = option_map (fun m => {| method := meth; pathname := "/api/knowledge/search"; query := m; chunks := body |})
      (qs_parse q).
Proof.
  intros Hq. unfold request_of.
  change ("/api/knowledge/search?" ++ q) with ("/" ++ "api/knowledge/search" ++ "?" ++ q).
  rewrite url_parse_fast by (reflexivity || exact Hq). now destruct (qs_parse q).
Qed.

(** Every method but [OPTIONS] on the search path reaches the search route. *)
Lemma handle_request_search (jp : list Z -> option json) (arts : list article) (clk : clock)
    (req : request) :
  method req <> "OPTIONS" -> pathname req = "/api/knowledge/search" ->
  handle_request jp arts clk req = handle_search arts (query req) (elapsed clk).
Proof.
  intros Hm Hp. unfold handle_request. apply String.eqb_neq in Hm. rewrite Hm, Hp. reflexivity.
Qed.

(** C17: From the request line to the crash: a request to the search path
    whose query string, read by [url.parse] and [querystring.parse], gives
    [q] two values or more, ends the process with an uncaught exception,
    whatever the method other than [OPTIONS]. *)
Theorem search_target_repeated_q (jp : list Z -> option json) (arts : list article) (clk : clock)
    (meth q : string) (kvs : list (string * string)) (body : list (list Z)) :
  meth <> "OPTIONS" -> all_chars query_char q = true -> qs_pairs q = Some kvs ->
  (2 <= length (values_of "q" kvs))%nat ->
  exists req reason, request_of meth ("/api/knowledge/search?" ++ q) body = Some req /\
                     handle_request jp arts clk req = Crash reason.
Proof.
  intros Hm Hq Hp Hn. rewrite request_of_search by exact Hq. unfold qs_parse. rewrite Hp.
  cbn [option_map]. eexists _, _. split; [reflexivity|].
  rewrite handle_request_search by (cbn; easy). cbn [query]. unfold handle_search.
  rewrite build_query_lookup.
  destruct (values_of "q" kvs) as [|v [|w vs]]; cbn in Hn; [lia|lia|]. reflexivity.
Qed.

(** C19: [querystring.parse] stops at 1000 pieces ([maxKeys]), so the
    search route never sees what follows them: a request line to the
    search path whose first 1000 pieces carry no [q] is answered 400
    [Query parameter 'q' is required], whatever comes after them, a [q]
    included. *)
Theorem search_q_after_maxKeys (jp : list Z -> option json) (arts : list article) (clk : clock)
    (meth : string) (segs1 segs2 : list string) (m : gmap string qvalue) (body : list (list Z)) :
  meth <> "OPTIONS" -> length segs1 = 1000%nat ->
  Forall (fun s => no_amp s = true) (segs1 ++ segs2) ->
  all_chars query_char (join "&" (segs1 ++ segs2)) = true ->
  qs_parse (join "&" segs1) = Some m -> m !! "q" = None ->
  exists req, request_of meth ("/api/knowledge/search?" ++ join "&" (segs1 ++ segs2)) body = Some req /\
              handle_request jp arts clk req = Reply (sendError required_message 400).
Proof.
  intros Hm Hl Hall Hq Hp Hnq. rewrite request_of_search by exact Hq.
  rewrite qs_parse_maxKeys, Hp by assumption. cbn [option_map]. eexists. split; [reflexivity|].
  rewrite handle_request_search by (cbn; easy). cbn [query]. unfold handle_search. now rewrite Hnq.
Qed.

(** ** Witnesses and examples *)

Definition no_parse : list Z -> option json := fun _ => None.
Definition clock0 : clock := {| now := "2024-01-01T00:00:00.000Z"; elapsed := 0 |}.
Definition get (path : string) (q : gmap string qvalue) : request :=
  {| method := "GET"; pathname := path; query := q; chunks := [] |}.

Lemma handle_request_cors_witness :
  handle_request no_parse mockArticles clock0 (get "/" ∅) = Reply (sendResponse banner 200) /\
  has_cors (sendResponse banner 200).
Proof.
  assert (H : handle_request no_parse mockArticles clock0 (get "/" ∅) = Reply (sendResponse banner 200))
    by reflexivity.
  split; [exact H|]. exact (handle_request_cors _ _ _ _ _ H).
Defined.

(** A repeated [q] crashes the process. *)
Lemma handle_request_crash_search_witness :
  handle_request no_parse mockArticles clock0
    (get "/api/knowledge/search" {[ "q" := QArr ["vpn"; "email"] ]})
  = Crash "TypeError: query.toLowerCase is not a function" /\
  method (get "/api/knowledge/search" {[ "q" := QArr ["vpn"; "email"] ]}) <> "OPTIONS" /\
  pathname (get "/api/knowledge/search" {[ "q" := QArr ["vpn"; "email"] ]}) = "/api/knowledge/search".
Proof.
  assert (H : handle_request no_parse mockArticles clock0
                (get "/api/knowledge/search" {[ "q" := QArr ["vpn"; "email"] ]})
              = Crash "TypeError: query.toLowerCase is not a function") by (vm_compute; reflexivity).
  split; [exact H|]. exact (handle_request_crash_search _ _ _ _ _ H).
Defined.

Lemma options_preflight_witness :
  method {| method := "OPTIONS"; pathname := "/nowhere"; query := ∅; chunks := [] |} = "OPTIONS" /\
  handle_request no_parse mockArticles clock0
    {| method := "OPTIONS"; pathname := "/nowhere"; query := ∅; chunks := [] |} = Reply preflight.
Proof.
  assert (H : method {| method := "OPTIONS"; pathname := "/nowhere"; query := ∅; chunks := [] |}
              = "OPTIONS") by reflexivity.
  split; [exact H|]. exact (options_preflight _ _ _ _ H).
Defined.

Lemma handle_request_not_found_witness :
  method (get "/api/knowledge/analyze" ∅) <> "OPTIONS" /\
  ~ In (pathname (get "/api/knowledge/analyze" ∅)) switch_paths /\
  match_article_path (pathname (get "/api/knowledge/analyze" ∅)) = None /\
  (method (get "/api/knowledge/analyze" ∅) <> "POST" \/
   pathname (get "/api/knowledge/analyze" ∅) <> analyze_path) /\
  handle_request no_parse mockArticles clock0 (get "/api/knowledge/analyze" ∅)
  = Reply (sendError "Not found" 404).
Proof.
  assert (H1 : method (get "/api/knowledge/analyze" ∅) <> "OPTIONS") by discriminate.
  assert (H2 : ~ In (pathname (get "/api/knowledge/analyze" ∅)) switch_paths).
  { cbn [pathname get switch_paths In]. intros H. repeat destruct H as [H|H]; discriminate || exact H. }
  assert (H3 : match_article_path (pathname (get "/api/knowledge/analyze" ∅)) = None) by reflexivity.
  assert (H4 : method (get "/api/knowledge/analyze" ∅) <> "POST" \/
               pathname (get "/api/knowledge/analyze" ∅) <> analyze_path) by (left; discriminate).
  split; [exact H1|split; [exact H2|split; [exact H3|split; [exact H4|]]]].
  exact (handle_request_not_found _ _ _ _ H1 H2 H3 H4).
Defined.

(** [DELETE /api/knowledge/article/1] returns the article like [GET]. *)
Lemma handle_request_method_ignored_witness :
  method (get "/api/knowledge/article/1" ∅) <> "OPTIONS" /\ "DELETE" <> "OPTIONS" /\
  pathname (get "/api/knowledge/article/1" ∅) <> analyze_path /\
  handle_request no_parse mockArticles clock0 (get "/api/knowledge/article/1" ∅)
  = handle_request no_parse mockArticles clock0
      {| method := "DELETE"; pathname := "/api/knowledge/article/1"; query := ∅; chunks := [] |}.
Proof.
  assert (H1 : method (get "/api/knowledge/article/1" ∅) <> "OPTIONS") by discriminate.
  assert (H2 : "DELETE" <> "OPTIONS") by discriminate.
  assert (H3 : pathname (get "/api/knowledge/article/1" ∅) <> analyze_path) by discriminate.
  split; [exact H1|split; [exact H2|split; [exact H3|]]].
  exact (handle_request_method_ignored _ _ _ _ "DELETE" H1 H2 H3).
Defined.

(** End to end: [GET /api/knowledge/article/1] returns [KB0012345]. *)
Example get_article_1 :
  handle_request no_parse mockArticles clock0 (get "/api/knowledge/article/1" ∅)
  = Reply (sendResponse (article_json article_1) 200).
Proof. vm_compute. reflexivity. Qed.

Lemma handle_request_article_witness :
  ("GET" <> "OPTIONS" /\ pathname (get "/api/knowledge/article/2" ∅) = article_path_prefix ++ "2" /\
   "2" <> "" /\ all_chars (fun c => negb (is_line_terminator c)) "2" = true) /\
  handle_request no_parse mockArticles clock0 (get "/api/knowledge/article/2" ∅)
  = Reply (handle_article mockArticles "2").
Proof.
  assert (H1 : method (get "/api/knowledge/article/2" ∅) <> "OPTIONS") by discriminate.
  assert (H2 : pathname (get "/api/knowledge/article/2" ∅) = article_path_prefix ++ "2") by reflexivity.
  assert (H3 : "2" <> "") by discriminate.
  assert (H4 : all_chars (fun c => negb (is_line_terminator c)) "2" = true) by reflexivity.
  split; [repeat split; assumption|]. exact (handle_request_article _ _ _ _ _ H1 H2 H3 H4).
Defined.

Lemma search_target_repeated_q_witness :
  "GET" <> "OPTIONS" /\ all_chars query_char "q=vpn&q=reset" = true /\
  qs_pairs "q=vpn&q=reset" = Some [("q", "vpn"); ("q", "reset")] /\
  (2 <= length (values_of "q" [("q", "vpn"); ("q", "reset")]))%nat /\
  exists req reason, request_of "GET" ("/api/knowledge/search?" ++ "q=vpn&q=reset") [] = Some req /\
                     handle_request no_parse mockArticles clock0 req = Crash reason.
Proof.
  assert (H1 : "GET" <> "OPTIONS") by discriminate.
  assert (H2 : all_chars query_char "q=vpn&q=reset" = true) by reflexivity.
  assert (H3 : qs_pairs "q=vpn&q=reset" = Some [("q", "vpn"); ("q", "reset")]) by reflexivity.
  assert (H4 : (2 <= length (values_of "q" [("q", "vpn"); ("q", "reset")]))%nat) by (cbn; lia).
  split; [exact H1|split; [exact H2|split; [exact H3|split; [exact H4|]]]].
  exact (search_target_repeated_q _ _ _ _ _ _ _ H1 H2 H3 H4).
Defined.

(** Backslashes in the path are read as slashes: [GET /api\docs]
    answers the documentation. *)
Example backslash_docs :
  exists req, request_of "GET" "/api\docs" [] = Some req /\
              handle_request no_parse mockArticles clock0 req = Reply (sendResponse docs 200).
Proof. eexists. split; [reflexivity|]. vm_compute. reflexivity. Qed.

Lemma search_q_after_maxKeys_witness :
  exists m, ("GET" <> "OPTIONS" /\ length (repeat "x=1" 1000) = 1000%nat /\
    Forall (fun s => no_amp s = true) (repeat "x=1" 1000 ++ ["q=vpn"]) /\
    all_chars query_char (join "&" (repeat "x=1" 1000 ++ ["q=vpn"])) = true /\
    qs_parse (join "&" (repeat "x=1" 1000)) = Some m /\ m !! "q" = None) /\
  exists req, request_of "GET" ("/api/knowledge/search?" ++ join "&" (repeat "x=1" 1000 ++ ["q=vpn"])) []
              = Some req /\
              handle_request no_parse mockArticles clock0 req = Reply (sendError required_message 400).
Proof.
  destruct (qs_parse (join "&" (repeat "x=1" 1000))) as [m|] eqn:Hp; [|vm_compute in Hp; discriminate Hp].
  assert (Hnq : m !! "q" = None) by (vm_compute in Hp; injection Hp as <-; reflexivity).
  assert (H1 : "GET" <> "OPTIONS") by discriminate.
  assert (H2 : length (repeat "x=1" 1000) = 1000%nat) by apply repeat_length.
  assert (H3 : Forall (fun s => no_amp s = true) (repeat "x=1" 1000 ++ ["q=vpn"])).
  { apply List.Forall_forall. intros s Hs. apply in_app_or in Hs as [Hs|[<-|[]]];
      [apply repeat_spec in Hs; subst|]; reflexivity. }
  assert (H4 : all_chars query_char (join "&" (repeat "x=1" 1000 ++ ["q=vpn"])) = true) by (vm_compute; reflexivity).
  exists m. split; [tauto|]. exact (search_q_after_maxKeys _ _ _ _ _ _ _ [] H1 H2 H3 H4 Hp Hnq).
Defined.

End Router.
