(* ===== verification/Lifecycle.v ===== *)
(** * The process: start-up, request log, signals and shutdown

    Lines 380-409 of [src/quick-start.js] run the server: [PORT] is
    [process.env.PORT || 3000]; [server.listen(PORT, cb)] prints the
    start-up banner when the socket listens; the request listener prints
    one log line per request (line 128) before it answers; the [SIGTERM]
    and [SIGINT] handlers print a line and call [server.close(cb)], whose
    callback, run once every connection has ended, calls
    [process.exit(0)].  An exception thrown by the listener is uncaught
    and ends the process with code 1.

    The process is a [proc] record: its [run_state] ([Starting],
    [Listening], [Closing], [Exited code]), the lines written by
    [console.log] ([stdout], each a JavaScript string as its code units)
    and the responses sent.  The events Node.js delivers are [Listened],
    [Request], [Signal] and [Closed]; [on_proc_event] is their handling and
    [reaches on_proc_event boot] ([Transitions]) the states a run of the
    process can be in.  A request is served while listening and while
    closing (the connections that are still open are served by
    [server.close]); a second signal prints its line and waits for the
    same close event; the [listening] event is not emitted once the
    server is closing.

    Theorems: the log is the concatenation of the lines of the events; every
    request accepted is answered exactly once unless it crashes the
    process, which then serves nothing more; the process exits with 0 only
    on the close event after a signal, and with 1 only right after a
    request that crashed; from every running state a signal followed by the
    close event ends the process with 0 and the responses already sent.

    The code units of the banner's symbols are those of the source text:
    UTF-8 emoji read back as Windows-1252 (see [banner_mojibake]). *)

From stdpp Require Import gmap strings.
From S2P Require Import Prelude Transitions JsText JsArray JsNumber JsSort Articles Keywords Matching Scoring Json JsonText JsonRead Ranking Search Endpoints Utf8 Url Analyze Router.

Local Open Scope Z_scope.

Module Lifecycle.
Import JsNumber Articles Json JsonText JsonRead Search Router.

(** [const PORT = process.env.PORT || 3000]: the environment's text, or
    3000 when it is unset or empty, as the templates print it. *)
Definition PORT (env : gmap string string) : string :=
  match env !! "PORT" with
  | Some s => if String.eqb s "" then "3000" else s
  | None => "3000"
  end.

(** The code units of the symbols the banner starts its lines with. *)
Definition rocket : list Z := [240; 376; 353; 8364].
Definition pin : list Z := [240; 376; 8220].
Definition clipboard : list Z := [240; 376; 8220; 8249].
Definition magnifier : list Z := [240; 376; 8221].
Definition chart : list Z := [240; 376; 8220; 352].
Definition globe : list Z := [240; 376; 338].
Definition memo : list Z := [240; 376; 8220].
Definition bullet : list Z := [226; 8364; 162].

(** The newline of the template literals. *)
Definition lf : list Z := [10].

(** The twelve [console.log] calls of the [listen] callback. *)
Definition startup_lines (port : string) (n_articles : nat) : list (list Z) :=
  let url := ("http://localhost:" ++ port)%string in
  [ rocket ++ codes " ServiceNow Knowledge Base API Server running!";
    pin ++ codes (" Server URL: " ++ url)%string;
    clipboard ++ codes (" API Documentation: " ++ url ++ "/api/docs")%string;
    magnifier ++ codes (" Health Check: " ++ url ++ "/health")%string;
    chart ++ codes (" Mock articles loaded: " ++ number_to_string (Z.of_nat n_articles))%string;
    lf ++ globe ++ codes (" For Copilot Studio, use: " ++ url ++ "/api/knowledge/search?q=your-query")%string;
    lf ++ memo ++ codes " Example endpoints to test:";
    codes "   " ++ bullet ++ codes (" Search: " ++ url ++ "/api/knowledge/search?q=password")%string;
    codes "   " ++ bullet ++ codes (" Article: " ++ url ++ "/api/knowledge/article/1")%string;
    codes "   " ++ bullet ++ codes (" Popular: " ++ url ++ "/api/knowledge/popular")%string;
    codes "   " ++ bullet ++ codes (" Categories: " ++ url ++ "/api/knowledge/categories")%string;
    lf ++ codes "Press Ctrl+C to stop the server" ]%list.

(** Line 128: [`${new Date().toISOString()} - ${method} ${pathname}`]. *)
Definition request_line (time : string) (req : request) : list Z :=
  codes (time ++ " - " ++ method req ++ " " ++ pathname req)%string.

Inductive signal := SIGTERM | SIGINT.

(** Lines 398 and 405. *)
Definition signal_line (s : signal) : list Z :=
  lf ++ codes ("Received " ++ match s with SIGTERM => "SIGTERM" | SIGINT => "SIGINT" end
               ++ ", shutting down gracefully...")%string.

Inductive run_state :=
| Starting            (** [server.listen] called, not yet listening *)
| Listening
| Closing             (** [server.close] called, connections not all ended *)
| Exited (code : Z).

Record proc := mkProc {
  state : run_state;
  stdout : list (list Z);
  sent : list response
}.

(** What Node.js delivers to the process. *)
Inductive proc_event :=
| Listened                                            (** the [listening] event *)
| Request (time : string) (clk : clock) (req : request)  (** a request on a connection *)
| Signal (s : signal)
| Closed.                                             (** the server's [close] event *)

(** The process once the script has run: nothing printed, nothing sent. *)
Definition boot : proc := {| state := Starting; stdout := []; sent := [] |}.

Definition print (l : list (list Z)) (p : proc) : proc :=
  {| state := state p; stdout := stdout p ++ l; sent := sent p |}.

Section Process.
Variable json_parse : list Z -> option json.
Variable arts : list article.
Variable env : gmap string string.

(** The [listen] callback. *)
Definition on_listening (p : proc) : proc :=
  let p := print (startup_lines (PORT env) (length arts)) p in
  {| state := Listening; stdout := stdout p; sent := sent p |}.

(** The request listener: the log line, then the answer, or the uncaught
    exception that ends the process with code 1. *)
Definition on_request (time : string) (clk : clock) (req : request) (p : proc) : proc :=
  let p := print [request_line time req] p in
  match handle_request json_parse arts clk req with
  | Reply r => {| state := state p; stdout := stdout p; sent := sent p ++ [r] |}
  | Crash _ => {| state := Exited 1; stdout := stdout p; sent := sent p |}
  end.

(** The signal handlers: the line, then [server.close(cb)]. *)
Definition on_signal (s : signal) (p : proc) : proc :=
  let p := print [signal_line s] p in
  {| state := Closing; stdout := stdout p; sent := sent p |}.

(** The [server.close] callback: [process.exit(0)]. *)
Definition on_close (p : proc) : proc :=
  {| state := Exited 0; stdout := stdout p; sent := sent p |}.

Definition on_proc_event (p : proc) (ev : proc_event) : option proc :=
  match state p, ev with
  | Starting, Listened => Some (on_listening p)
  | (Listening | Closing), Request time clk req => Some (on_request time clk req p)
  | (Starting | Listening | Closing), Signal s => Some (on_signal s p)
  | Closing, Closed => Some (on_close p)
  | _, _ => None
  end.

(** The lines an event prints. *)
Definition event_lines (ev : proc_event) : list (list Z) :=
  match ev with
  | Listened => startup_lines (PORT env) (length arts)
  | Request time _ req => [request_line time req]
  | Signal s => [signal_line s]
  | Closed => []
  end.

Definition is_request (ev : proc_event) : bool := match ev with Request _ _ _ => true | _ => false end.

Definition count_requests (es : list proc_event) : nat := length (List.filter is_request es).

(** 1 once a request has crashed the process. *)
Definition crashed (p : proc) : nat :=
  match state p with Exited c => if Z.eqb c 1 then 1 else 0 | _ => 0 end.

(** ** Lemmas *)

(** The four handled events, with the states they are handled in. *)
Lemma on_event_cases (p : proc) (ev : proc_event) (p' : proc) :
  on_proc_event p ev = Some p' ->
  (state p = Starting /\ ev = Listened /\ p' = on_listening p) \/
  (exists time clk req, (state p = Listening \/ state p = Closing) /\
     ev = Request time clk req /\ p' = on_request time clk req p) \/
  (exists s, (forall c, state p <> Exited c) /\ ev = Signal s /\ p' = on_signal s p) \/
  (state p = Closing /\ ev = Closed /\ p' = on_close p).
Proof.
  unfold on_proc_event. destruct (state p) eqn:E, ev; intros H; try discriminate H; injection H as <-;
    solve [ left; auto | right; left; eauto 10
          | right; right; left; eexists; split; [congruence|auto] | right; right; right; auto ].
Qed.

(** Rule induction on a run: one goal per handled event. *)
Ltac event_cases H :=
  apply on_event_cases in H
    as [(Hst & -> & ->)|[(time & clk & req & Hst & -> & ->)|[(sg & Hst & -> & ->)|(Hst & -> & ->)]]].

Lemma count_requests_snoc (es : list proc_event) (ev : proc_event) :
  count_requests (es ++ [ev]) = (count_requests es + if is_request ev then 1 else 0)%nat.
Proof. unfold count_requests. rewrite List.filter_app, length_app. cbn. destruct (is_request ev); cbn; lia. Qed.

(** A closing process has received a signal. *)
Lemma closing_after_signal (es : list proc_event) (p : proc) :
  reaches on_proc_event boot es p -> state p = Closing ->
  exists es1 s es2, es = es1 ++ Signal s :: es2.
Proof.
  induction 1 as [|es p ev p' Hr IH Hs]; [discriminate|]. event_cases Hs; cbn; intros Hc.
  - discriminate.
  - unfold on_request in Hc. destruct (handle_request json_parse arts clk req); cbn in Hc; [|discriminate].
    destruct (IH Hc) as (es1 & s & es2 & ->). exists es1, s, (es2 ++ [Request time clk req]).
    now rewrite <- app_assoc.
  - now exists es, sg, [].
  - discriminate.
Qed.

(** ** Properties *)

(** C13: By rule induction on the events: what the process prints is
    exactly, in the order of the events, the twelve banner lines when it
    starts listening, one line per request received (time, method and
    pathname) and one line per signal; the close event prints nothing. *)
Theorem reaches_stdout (es : list proc_event) (p : proc) :
  reaches on_proc_event boot es p -> stdout p = List.flat_map event_lines es.
Proof.
  induction 1 as [|es p ev p' Hr IH Hs]; [reflexivity|].
  rewrite List.flat_map_app, <- IH. cbn [List.flat_map]. rewrite app_nil_r.
  event_cases Hs; try reflexivity.
  - unfold on_request. now destruct (handle_request json_parse arts clk req).
  - symmetry. apply app_nil_r.
Qed.

(** C31: By rule induction on the process's events: every request the
    process accepts is answered exactly once, except one that throws,
    which ends the process; so the responses sent, plus one after a crash,
    are as many as the requests received, and nothing is served after a
    crash. *)
Theorem reaches_requests_answered (es : list proc_event) (p : proc) :
  reaches on_proc_event boot es p -> (length (sent p) + crashed p)%nat = count_requests es.
Proof.
  induction 1 as [|es p ev p' Hr IH Hs]; [reflexivity|]. rewrite count_requests_snoc, <- IH.
  unfold crashed in *. event_cases Hs; cbn [is_request].
  - cbn. rewrite Hst. lia.
  - unfold on_request. destruct (handle_request json_parse arts clk req); cbn;
      destruct Hst as [-> | ->]; rewrite ?length_app; cbn; lia.
  - cbn. destruct (state p); [..|destruct (Hst code eq_refl)]; lia.
  - cbn. rewrite Hst. lia.
Qed.

(** C15: The exit code: the process exits with 0 only on the close event
    after a signal, and with 1 only right after a request whose handling
    threw an uncaught exception. *)
Theorem reaches_exit_code (es : list proc_event) (p : proc) (c : Z) :
  reaches on_proc_event boot es p -> state p = Exited c ->
  (c = 0 /\ exists es1 s es2, es = es1 ++ Signal s :: es2 ++ [Closed]) \/
  (c = 1 /\ exists es1 time clk req reason,
     es = es1 ++ [Request time clk req] /\ handle_request json_parse arts clk req = Crash reason).
Proof.
  intros Hr. revert c. destruct Hr as [|es p ev p' Hr Hs]; intros c; [discriminate|].
  pose proof (closing_after_signal _ _ Hr) as Hcl. event_cases Hs; cbn.
  - discriminate.
  - unfold on_request. destruct (handle_request json_parse arts clk req) as [r|reason] eqn:Eh; cbn.
    + destruct Hst as [-> | ->]; discriminate.
    + injection 1 as <-. right. split; [reflexivity|]. now exists es, time, clk, req, reason.
  - discriminate.
  - injection 1 as <-. left. split; [reflexivity|].
    destruct (Hcl Hst) as (es1 & s & es2 & ->). exists es1, s, es2. now rewrite <- app_assoc.
Qed.

(** C21: Graceful shutdown: from every state of a run that has not exited,
    a signal followed by the close event ends the process with code 0,
    after printing the signal's line and keeping the responses sent. *)
Theorem shutdown_exits (es : list proc_event) (p : proc) (s : signal) :
  reaches on_proc_event boot es p -> (forall c, state p <> Exited c) ->
  exists p', reaches on_proc_event boot (es ++ [Signal s; Closed]) p' /\
    state p' = Exited 0 /\ stdout p' = stdout p ++ [signal_line s] /\ sent p' = sent p.
Proof.
  intros Hr Hx. exists (on_close (on_signal s p)). split; [|repeat split].
  apply (reaches_app _ _ _ _ _ _ Hr). cbn [run_from]. unfold on_proc_event at 1.
  destruct (state p) eqn:E; [..|destruct (Hx code eq_refl)]; reflexivity.
Qed.

End Process.

(** The first banner line starts with four code units where the source
    meant the one character U+1F680 (two UTF-16 code units); the second
    and the seventh line start with the same symbol, where the source
    meant two different ones. *)
Lemma banner_mojibake (port : string) (n : nat) :
  firstn 4 (hd [] (startup_lines port n)) = rocket /\
  firstn 2 (hd [] (startup_lines port n)) <> [55357; 56960] /\
  firstn 3 (nth 1 (startup_lines port n) []) = firstn 3 (tl (nth 6 (startup_lines port n) [])).
Proof. split; [reflexivity|split; [cbn; discriminate|reflexivity]]. Qed.

(** A run: the banner, the API banner, a signal, then a request on a
    connection still open that repeats [q]. *)
Definition t0 : string := "2024-01-01T00:00:00.000Z".
Definition crash_run : list proc_event :=
  [Listened; Request t0 clock0 (get "/" ∅); Signal SIGINT;
   Request t0 clock0 (get "/api/knowledge/search" {[ "q" := QArr ["vpn"; "email"] ]})].
Definition health_run : list proc_event := [Listened; Request t0 clock0 (get "/health" ∅)].

Lemma reaches_stdout_witness :
  exists p, reaches (on_proc_event parse_json mockArticles ∅) boot crash_run p /\
    stdout p = List.flat_map (event_lines mockArticles ∅) crash_run.
Proof.
  destruct (run_from (on_proc_event parse_json mockArticles ∅) boot crash_run) as [p|] eqn:E;
    [|vm_compute in E; discriminate E].
  apply reaches_run in E. exists p. split; [exact E|]. exact (reaches_stdout _ _ _ _ _ E).
Defined.

Lemma reaches_requests_answered_witness :
  exists p, reaches (on_proc_event parse_json mockArticles ∅) boot crash_run p /\
    (length (sent p) + crashed p)%nat = count_requests crash_run.
Proof.
  destruct (run_from (on_proc_event parse_json mockArticles ∅) boot crash_run) as [p|] eqn:E;
    [|vm_compute in E; discriminate E].
  apply reaches_run in E. exists p. split; [exact E|]. exact (reaches_requests_answered _ _ _ _ _ E).
Defined.

Lemma reaches_exit_code_witness :
  exists p, reaches (on_proc_event parse_json mockArticles ∅) boot crash_run p /\ state p = Exited 1 /\
  ((1 = 0 /\ exists es1 s es2, crash_run = es1 ++ Signal s :: es2 ++ [Closed]) \/
   (1 = 1 /\ exists es1 time clk req reason,
      crash_run = es1 ++ [Request time clk req] /\
      handle_request parse_json mockArticles clk req = Crash reason)).
Proof.
  destruct (run_from (on_proc_event parse_json mockArticles ∅) boot crash_run) as [p|] eqn:E;
    [|vm_compute in E; discriminate E].
  assert (Hx : state p = Exited 1) by (vm_compute in E; now injection E as <-).
  apply reaches_run in E. exists p. split; [exact E|]. split; [exact Hx|].
  exact (reaches_exit_code _ _ _ _ _ _ E Hx).
Defined.

Lemma shutdown_exits_witness :
  exists p, reaches (on_proc_event parse_json mockArticles ∅) boot health_run p /\
  (forall c, state p <> Exited c) /\
  exists p', reaches (on_proc_event parse_json mockArticles ∅) boot (health_run ++ [Signal SIGTERM; Closed]) p' /\
    state p' = Exited 0 /\ stdout p' = stdout p ++ [signal_line SIGTERM] /\ sent p' = sent p.
Proof.
  destruct (run_from (on_proc_event parse_json mockArticles ∅) boot health_run) as [p|] eqn:E;
    [|vm_compute in E; discriminate E].
  assert (Hx : forall c, state p <> Exited c) by (vm_compute in E; injection E as <-; discriminate).
  apply reaches_run in E. exists p. split; [exact E|]. split; [exact Hx|].
  exact (shutdown_exits _ _ _ _ _ SIGTERM E Hx).
Defined.

End Lifecycle.
